(** * Mercedes Race: a shallow embedding of the room server (src/server.js)

    The server keeps a registry of rooms (a JavaScript [Map] from room code
    to room object); every room owns a [Map] from socket id to player object.
    Handlers run to completion one at a time, so the server is modelled as a
    transition function on the registry: each handler takes the registry and
    the payload of one inbound message (together with the clock readings the
    handler makes) and returns the new registry with the list of messages it
    emitted.

    Modelling choices, all local to this file:
    - a JavaScript [Map] is an association list in insertion order, with
      [Map.set] replacing in place and [Map.delete] removing the entry;
    - objects held in a [Map] are identified by their key, so that a mutation
      made through an alias (the arrays of [buildResultsArray]) is written
      back to the entry with the same key;
    - timestamps ([Date.now()]) are integers in milliseconds and are inputs of
      the handlers that read the clock;
    - a timer handle stored in a room is [TNull] (the initial [null]),
      [TArmed] (scheduled, will fire) or [TDead] (cancelled, or a timeout
      that has fired);
    - strings are ASCII strings; [toUpperCase] and [trim] are the ASCII
      restrictions of the JavaScript methods;
    - socket.io channel membership ([socket.join]) belongs to the transport
      and is not modelled: an emission records its target and its message. *)

From Stdlib Require Import List ZArith String Ascii Bool Lia Permutation Sorted.
Import ListNotations.
Open Scope string_scope.
Open Scope list_scope.
Open Scope Z_scope.

(** ** JavaScript [Map] with string keys, in insertion order *)

Module JsMap.
Section WithValue.
Context {V : Type}.

Definition t := list (string * V).

Fixpoint get (k : string) (m : t) : option V :=
  match m with
  | [] => None
  | (k', v) :: m' => if String.eqb k k' then Some v else get k m'
  end.

Definition has (k : string) (m : t) : bool :=
  match get k m with Some _ => true | None => false end.

Fixpoint set (k : string) (v : V) (m : t) : t :=
  match m with
  | [] => [(k, v)]
  | (k', v') :: m' =>
      if String.eqb k k' then (k, v) :: m' else (k', v') :: set k v m'
  end.

Fixpoint delete (k : string) (m : t) : t :=
  match m with
  | [] => []
  | (k', v') :: m' =>
      if String.eqb k k' then m' else (k', v') :: delete k m'
  end.

Definition keys (m : t) : list string := map fst m.
Definition values (m : t) : list V := map snd m.
Definition size (m : t) : Z := Z.of_nat (List.length m).
End WithValue.
Arguments t : clear implicits.
End JsMap.

(** ** Data model *)

Inductive Phase := Lobby | Racing | Finished.

Definition phase_eqb (a b : Phase) : bool :=
  match a, b with
  | Lobby, Lobby | Racing, Racing | Finished, Finished => true
  | _, _ => false
  end.

Inductive Timer := TNull | TArmed | TDead.

(** [clearInterval] / [clearTimeout]: cancels an armed timer, does nothing on
    [null] or on a handle that is no longer scheduled. *)
Definition clearTimer (t : Timer) : Timer :=
  match t with TArmed => TDead | _ => t end.

Definition armed (t : Timer) : bool :=
  match t with TArmed => true | _ => false end.

Record Player := mkPlayer {
  socketId : string;
  name : string;
  carModel : string;
  carColor : string;
  progress : Z;
  clickCount : Z;
  lastClickTime : Z;
  finishedAt : option Z;
  rank : option Z;
  dnf : bool;
  disconnected : bool
}.

Record Room := mkRoom {
  code : string;
  hostSocketId : string;
  phase : Phase;
  players : JsMap.t Player;
  createdAt : Z;
  raceStartedAt : option Z;
  finishedCount : Z;
  broadcastInterval : Timer;
  raceTimeout : Timer
}.

Definition Registry := JsMap.t Room.

(** The object built by [serializePlayer]. *)
Record SPlayer := mkSPlayer {
  sp_socketId : string;
  sp_name : string;
  sp_carModel : string;
  sp_carColor : string;
  sp_progress : Z;
  sp_rank : option Z;
  sp_dnf : bool;
  sp_disconnected : bool
}.

(** Outbound messages: the events the client (src/public/game.js) listens
    for. *)
Inductive Msg :=
| RoomCreated (c : string) (player : SPlayer)
| RoomJoined (c hostId : string) (ps : list SPlayer) (ph : option Phase)
| JoinError (reason : string)
| RejoinFailed (reason : string)
| PlayerJoined (player : SPlayer)
| PlayerLeft (sid : string) (newHostId : option string)
| HostChanged (newHostId : string)
| StartError (reason : string)
| RaceStarted (startTime : Z)
| ProgressUpdate (updates : list (string * Z))
| PlayerFinished (sid : string) (rk : Z) (time : Z)
| FirstFinisherCountdown (endsAt : Z)
| RaceFinished (results : list SPlayer)
| RoomReset (ps : list SPlayer) (hostId : string).

Inductive Target :=
| ToSocket (sid : string)              (* socket.emit *)
| ToRoom (roomCode : string)           (* io.to(roomCode).emit *)
| ToRoomExcept (roomCode sid : string) (* socket.to(roomCode).emit *).

Definition Emit := (Target * Msg)%type.

(** ** Field updates (in-place assignments of the source) *)

Definition set_progress (p : Player) (v : Z) : Player :=
  mkPlayer (socketId p) (name p) (carModel p) (carColor p) v (clickCount p)
           (lastClickTime p) (finishedAt p) (rank p) (dnf p) (disconnected p).
Definition set_clickCount (p : Player) (v : Z) : Player :=
  mkPlayer (socketId p) (name p) (carModel p) (carColor p) (progress p) v
           (lastClickTime p) (finishedAt p) (rank p) (dnf p) (disconnected p).
Definition set_lastClickTime (p : Player) (v : Z) : Player :=
  mkPlayer (socketId p) (name p) (carModel p) (carColor p) (progress p)
           (clickCount p) v (finishedAt p) (rank p) (dnf p) (disconnected p).
Definition set_finishedAt (p : Player) (v : option Z) : Player :=
  mkPlayer (socketId p) (name p) (carModel p) (carColor p) (progress p)
           (clickCount p) (lastClickTime p) v (rank p) (dnf p) (disconnected p).
Definition set_rank (p : Player) (v : option Z) : Player :=
  mkPlayer (socketId p) (name p) (carModel p) (carColor p) (progress p)
           (clickCount p) (lastClickTime p) (finishedAt p) v (dnf p)
           (disconnected p).
Definition set_dnf (p : Player) (v : bool) : Player :=
  mkPlayer (socketId p) (name p) (carModel p) (carColor p) (progress p)
           (clickCount p) (lastClickTime p) (finishedAt p) (rank p) v
           (disconnected p).
Definition set_disconnected (p : Player) (v : bool) : Player :=
  mkPlayer (socketId p) (name p) (carModel p) (carColor p) (progress p)
           (clickCount p) (lastClickTime p) (finishedAt p) (rank p) (dnf p) v.

Definition set_hostSocketId (r : Room) (v : string) : Room :=
  mkRoom (code r) v (phase r) (players r) (createdAt r) (raceStartedAt r)
         (finishedCount r) (broadcastInterval r) (raceTimeout r).
Definition set_phase (r : Room) (v : Phase) : Room :=
  mkRoom (code r) (hostSocketId r) v (players r) (createdAt r)
         (raceStartedAt r) (finishedCount r) (broadcastInterval r)
         (raceTimeout r).
Definition set_players (r : Room) (v : JsMap.t Player) : Room :=
  mkRoom (code r) (hostSocketId r) (phase r) v (createdAt r)
         (raceStartedAt r) (finishedCount r) (broadcastInterval r)
         (raceTimeout r).
Definition set_raceStartedAt (r : Room) (v : option Z) : Room :=
  mkRoom (code r) (hostSocketId r) (phase r) (players r) (createdAt r) v
         (finishedCount r) (broadcastInterval r) (raceTimeout r).
Definition set_finishedCount (r : Room) (v : Z) : Room :=
  mkRoom (code r) (hostSocketId r) (phase r) (players r) (createdAt r)
         (raceStartedAt r) v (broadcastInterval r) (raceTimeout r).
Definition set_broadcastInterval (r : Room) (v : Timer) : Room :=
  mkRoom (code r) (hostSocketId r) (phase r) (players r) (createdAt r)
         (raceStartedAt r) (finishedCount r) v (raceTimeout r).
Definition set_raceTimeout (r : Room) (v : Timer) : Room :=
  mkRoom (code r) (hostSocketId r) (phase r) (players r) (createdAt r)
         (raceStartedAt r) (finishedCount r) (broadcastInterval r) v.

(** ** JavaScript coercions used by the handlers *)

(** Truthiness of [finishedAt]: [null] and [0] are falsy. *)
Definition truthy_time (t : option Z) : bool :=
  match t with
  | Some z => negb (z =? 0)
  | None => false
  end.

(** Truthiness of a string: the empty string is falsy. *)
Definition truthy_string (s : string) : bool :=
  match s with EmptyString => false | _ => true end.

(** Numeric value of a nullable number in a subtraction ([null] is [0]). *)
Definition num (v : option Z) : Z :=
  match v with Some z => z | None => 0 end.

(** ** Helpers of the source *)

Definition COLOR_PALETTE : list string :=
  [ "#C0C0C0"; "#CC0000"; "#1E3A8A"; "#B8860B"; "#F5F5F5";
    "#4A4A4A"; "#006B4F"; "#FF6B35"; "#7B2D8B"; "#00A8CC";
    "#8B4513"; "#FF1493"; "#888888"; "#FFD700"; "#00CED1"; "#DC143C" ].

Definition CAR_MODELS : list string :=
  [ "a-class"; "cla"; "amg-gt"; "300sl"; "amg-gtr"; "c-class" ].

Definition NANOID_ALPHABET : string := "ABCDEFGHJKLMNPQRSTUVWXYZ23456789".

Definition mem_string (s : string) (l : list string) : bool :=
  existsb (String.eqb s) l.

(** [generateRoomCode]: the do-while loop draws codes from [nanoid] until one
    is not a key of the registry.  [draws] is the sequence of values [nanoid]
    returns; the result is [None] when every supplied draw collides (the loop
    has not ended yet). *)
Definition generateRoomCode (rooms : Registry) (draws : list string)
  : option string :=
  find (fun c => negb (JsMap.has c rooms)) draws.

Definition is_space (c : ascii) : bool :=
  let n := nat_of_ascii c in
  (Nat.eqb n 32 || (Nat.leb 9 n && Nat.leb n 13))%bool.

Fixpoint trim_left (s : string) : string :=
  match s with
  | String c s' => if is_space c then trim_left s' else s
  | EmptyString => EmptyString
  end.

Fixpoint trim_right (s : string) : string :=
  match s with
  | EmptyString => EmptyString
  | String c s' =>
      match trim_right s' with
      | EmptyString => if is_space c then EmptyString else String c EmptyString
      | r => String c r
      end
  end.

Definition trim (s : string) : string := trim_right (trim_left s).

(** The characters removed by the [replace] call of [sanitize]: less-than,
    greater-than, ampersand, double quote (34) and apostrophe (39). *)
Definition is_markup (c : ascii) : bool :=
  let n := nat_of_ascii c in
  (Nat.eqb n 60 || Nat.eqb n 62 || Nat.eqb n 38 || Nat.eqb n 34
   || Nat.eqb n 39)%bool.

Fixpoint strip_markup (s : string) : string :=
  match s with
  | EmptyString => EmptyString
  | String c s' =>
      if is_markup c then strip_markup s' else String c (strip_markup s')
  end.

(** [sanitize]; the argument is [None] when it is not a string. *)
Definition sanitize (str : option string) : string :=
  match str with
  | None => ""
  | Some s => strip_markup (String.substring 0 20 (trim s))
  end.

Definition getNextColor (room : Room) : string :=
  let usedColors := map carColor (JsMap.values (players room)) in
  match find (fun c => negb (mem_string c usedColors)) COLOR_PALETTE with
  | Some c => c
  | None =>
      nth (Z.to_nat (JsMap.size (players room) mod 16)) COLOR_PALETTE ""
  end.

Definition serializePlayer (p : Player) : SPlayer :=
  mkSPlayer (socketId p) (name p) (carModel p) (carColor p) (progress p)
            (rank p) (dnf p || false) (disconnected p || false).

(** [findRoomBySocket]: the first room, in registry order, whose player map
    has the socket; returned with the key it is registered under. *)
Definition findRoomBySocket (rooms : Registry) (sid : string)
  : option (string * Room) :=
  find (fun e => JsMap.has sid (players (snd e))) rooms.

(** ** [Array.prototype.sort] with a comparator: a stable sort *)

Section Sort.
Context {A : Type} (cmp : A -> A -> Z).

Fixpoint insert_sorted (x : A) (l : list A) : list A :=
  match l with
  | [] => [x]
  | y :: l' => if cmp x y <=? 0 then x :: l else y :: insert_sorted x l'
  end.

Fixpoint js_sort (l : list A) : list A :=
  match l with
  | [] => []
  | x :: l' => insert_sorted x (js_sort l')
  end.
End Sort.

(** [String.prototype.toUpperCase], on ASCII. *)
Definition upper_ascii (c : ascii) : ascii :=
  let n := nat_of_ascii c in
  if (Nat.leb 97 n && Nat.leb n 122)%bool then ascii_of_nat (n - 32) else c.

Fixpoint toUpperCase (s : string) : string :=
  match s with
  | EmptyString => EmptyString
  | String c s' => String (upper_ascii c) (toUpperCase s')
  end.

(** ** End of race *)

Definition Entry := (string * Player)%type.

Definition is_finished (e : Entry) : bool := truthy_time (finishedAt (snd e)).

(** The [forEach] of [buildResultsArray]: [p.rank = ++rank; p.dnf = true]. *)
Fixpoint assign_ranks (rk : Z) (l : list Entry) : list Entry :=
  match l with
  | [] => []
  | (k, p) :: l' =>
      (k, set_dnf (set_rank p (Some (rk + 1))) true) :: assign_ranks (rk + 1) l'
  end.

(** The players mutated through the [unfinished] array are the objects of
    the room's map: each entry whose key was ranked shows the ranked
    object. *)
Definition write_back (ranked m : JsMap.t Player) : JsMap.t Player :=
  map (fun e => match JsMap.get (fst e) ranked with
                | Some p' => (fst e, p')
                | None => e
                end) m.

Definition by_rank (a b : Entry) : Z := num (rank (snd a)) - num (rank (snd b)).
Definition by_progress_desc (a b : Entry) : Z :=
  progress (snd b) - progress (snd a).

Definition buildResultsArray (room : Room) : Room * list SPlayer :=
  let ps := players room in
  let finished := js_sort by_rank (filter is_finished ps) in
  let unfinished :=
    js_sort by_progress_desc (filter (fun e => negb (is_finished e)) ps) in
  let ranked := assign_ranks (Z.of_nat (List.length finished)) unfinished in
  (set_players room (write_back ranked ps),
   map (fun e => serializePlayer (snd e)) (finished ++ ranked)).

Definition endRace (room : Room) (roomCode : string) : Room * list Emit :=
  if phase_eqb (phase room) Finished then (room, [])
  else
    let room1 := set_phase room Finished in
    let room2 :=
      set_broadcastInterval room1 (clearTimer (broadcastInterval room1)) in
    let room3 := set_raceTimeout room2 (clearTimer (raceTimeout room2)) in
    let '(room4, results) := buildResultsArray room3 in
    (room4, [(ToRoom roomCode, RaceFinished results)]).

Definition checkAllFinished (room : Room) (roomCode : string)
  : Room * list Emit :=
  let activePlayers :=
    filter (fun p => negb (disconnected p)) (JsMap.values (players room)) in
  let allDone := forallb (fun p => truthy_time (finishedAt p)) activePlayers in
  if allDone then endRace room roomCode else (room, []).

(** ** Disconnect and leave *)

Definition handleDisconnect (rooms : Registry) (sid : string)
  : Registry * list Emit :=
  match findRoomBySocket rooms sid with
  | None => (rooms, [])
  | Some (key, room) =>
      let roomCode := code room in
      match JsMap.get sid (players room) with
      | None => (rooms, [])
      | Some player =>
          match phase room with
          | Lobby =>
              let room1 := set_players room (JsMap.delete sid (players room)) in
              let '(room2, newHostId) :=
                if (String.eqb (hostSocketId room1) sid
                    && (0 <? JsMap.size (players room1)))%bool
                then
                  match JsMap.keys (players room1) with
                  | k :: _ => (set_hostSocketId room1 k, Some k)
                  | [] => (room1, None)
                  end
                else (room1, None) in
              let rooms1 := JsMap.set key room2 rooms in
              if JsMap.size (players room2) =? 0
              then (JsMap.delete roomCode rooms1, [])
              else (rooms1, [(ToRoom roomCode, PlayerLeft sid newHostId)])
          | Racing =>
              let room1 :=
                set_players room
                  (JsMap.set sid (set_disconnected player true) (players room)) in
              let '(room2, newHostId) :=
                if (String.eqb (hostSocketId room1) sid
                    && (0 <? JsMap.size (players room1)))%bool
                then
                  match find (fun id =>
                                match JsMap.get id (players room1) with
                                | Some q => negb (disconnected q)
                                | None => false
                                end) (JsMap.keys (players room1)) with
                  | Some next =>
                      if truthy_string next
                      then (set_hostSocketId room1 next, Some next)
                      else (room1, None)
                  | None => (room1, None)
                  end
                else (room1, None) in
              let '(room3, ems) := checkAllFinished room2 roomCode in
              (JsMap.set key room3 rooms,
               (ToRoom roomCode, PlayerLeft sid newHostId) :: ems)
          | Finished =>
              let room1 := set_players room (JsMap.delete sid (players room)) in
              let rooms1 := JsMap.set key room1 rooms in
              if JsMap.size (players room1) =? 0
              then (JsMap.delete roomCode rooms1, [])
              else (rooms1, [])
          end
      end
  end.

(** ** Message handlers *)

Definition safe_model (carModel : option string) : string :=
  match carModel with
  | Some m => if mem_string m CAR_MODELS then m else "a-class"
  | None => "a-class"
  end.

(** The player object literal shared by create, join and rejoin. *)
Definition new_player (sid : string) (nm cm : option string) (color : string)
  : Player :=
  let safeName := sanitize nm in
  mkPlayer sid (if truthy_string safeName then safeName else "Driver")
           (safe_model cm) color 0 0 0 None None false false.

Definition create_room (rooms : Registry) (sid : string)
    (nm cm : option string) (draws : list string) (now : Z)
  : Registry * list Emit :=
  match generateRoomCode rooms draws with
  | None => (rooms, [])
  | Some c =>
      let player := new_player sid nm cm (nth 0 COLOR_PALETTE "") in
      let room :=
        mkRoom c sid Lobby [(sid, player)] now None 0 TNull TNull in
      (JsMap.set c room rooms,
       [(ToSocket sid, RoomCreated c (serializePlayer player))])
  end.

(** [(code || '').toUpperCase()]; [None] is a missing code. *)
Definition normalize_code (c : option string) : string :=
  match c with
  | Some s => toUpperCase s
  | None => toUpperCase ""
  end.

Definition serialize_all (r : Room) : list SPlayer :=
  map serializePlayer (JsMap.values (players r)).

Definition join_room (rooms : Registry) (sid : string)
    (c nm cm : option string) : Registry * list Emit :=
  let key := normalize_code c in
  match JsMap.get key rooms with
  | None =>
      (rooms, [(ToSocket sid,
                JoinError "Room not found. Check the code and try again.")])
  | Some room =>
      if negb (phase_eqb (phase room) Lobby) then
        (rooms,
         [(ToSocket sid,
           JoinError "This race has already started. Wait for the next round.")])
      else if 16 <=? JsMap.size (players room) then
        (rooms, [(ToSocket sid, JoinError "Room is full (max 16 players).")])
      else
        let player := new_player sid nm cm (getNextColor room) in
        let room1 := set_players room (JsMap.set sid player (players room)) in
        (JsMap.set key room1 rooms,
         [(ToSocket sid,
           RoomJoined (code room1) (hostSocketId room1) (serialize_all room1)
                      None);
          (ToRoomExcept (code room1) sid,
           PlayerJoined (serializePlayer player))])
  end.

Definition rejoin_room (rooms : Registry) (sid : string)
    (c nm cm : option string) : Registry * list Emit :=
  let key := normalize_code c in
  match JsMap.get key rooms with
  | None => (rooms, [(ToSocket sid, RejoinFailed "Room no longer exists.")])
  | Some room =>
      let player := new_player sid nm cm (getNextColor room) in
      let room1 := set_players room (JsMap.set sid player (players room)) in
      (JsMap.set key room1 rooms,
       [(ToSocket sid,
         RoomJoined (code room1) (hostSocketId room1) (serialize_all room1)
                    (Some (phase room1)));
        (ToRoomExcept (code room1) sid,
         PlayerJoined (serializePlayer player))])
  end.

(** [start-race]; [t1] and [t2] are the two readings of [Date.now()], the
    first stored in [raceStartedAt], the second used for [startTime]. *)
Definition start_race (rooms : Registry) (sid roomCode : string) (t1 t2 : Z)
  : Registry * list Emit :=
  match JsMap.get roomCode rooms with
  | None => (rooms, [])
  | Some room =>
      if negb (String.eqb (hostSocketId room) sid) then (rooms, [])
      else if negb (phase_eqb (phase room) Lobby) then (rooms, [])
      else if JsMap.size (players room) <? 1 then
        (rooms,
         [(ToSocket sid,
           StartError "Need at least 1 player to start the race.")])
      else
        let room1 := set_phase room Racing in
        let room2 := set_raceStartedAt room1 (Some t1) in
        let room3 := set_finishedCount room2 0 in
        let startTime := t2 + 3500 in
        let room4 := set_broadcastInterval room3 TArmed in
        let room5 := set_raceTimeout room4 TArmed in
        (JsMap.set roomCode room5 rooms,
         [(ToRoom roomCode, RaceStarted startTime)])
  end.

(** Lines 282-284 of the click handler: the accepted input. *)
Definition accept_click (player : Player) (now : Z) : Player :=
  let p1 := set_lastClickTime player now in
  let p2 := set_clickCount p1 (Z.min 100 (clickCount p1 + 1)) in
  set_progress p2 (clickCount p2).

Definition click (rooms : Registry) (sid roomCode : string) (now : Z)
  : Registry * list Emit :=
  match JsMap.get roomCode rooms with
  | None => (rooms, [])
  | Some room =>
      if negb (phase_eqb (phase room) Racing) then (rooms, [])
      else
        match JsMap.get sid (players room) with
        | None => (rooms, [])
        | Some player =>
            if (truthy_time (finishedAt player) || disconnected player)%bool
            then (rooms, [])
            else if now - lastClickTime player <? 50 then (rooms, [])
            else
              let player1 := accept_click player now in
              if ((100 <=? clickCount player1)
                  && negb (truthy_time (finishedAt player1)))%bool
              then
                let player2 := set_finishedAt player1 (Some now) in
                let fc := finishedCount room + 1 in
                let player3 := set_rank player2 (Some fc) in
                let room1 :=
                  set_players (set_finishedCount room fc)
                              (JsMap.set sid player3 (players room)) in
                let '(room2, ems) := checkAllFinished room1 roomCode in
                (JsMap.set roomCode room2 rooms,
                 (ToRoom roomCode,
                  PlayerFinished sid fc (now - num (raceStartedAt room1)))
                 :: ems)
              else
                (JsMap.set roomCode
                   (set_players room (JsMap.set sid player1 (players room)))
                   rooms, [])
        end
  end.

(** The loop body of [reset-room]. *)
Definition reset_player (p : Player) : Player :=
  mkPlayer (socketId p) (name p) (carModel p) (carColor p)
           0 0 0 None None false false.

Definition reset_room (rooms : Registry) (sid roomCode : string)
  : Registry * list Emit :=
  match JsMap.get roomCode rooms with
  | None => (rooms, [])
  | Some room =>
      if negb (String.eqb (hostSocketId room) sid) then (rooms, [])
      else
        let room1 :=
          set_broadcastInterval room (clearTimer (broadcastInterval room)) in
        let room2 := set_raceTimeout room1 (clearTimer (raceTimeout room1)) in
        let room3 := set_phase room2 Lobby in
        let room4 := set_raceStartedAt room3 None in
        let room5 := set_finishedCount room4 0 in
        let room6 :=
          set_players room5
            (map (fun e => (fst e, reset_player (snd e))) (players room5)) in
        (JsMap.set roomCode room6 rooms,
         [(ToRoom roomCode,
           RoomReset (serialize_all room6) (hostSocketId room6))])
  end.

(** ** Timers *)

(** One firing of the broadcast interval started for the room registered
    under [roomCode]. *)
Definition broadcast_tick (rooms : Registry) (roomCode : string)
  : Registry * list Emit :=
  match JsMap.get roomCode rooms with
  | None => (rooms, [])
  | Some room =>
      if armed (broadcastInterval room) then
        if negb (phase_eqb (phase room) Racing) then
          (JsMap.set roomCode
             (set_broadcastInterval room (clearTimer (broadcastInterval room)))
             rooms, [])
        else
          let updates :=
            map (fun p => (socketId p, progress p))
                (JsMap.values (players room)) in
          (rooms, [(ToRoom roomCode, ProgressUpdate updates)])
      else (rooms, [])
  end.

(** The firing of the five-minute race timeout of the room registered under
    [roomCode]; a timeout fires once. *)
Definition race_timeout (rooms : Registry) (roomCode : string)
  : Registry * list Emit :=
  match JsMap.get roomCode rooms with
  | None => (rooms, [])
  | Some room =>
      if armed (raceTimeout room) then
        let room1 := set_raceTimeout room TDead in
        if negb (phase_eqb (phase room1) Racing) then
          (JsMap.set roomCode room1 rooms, [])
        else
          let '(room2, ems) := endRace room1 roomCode in
          (JsMap.set roomCode room2 rooms, ems)
      else (rooms, [])
  end.

Definition TWO_HOURS : Z := 2 * 60 * 60 * 1000.

(** The TTL sweep: rooms older than two hours have their timers cleared and
    are deleted. *)
Definition ttl_sweep (rooms : Registry) (now : Z) : Registry :=
  filter (fun e => negb (TWO_HOURS <? now - createdAt (snd e))) rooms.

(** ** The server as a transition system *)

Inductive Event :=
| CreateRoom (sid : string) (nm cm : option string) (draws : list string)
             (now : Z)
| JoinRoom (sid : string) (c nm cm : option string)
| RejoinRoom (sid : string) (c nm cm : option string)
| StartRace (sid roomCode : string) (t1 t2 : Z)
| Click (sid roomCode : string) (now : Z)
| ResetRoom (sid roomCode : string)
| LeaveRoom (sid : string)
| Disconnect (sid : string)
| BroadcastTick (roomCode : string)
| RaceTimeoutFires (roomCode : string)
| TtlSweep (now : Z).

Definition step (rooms : Registry) (e : Event) : Registry * list Emit :=
  match e with
  | CreateRoom sid nm cm draws now => create_room rooms sid nm cm draws now
  | JoinRoom sid c nm cm => join_room rooms sid c nm cm
  | RejoinRoom sid c nm cm => rejoin_room rooms sid c nm cm
  | StartRace sid roomCode t1 t2 => start_race rooms sid roomCode t1 t2
  | Click sid roomCode now => click rooms sid roomCode now
  | ResetRoom sid roomCode => reset_room rooms sid roomCode
  | LeaveRoom sid => handleDisconnect rooms sid
  | Disconnect sid => handleDisconnect rooms sid
  | BroadcastTick roomCode => broadcast_tick rooms roomCode
  | RaceTimeoutFires roomCode => race_timeout rooms roomCode
  | TtlSweep now => (ttl_sweep rooms now, [])
  end.

(** Running a sequence of events, collecting the emissions in order. *)
Fixpoint run (rooms : Registry) (evs : list Event) : Registry * list Emit :=
  match evs with
  | [] => (rooms, [])
  | e :: evs' =>
      let '(rooms1, ems1) := step rooms e in
      let '(rooms2, ems2) := run rooms1 evs' in
      (rooms2, (ems1 ++ ems2)%list)
  end.

(** A code returned by [nanoid]: six characters of the alphabet. *)
Fixpoint in_alphabet (c : ascii) (alphabet : string) : bool :=
  match alphabet with
  | EmptyString => false
  | String a rest => (Ascii.eqb c a || in_alphabet c rest)%bool
  end.

Fixpoint all_in_alphabet (s : string) : bool :=
  match s with
  | EmptyString => true
  | String c s' => (in_alphabet c NANOID_ALPHABET && all_in_alphabet s')%bool
  end.

Definition is_nanoid_code (s : string) : bool :=
  (Nat.eqb (String.length s) 6 && all_in_alphabet s)%bool.

(** Events the server can receive: the values drawn by [generateRoomCode]
    are outputs of [nanoid]. *)
Definition wf_event (e : Event) : Prop :=
  match e with
  | CreateRoom _ _ _ draws _ => forallb is_nanoid_code draws = true
  | _ => True
  end.

Inductive reachable : Registry -> Prop :=
| reach_init : reachable []
| reach_step rooms e :
    reachable rooms -> wf_event e -> reachable (fst (step rooms e)).

(** * Predicates and scenarios used in the statements *)

(** The order a comparator induces: [x] may stand before [y]. *)
Definition le_cmp {A : Type} (cmp : A -> A -> Z) (x y : A) : Prop :=
  cmp x y <= 0.

(** The unfinished players, sorted and ranked, as [buildResultsArray]
    computes them. *)
Definition finished_sorted (ps : JsMap.t Player) : list Entry :=
  js_sort by_rank (filter is_finished ps).
Definition unfinished_ranked (ps : JsMap.t Player) : list Entry :=
  assign_ranks (Z.of_nat (List.length (finished_sorted ps)))
    (js_sort by_progress_desc (filter (fun e => negb (is_finished e)) ps)).

Definition player_ok (p : Player) : Prop :=
  progress p = clickCount p
  /\ 0 <= clickCount p <= 100
  /\ 0 <= lastClickTime p
  /\ (truthy_time (finishedAt p) = true <-> clickCount p = 100).

Definition timers_ok (r : Room) : Prop :=
  (broadcastInterval r = TArmed <-> phase r = Racing)
  /\ (raceTimeout r = TArmed <-> phase r = Racing).

Definition players_ok (ps : JsMap.t Player) : Prop :=
  NoDup (JsMap.keys ps) /\ Forall (fun e => player_ok (snd e)) ps.

Definition room_ok (r : Room) : Prop := players_ok (players r) /\ timers_ok r.

Definition entry_ok (e : string * Room) : Prop :=
  code (snd e) = fst e /\ toUpperCase (fst e) = fst e /\ room_ok (snd e).

Definition Inv (rooms : Registry) : Prop :=
  NoDup (JsMap.keys rooms) /\ Forall entry_ok rooms.

Definition is_click (e : Event) : Prop :=
  match e with Click _ _ _ => True | _ => False end.

(** A room created by socket [a] under code [ABCDEF] and started by its
    host at time 1000, with a second player [b]. *)
Definition race_of_two_events : list Event :=
  [ CreateRoom "a" (Some "Ann") (Some "cla") ["ABCDEF"] 0;
    JoinRoom "b" (Some "abcdef") (Some "Bob") None;
    StartRace "a" "ABCDEF" 1000 1000 ].

Definition race_of_two : Registry :=
  Eval vm_compute in fst (run [] race_of_two_events).

Definition is_race_finished (em : Emit) : bool :=
  match snd em with RaceFinished _ => true | _ => false end.

(** The race of two after [b] has dropped: [a] is the last active player. *)
Definition race_b_gone : Registry :=
  Eval vm_compute in fst (step race_of_two (Disconnect "b")).



(** The race-specific fields of a player at their defaults. *)
Definition race_fields_default (p : Player) : Prop :=
  progress p = 0 /\ clickCount p = 0 /\ lastClickTime p = 0
  /\ finishedAt p = None /\ rank p = None
  /\ dnf p = false /\ disconnected p = false.

(** A lobby of two: room [ABCDEF] created by [a], joined by [b]. *)
Definition lobby_of_two_events : list Event :=
  [ CreateRoom "a" (Some "Ann") (Some "cla") ["ABCDEF"] 0;
    JoinRoom "b" (Some "abcdef") (Some "Bob") None ].

Definition lobby_of_two : Registry :=
  Eval vm_compute in fst (run [] lobby_of_two_events).

(** [in_room rooms sid k]: the connection [sid] is a player key of the room
    registered under [k]. *)
Definition in_room (rooms : Registry) (sid k : string) : Prop :=
  exists room,
    JsMap.get k rooms = Some room /\ In sid (JsMap.keys (players room)).

Definition single_room (rooms : Registry) : Prop :=
  forall sid k1 k2, in_room rooms sid k1 -> in_room rooms sid k2 -> k1 = k2.

(** [enters rooms e sid k]: the message [e] asks to put [sid] into the room
    with code [k]. *)
Definition enters (rooms : Registry) (e : Event) (sid k : string) : Prop :=
  match e with
  | CreateRoom s _ _ draws _ =>
      s = sid /\ generateRoomCode rooms draws = Some k
  | JoinRoom s c _ _ | RejoinRoom s c _ _ => s = sid /\ normalize_code c = k
  | _ => False
  end.

(** A message is sent by a connection that is in no other room than the one
    it asks to enter. *)
Definition polite (rooms : Registry) (e : Event) : Prop :=
  forall sid k, enters rooms e sid k ->
  forall k', in_room rooms sid k' -> k' = k.

Fixpoint polite_run (rooms : Registry) (evs : list Event) : Prop :=
  match evs with
  | [] => True
  | e :: evs' =>
      wf_event e /\ polite rooms e /\ polite_run (fst (step rooms e)) evs'
  end.

(** The same connection creates two rooms in a row. *)
Definition two_rooms_events : list Event :=
  [ CreateRoom "h" (Some "Ann") (Some "cla") ["ABCDEF"] 0;
    CreateRoom "h" (Some "Ann") (Some "cla") ["ABCDEG"] 1 ].

Definition two_rooms_one_socket : Registry :=
  Eval vm_compute in fst (run [] two_rooms_events).

(** [n] clicks of [sid] in room [c], 50 ms apart, the first one 50 ms
    after [start]. *)
Definition clicks (sid c : string) (start : Z) (n : nat) : list Event :=
  map (fun i => Click sid c (start + 50 * Z.of_nat (S i))) (seq 0 n).

(** [a] finishes first, sends [rejoin-room] on the same connection, races
    to the finish again, and the race timeout fires while [b] is still on
    the track. *)
Definition finish_rejoin_finish : list Event :=
  [ CreateRoom "a" (Some "Ann") (Some "cla") ["ABCDEF"] 0;
    JoinRoom "b" (Some "ABCDEF") (Some "Bob") None;
    StartRace "a" "ABCDEF" 1000 1000 ]
  ++ clicks "a" "ABCDEF" 1000 100
  ++ [ RejoinRoom "a" (Some "ABCDEF") (Some "Ann") (Some "cla") ]
  ++ clicks "a" "ABCDEF" 7000 100
  ++ [ RaceTimeoutFires "ABCDEF" ].

(** The race of two ended by the race timeout. *)
Definition finished_race_of_two : Registry :=
  Eval vm_compute in fst (step race_of_two (RaceTimeoutFires "ABCDEF")).

Definition is_countdown (em : Emit) : bool :=
  match snd em with FirstFinisherCountdown _ => true | _ => false end.

(** The race of two after 99 accepted clicks of [a]. *)
Definition one_click_to_go : Registry :=
  Eval vm_compute in fst (run race_of_two (clicks "a" "ABCDEF" 1000 99)).

(** The same race after [b] has dropped as well: [a], one click from the
    line, is the only player still connected. *)
Definition one_click_to_go_alone : Registry :=
  Eval vm_compute in fst (step one_click_to_go (Disconnect "b")).

(** ** Further predicates on players and rooms *)

(** No character of the string is one that [sanitize] removes. *)
Fixpoint no_markup (s : string) : bool :=
  match s with
  | EmptyString => true
  | String c s' => (negb (is_markup c) && no_markup s')%bool
  end.

(** A display name as the handlers store it. *)
Definition name_ok (s : string) : Prop :=
  s <> "" /\ (String.length s <= 20)%nat /\ no_markup s = true.

(** The identity fields of the player stored under key [k]. *)
Definition identity_ok (k : string) (p : Player) : Prop :=
  socketId p = k /\ name_ok (name p)
  /\ In (carModel p) CAR_MODELS /\ In (carColor p) COLOR_PALETTE.

(** The ranks given at the finish line: every finished player has a rank
    between 1 and [fc], and no two finished players share one. *)
Definition finish_ranks_ok (fc : Z) (ps : JsMap.t Player) : Prop :=
  (forall k p, In (k, p) ps -> truthy_time (finishedAt p) = true ->
     exists r, rank p = Some r /\ 1 <= r <= fc)
  /\ (forall k1 p1 k2 p2,
        In (k1, p1) ps -> In (k2, p2) ps ->
        truthy_time (finishedAt p1) = true ->
        truthy_time (finishedAt p2) = true ->
        rank p1 = rank p2 -> k1 = k2).

Definition room_sound (r : Room) : Prop :=
  players r <> []
  /\ 0 <= finishedCount r
  /\ (phase r = Lobby ->
      Forall (fun e => race_fields_default (snd e)) (players r))
  /\ finish_ranks_ok (finishedCount r) (players r)
  /\ Forall (fun e => identity_ok (fst e) (snd e)) (players r).

Definition entry_sound (e : string * Room) : Prop :=
  is_nanoid_code (fst e) = true /\ room_sound (snd e).

Definition Sound (rooms : Registry) : Prop := Forall entry_sound rooms.

(** A room in the lobby carries no trace of a race: no start instant and no
    finisher counted. *)
Definition lobby_idle (r : Room) : Prop :=
  phase r = Lobby -> raceStartedAt r = None /\ finishedCount r = 0.

Definition Idle (rooms : Registry) : Prop :=
  Forall (fun e => lobby_idle (snd e)) rooms.

(** Messages that can put a departed player of the room registered under
    [key] back on the track there: a [rejoin-room] of that connection for
    the room, a [reset-room] for the room, and a [create-room] whose draws
    include the room's code. *)
Definition revives (sid key : string) (e : Event) : bool :=
  match e with
  | RejoinRoom s c _ _ =>
      (String.eqb s sid && String.eqb (normalize_code c) key)%bool
  | ResetRoom _ c => String.eqb c key
  | CreateRoom _ _ _ draws _ => mem_string key draws
  | _ => false
  end.

(** The connection [sid] cannot race in the room registered under [key]:
    there is no such room, or the room is not in the lobby and its record
    of [sid], if it has one, is marked disconnected. *)
Definition sidelined (rooms : Registry) (sid key : string) : Prop :=
  forall room,
    JsMap.get key rooms = Some room ->
    phase room <> Lobby
    /\ forall p,
         JsMap.get sid (players room) = Some p -> disconnected p = true.

(** The room a message is about: the one whose code it carries, or the
    first room the sender is found in for [leave-room] and [disconnect]. *)
Definition addressed (rooms : Registry) (e : Event) : option string :=
  match e with
  | StartRace _ c _ _ | Click _ c _ | ResetRoom _ c
  | BroadcastTick c | RaceTimeoutFires c => Some c
  | JoinRoom _ c _ _ | RejoinRoom _ c _ _ => Some (normalize_code c)
  | LeaveRoom sid | Disconnect sid =>
      match findRoomBySocket rooms sid with
      | Some (key, _) => Some key
      | None => None
      end
  | CreateRoom _ _ _ _ _ | TtlSweep _ => None
  end.

(** A racing room of three at the moment the race is ended: [b] has
    finished first, [a] and the disconnected [c] are still on the track. *)
Definition room_of_three : Room :=
  mkRoom "ABCDEF" "a" Racing
    [ ("a", mkPlayer "a" "Ann" "cla" "#C0C0C0" 40 40 3000
                     None None false false);
      ("b", mkPlayer "b" "Bob" "cla" "#CC0000" 100 100 4000
                     (Some 4000) (Some 1) false false);
      ("c", mkPlayer "c" "Cy" "cla" "#1E3A8A" 70 70 3500
                     None None false true) ]
    0 (Some 1000) 1 TArmed TArmed.

(** ** The client's key handler (src/public/game.js)

    The part of the client state that decides which key presses become
    [click] messages.  Updates of the page (car position, counters, button
    classes) are not modelled: they do not feed back into the state. *)

Inductive Key := KeyA | KeyB.

Definition key_eqb (a b : Key) : bool :=
  match a, b with
  | KeyA, KeyA | KeyB, KeyB => true
  | _, _ => false
  end.

Inductive ClientPhase := CIdle | CLobby | CCountdown | CRacing | CFinished.

Record Client := mkClient {
  c_roomCode : option string;
  c_phase : ClientPhase;
  c_raceStartTime : option Z;
  c_clickCount : Z;
  c_lastClickSent : Z;
  c_nextKey : Key;
  c_myFinished : bool
}.

Definition CLICKS_TO_FINISH : Z := 100.
Definition CLICK_THROTTLE_MS : Z := 50.

(** Messages the client sends from the race screen. *)
Inductive ClientEmit := EmitClick (roomCode : option string).

(** The state changes of the [race-started] handler, up to the call of
    [startCountdown], which enters the countdown phase. *)
Definition on_race_started (st : Client) (startTime : Z) : Client :=
  mkClient (c_roomCode st) CCountdown (Some startTime) 0 0 KeyA false.

(** The end of the countdown: the phase becomes racing and
    [setActiveKey('a')] expects the key A. *)
Definition countdown_done (st : Client) : Client :=
  mkClient (c_roomCode st) CRacing (c_raceStartTime st) (c_clickCount st)
           (c_lastClickSent st) KeyA (c_myFinished st).

Definition other_key (k : Key) : Key :=
  match k with KeyA => KeyB | KeyB => KeyA end.

(** [handleKeyPress(key)] at clock reading [now]. *)
Definition handleKeyPress (st : Client) (key : Key) (now : Z)
  : Client * list ClientEmit :=
  match c_phase st with
  | CRacing =>
      if c_myFinished st then (st, [])
      else if now - c_lastClickSent st <? CLICK_THROTTLE_MS then (st, [])
      else if negb (key_eqb key (c_nextKey st)) then (st, [])
      else
        let count := c_clickCount st + 1 in
        let finished :=
          if CLICKS_TO_FINISH <=? count then true else c_myFinished st in
        (mkClient (c_roomCode st) (c_phase st) (c_raceStartTime st) count now
                  (other_key key) finished,
         [EmitClick (c_roomCode st)])
  | _ => (st, [])
  end.

(** A sequence of key presses, each with the clock reading at which it is
    handled; the result carries the presses that were turned into a
    [click], in order. *)
Fixpoint press_all (st : Client) (presses : list (Key * Z))
  : Client * list (Key * Z) :=
  match presses with
  | [] => (st, [])
  | (key, now) :: rest =>
      let '(st1, ems) := handleKeyPress st key now in
      let '(st2, sent) := press_all st1 rest in
      (st2, match ems with
            | [] => sent
            | _ :: _ => (key, now) :: sent
            end)
  end.

(** The presses alternate between the two keys, starting with [next], and
    each one comes at least 50 ms after the one before (after [prev] for
    the first). *)
Fixpoint paced (prev : Z) (next : Key) (sent : list (Key * Z)) : Prop :=
  match sent with
  | [] => True
  | (k, t) :: rest =>
      k = next /\ 50 <= t - prev /\ paced t (other_key k) rest
  end.

(** The [click] messages of the presses a client sent, each handled by the
    server at the clock reading at which it was sent. *)
Definition clicks_of (sid c : string) (sent : list (Key * Z)) : list Event :=
  map (fun kt => Click sid c (snd kt)) sent.

(** A [click] of connection [sid] for room [c]. *)
Definition is_click_of (sid c : string) (e : Event) : bool :=
  match e with
  | Click s code _ => (String.eqb s sid && String.eqb code c)%bool
  | _ => false
  end.

(** Messages and timer firings that break off the race of connection [sid]
    in room [c], created at [created]: a [rejoin-room] of the connection for
    the room (which replaces its record), a [reset-room] for the room, a
    [leave-room] or [disconnect] of the connection, the firing of the
    room's race timeout, and a TTL sweep that finds the room older than two
    hours. *)
Definition disturbs (sid c : string) (created : Z) (e : Event) : bool :=
  match e with
  | RejoinRoom s code _ _ =>
      (String.eqb s sid && String.eqb (normalize_code code) c)%bool
  | ResetRoom _ code => String.eqb code c
  | LeaveRoom s | Disconnect s => String.eqb s sid
  | RaceTimeoutFires code => String.eqb code c
  | TtlSweep now => TWO_HOURS <? now - created
  | _ => false
  end.

(** The player [sid] is on the track in room [c], created at [created],
    with [n] clicks counted, the last one accepted at [t]: the record is
    connected and stamped finished exactly when [n] has reached 100, and the
    room, never in the lobby, is racing as long as it has not. *)
Definition on_track (rooms : Registry) (c sid : string) (created n t : Z)
  : Prop :=
  exists room p,
    JsMap.get c rooms = Some room
    /\ createdAt room = created
    /\ phase room <> Lobby
    /\ JsMap.get sid (players room) = Some p
    /\ clickCount p = n
    /\ progress p = n
    /\ lastClickTime p = t
    /\ disconnected p = false
    /\ (truthy_time (finishedAt p) = true <-> 100 <= n)
    /\ (n < 100 -> phase room = Racing).

(** * Properties *)

(** ** Lemmas on [JsMap] *)

Module JsMapFacts.
Import JsMap.
Section WithValue.
Context {V : Type}.
Implicit Types (m : JsMap.t V) (k : string) (v : V).

Lemma get_set_eq k v m : get k (set k v m) = Some v.
Proof.
  induction m as [|[k' v'] m IH]; simpl.
  - now rewrite String.eqb_refl.
  - destruct (String.eqb k k') eqn:E; simpl.
    + now rewrite String.eqb_refl.
    + now rewrite E.
Qed.

Lemma get_set_neq k k' v m : k <> k' -> get k' (set k v m) = get k' m.
Proof.
  intros Hne. induction m as [|[k0 v0] m IH]; simpl.
  - destruct (String.eqb k' k) eqn:E; [|reflexivity].
    apply String.eqb_eq in E. congruence.
  - destruct (String.eqb k k0) eqn:E; simpl.
    + apply String.eqb_eq in E. subst k0.
      destruct (String.eqb k' k) eqn:E'; [|reflexivity].
      apply String.eqb_eq in E'. congruence.
    + now rewrite IH.
Qed.

Lemma get_In k v m : get k m = Some v -> In (k, v) m.
Proof.
  induction m as [|[k' v'] m IH]; simpl; [discriminate|].
  destruct (String.eqb k k') eqn:E.
  - apply String.eqb_eq in E. intros [= ->]. subst. now left.
  - intros H. right. auto.
Qed.

Lemma get_None_keys k m : get k m = None -> ~ In k (keys m).
Proof.
  induction m as [|[k' v'] m IH]; simpl; [tauto|].
  destruct (String.eqb k k') eqn:E; [discriminate|].
  apply String.eqb_neq in E. intros H [Heq|Hin]; [congruence|].
  now apply IH.
Qed.

Lemma keys_get k m : In k (keys m) -> exists v, get k m = Some v.
Proof.
  destruct (get k m) eqn:E; [eauto|].
  intros H. now apply get_None_keys in E.
Qed.

Lemma get_keys k v m : get k m = Some v -> In k (keys m).
Proof.
  intros H. apply get_In in H. unfold keys.
  change k with (fst (k, v)). now apply in_map.
Qed.

Lemma In_get k v m : NoDup (keys m) -> In (k, v) m -> get k m = Some v.
Proof.
  induction m as [|[k' v'] m IH]; simpl; [tauto|].
  intros Hnd [Heq|Hin].
  - inversion Heq; subst. now rewrite String.eqb_refl.
  - inversion Hnd as [|? ? Hnotin Hnd']; subst.
    destruct (String.eqb k k') eqn:E.
    + apply String.eqb_eq in E. subst k'. exfalso. apply Hnotin.
      change k with (fst (k, v)). now apply in_map.
    + auto.
Qed.

Lemma has_true k m : has k m = true <-> In k (keys m).
Proof.
  unfold has. split.
  - destruct (get k m) eqn:E; [|discriminate]. intros _.
    eapply get_keys; eauto.
  - intros H. apply keys_get in H as [v ->]. reflexivity.
Qed.

Lemma In_set k v m e : In e (set k v m) -> e = (k, v) \/ In e m.
Proof.
  induction m as [|[k' v'] m IH]; simpl.
  - intros [H|[]]; auto.
  - destruct (String.eqb k k'); simpl; intros [H|H]; auto.
    apply IH in H. tauto.
Qed.

Lemma In_delete k m e : In e (delete k m) -> In e m.
Proof.
  induction m as [|[k' v'] m IH]; simpl; [tauto|].
  destruct (String.eqb k k'); simpl; [auto|]. intros [H|H]; auto.
Qed.

Lemma Forall_set (P : string * V -> Prop) k v m :
  Forall P m -> P (k, v) -> Forall P (set k v m).
Proof.
  intros Hm Hp. apply Forall_forall. intros e He.
  apply In_set in He as [->|He]; [assumption|].
  now apply (proj1 (Forall_forall P m) Hm).
Qed.

Lemma Forall_delete (P : string * V -> Prop) k m :
  Forall P m -> Forall P (delete k m).
Proof.
  intros Hm. apply Forall_forall. intros e He.
  apply In_delete in He. now apply (proj1 (Forall_forall P m) Hm).
Qed.

Lemma keys_set_in k v m : In k (keys m) -> keys (set k v m) = keys m.
Proof.
  induction m as [|[k' v'] m IH]; simpl; [tauto|].
  destruct (String.eqb k k') eqn:E; simpl.
  - apply String.eqb_eq in E. now subst.
  - apply String.eqb_neq in E. intros [H|H]; [congruence|].
    now rewrite IH.
Qed.

Lemma keys_set_notin k v m :
  ~ In k (keys m) -> keys (set k v m) = (keys m ++ [k])%list.
Proof.
  induction m as [|[k' v'] m IH]; simpl; [reflexivity|].
  destruct (String.eqb k k') eqn:E; simpl.
  - apply String.eqb_eq in E. subst. tauto.
  - intros H. rewrite IH; tauto.
Qed.

Lemma In_keys_set k k' v m :
  In k' (keys (set k v m)) <-> k' = k \/ In k' (keys m).
Proof.
  destruct (in_dec string_dec k (keys m)) as [Hin|Hnotin].
  - rewrite keys_set_in by assumption. split; [tauto|].
    intros [->|H]; assumption.
  - rewrite keys_set_notin by assumption. rewrite in_app_iff. simpl.
    split; intros H; intuition congruence.
Qed.

Lemma NoDup_keys_set k v m : NoDup (keys m) -> NoDup (keys (set k v m)).
Proof.
  intros Hnd. destruct (in_dec string_dec k (keys m)) as [Hin|Hnotin].
  - now rewrite keys_set_in.
  - rewrite keys_set_notin by assumption.
    apply NoDup_app; [assumption|repeat constructor; simpl; tauto|].
    intros x Hx [<-|[]]. contradiction.
Qed.

Lemma In_keys_delete k k' m : In k' (keys (delete k m)) -> In k' (keys m).
Proof.
  induction m as [|[k0 v0] m IH]; simpl; [tauto|].
  destruct (String.eqb k k0); simpl; [auto|]. intros [H|H]; auto.
Qed.

Lemma NoDup_keys_delete k m : NoDup (keys m) -> NoDup (keys (delete k m)).
Proof.
  induction m as [|[k0 v0] m IH]; simpl; [auto|].
  intros Hnd. inversion Hnd as [|? ? Hnotin Hnd']; subst.
  destruct (String.eqb k k0); simpl; [assumption|].
  constructor; [|auto]. intros H. apply Hnotin.
  now apply In_keys_delete in H.
Qed.

Lemma get_delete_eq k m : NoDup (keys m) -> get k (delete k m) = None.
Proof.
  induction m as [|[k0 v0] m IH]; simpl; [reflexivity|].
  intros Hnd. inversion Hnd as [|? ? Hnotin Hnd']; subst.
  destruct (String.eqb k k0) eqn:E; simpl.
  - apply String.eqb_eq in E. subst k0.
    destruct (get k m) eqn:G; [|reflexivity].
    apply get_keys in G. contradiction.
  - rewrite E. auto.
Qed.

Lemma get_delete_neq k k' m : k <> k' -> get k' (delete k m) = get k' m.
Proof.
  intros Hne. induction m as [|[k0 v0] m IH]; simpl; [reflexivity|].
  destruct (String.eqb k k0) eqn:E; simpl.
  - apply String.eqb_eq in E. subst k0.
    destruct (String.eqb k' k) eqn:E'; [|reflexivity].
    apply String.eqb_eq in E'. congruence.
  - now rewrite IH.
Qed.

Lemma get_filter_Some (f : string * V -> bool) k v m :
  get k (filter f m) = Some v -> In (k, v) m.
Proof.
  intros H. apply get_In in H. apply filter_In in H. tauto.
Qed.

Lemma NoDup_keys_filter (f : string * V -> bool) m :
  NoDup (keys m) -> NoDup (keys (filter f m)).
Proof.
  induction m as [|[k0 v0] m IH]; simpl; [auto|].
  intros Hnd. inversion Hnd as [|? ? Hnotin Hnd']; subst.
  destruct (f (k0, v0)); simpl; [|auto].
  constructor; [|auto]. intros H. apply Hnotin.
  unfold keys in *. apply in_map_iff in H as [e [He Hin]].
  apply filter_In in Hin as [Hin _]. apply in_map_iff. eauto.
Qed.

Lemma size_pos_iff m : (0 <? size m) = true <-> m <> [].
Proof.
  unfold size. destruct m as [|e m]; simpl List.length.
  - split; [discriminate|congruence].
  - split; [congruence|]. intros _. apply Z.ltb_lt. lia.
Qed.

Lemma size_zero_iff m : (size m =? 0) = true <-> m = [].
Proof.
  unfold size. destruct m as [|e m]; simpl List.length.
  - split; reflexivity.
  - split; [|discriminate]. intros H. apply Z.eqb_eq in H. lia.
Qed.
End WithValue.
End JsMapFacts.

(** ** The stable sort *)

Section SortFacts.
Context {A : Type} (cmp : A -> A -> Z).

Lemma insert_sorted_perm x l : Permutation (insert_sorted cmp x l) (x :: l).
Proof.
  induction l as [|y l IH]; simpl; [reflexivity|].
  destruct (cmp x y <=? 0); [reflexivity|].
  rewrite IH. apply perm_swap.
Qed.

Lemma js_sort_perm l : Permutation (js_sort cmp l) l.
Proof.
  induction l as [|x l IH]; simpl; [reflexivity|].
  rewrite insert_sorted_perm. now constructor.
Qed.

Lemma js_sort_In x l : In x (js_sort cmp l) <-> In x l.
Proof.
  split; apply Permutation_in; [|symmetry]; apply js_sort_perm.
Qed.


(** Sortedness, for a comparator that is a total preorder. *)
Hypothesis cmp_total : forall x y, 0 < cmp x y -> cmp y x <= 0.
Hypothesis cmp_trans : forall x y z, cmp x y <= 0 -> cmp y z <= 0 -> cmp x z <= 0.

Lemma insert_sorted_sorted x l :
  StronglySorted (le_cmp cmp) l ->
  StronglySorted (le_cmp cmp) (insert_sorted cmp x l).
Proof.
  induction l as [|y l IH]; simpl; intros Hs.
  - repeat constructor.
  - inversion Hs as [|? ? Hs' Hall]; subst.
    destruct (cmp x y <=? 0) eqn:E.
    + apply Z.leb_le in E. constructor; [assumption|].
      constructor; [assumption|].
      eapply Forall_impl; [|exact Hall]. intros z Hz.
      unfold le_cmp in *. eauto.
    + apply Z.leb_gt in E. constructor; [auto|].
      eapply Permutation_Forall.
      * symmetry. apply insert_sorted_perm.
      * constructor; [|assumption]. unfold le_cmp. apply cmp_total. lia.
Qed.

Lemma js_sort_sorted l : StronglySorted (le_cmp cmp) (js_sort cmp l).
Proof.
  induction l as [|x l IH]; simpl; [constructor|].
  now apply insert_sorted_sorted.
Qed.
End SortFacts.

Lemma filter_split_perm {A : Type} (f : A -> bool) (l : list A) :
  Permutation (filter f l ++ filter (fun x => negb (f x)) l) l.
Proof.
  induction l as [|x l IH]; simpl; [reflexivity|].
  destruct (f x); simpl.
  - now constructor.
  - rewrite <- Permutation_middle. now constructor.
Qed.

(** ** Final standings *)

Lemma assign_ranks_keys rk l :
  JsMap.keys (assign_ranks rk l) = JsMap.keys l.
Proof.
  revert rk. induction l as [|[k p] l IH]; intros rk; simpl; [reflexivity|].
  now rewrite IH.
Qed.

Lemma assign_ranks_length rk l :
  List.length (assign_ranks rk l) = List.length l.
Proof.
  revert rk. induction l as [|[k p] l IH]; intros rk; simpl; [reflexivity|].
  now rewrite IH.
Qed.

Lemma assign_ranks_rank rk l :
  map (fun e => rank (snd e)) (assign_ranks rk l)
  = map (fun i => Some (rk + Z.of_nat i)) (seq 1 (List.length l)).
Proof.
  revert rk. induction l as [|[k p] l IH]; intros rk; simpl; [reflexivity|].
  f_equal.
  rewrite IH. rewrite <- (seq_shift (List.length l) 1), map_map.
  apply map_ext. intros i. f_equal. lia.
Qed.

Lemma assign_ranks_progress rk l :
  map (fun e => progress (snd e)) (assign_ranks rk l)
  = map (fun e => progress (snd e)) l.
Proof.
  revert rk. induction l as [|[k p] l IH]; intros rk; simpl; [reflexivity|].
  now rewrite IH.
Qed.

(** Every ranked entry is an entry of the input with [rank] and [dnf]
    assigned, and nothing else changed. *)
Lemma assign_ranks_In rk l e :
  In e (assign_ranks rk l) ->
  exists p r, In (fst e, p) l /\ snd e = set_dnf (set_rank p (Some r)) true.
Proof.
  revert rk. induction l as [|[k p] l IH]; intros rk; simpl; [tauto|].
  intros [<-|H].
  - exists p, (rk + 1). simpl. auto.
  - apply IH in H as (p' & r & Hin & Heq). eauto.
Qed.

Lemma write_back_keys ranked m :
  JsMap.keys (write_back ranked m) = JsMap.keys m.
Proof.
  unfold write_back, JsMap.keys. rewrite map_map. apply map_ext.
  intros e. now destruct (JsMap.get (fst e) ranked).
Qed.

Lemma write_back_length ranked m :
  List.length (write_back ranked m) = List.length m.
Proof. unfold write_back. apply length_map. Qed.

Lemma write_back_get ranked m k :
  JsMap.get k (write_back ranked m)
  = match JsMap.get k m with
    | None => None
    | Some p => match JsMap.get k ranked with
                | Some p' => Some p'
                | None => Some p
                end
    end.
Proof.
  induction m as [|[k' p'] m IH]; simpl; [reflexivity|].
  destruct (JsMap.get k' ranked) eqn:G; simpl;
    destruct (String.eqb k k') eqn:E; auto.
  - apply String.eqb_eq in E. subst. now rewrite G.
  - apply String.eqb_eq in E. subst. now rewrite G.
Qed.

Lemma write_back_In ranked m e :
  In e (write_back ranked m) ->
  In e ranked \/ (In e m /\ JsMap.get (fst e) ranked = None).
Proof.
  unfold write_back. intros H. apply in_map_iff in H as [e0 [Heq Hin]].
  destruct (JsMap.get (fst e0) ranked) eqn:G.
  - left. subst e. now apply JsMapFacts.get_In.
  - right. subst e. auto.
Qed.

Lemma buildResultsArray_eq room :
  buildResultsArray room
  = (set_players room (write_back (unfinished_ranked (players room))
                                  (players room)),
     map (fun e => serializePlayer (snd e))
         (finished_sorted (players room)
          ++ unfinished_ranked (players room))).
Proof. reflexivity. Qed.

Lemma unfinished_ranked_keys ps :
  Permutation (JsMap.keys (unfinished_ranked ps))
              (JsMap.keys (filter (fun e => negb (is_finished e)) ps)).
Proof.
  unfold unfinished_ranked. rewrite assign_ranks_keys.
  unfold JsMap.keys. apply Permutation_map, js_sort_perm.
Qed.

Lemma results_keys_perm ps :
  Permutation (JsMap.keys (finished_sorted ps ++ unfinished_ranked ps))
              (JsMap.keys ps).
Proof.
  unfold JsMap.keys. rewrite map_app.
  transitivity (map fst (filter is_finished ps)
                ++ map fst (filter (fun e => negb (is_finished e)) ps)).
  - apply Permutation_app.
    + apply Permutation_map, js_sort_perm.
    + apply unfinished_ranked_keys.
  - rewrite <- map_app. apply Permutation_map, filter_split_perm.
Qed.

(** The standings emitted are exactly the players of the room after the
    ranks were written, in the order finished first, then unfinished. *)
Lemma results_entries_perm ps :
  NoDup (JsMap.keys ps) ->
  Permutation (finished_sorted ps ++ unfinished_ranked ps)
              (write_back (unfinished_ranked ps) ps).
Proof.
  intros Hnd.
  assert (Hndr : NoDup (JsMap.keys (finished_sorted ps ++ unfinished_ranked ps))).
  { eapply Permutation_NoDup; [symmetry; apply results_keys_perm|assumption]. }
  assert (Hndu : NoDup (JsMap.keys (unfinished_ranked ps))).
  { unfold JsMap.keys in *. rewrite map_app in Hndr.
    now apply NoDup_app_remove_l in Hndr. }
  assert (Hkeys : forall k, In k (JsMap.keys (unfinished_ranked ps)) <->
            exists p, In (k, p) ps /\ is_finished (k, p) = false).
  { intros k. split.
    - intros H. eapply Permutation_in in H; [|apply unfinished_ranked_keys].
      apply in_map_iff in H as [[k' p] [Hk Hin]]. simpl in Hk. subst k'.
      apply filter_In in Hin as [Hin Hf]. exists p. split; [assumption|].
      now apply negb_true_iff in Hf.
    - intros [p [Hin Hf]].
      eapply Permutation_in; [symmetry; apply unfinished_ranked_keys|].
      apply in_map_iff. exists (k, p). split; [reflexivity|].
      apply filter_In. split; [assumption|]. now rewrite Hf. }
  apply NoDup_Permutation.
  - apply (NoDup_map_inv fst). exact Hndr.
  - apply (NoDup_map_inv fst).
    change (NoDup (JsMap.keys (write_back (unfinished_ranked ps) ps))).
    now rewrite write_back_keys.
  - intros [k p]. rewrite in_app_iff. split.
    + intros [Hfin|Hrk].
      * apply js_sort_In in Hfin. apply filter_In in Hfin as [Hin Hf].
        unfold write_back. apply in_map_iff. exists (k, p). simpl.
        split; [|assumption].
        destruct (JsMap.get k (unfinished_ranked ps)) eqn:G; [|reflexivity].
        apply JsMapFacts.get_keys in G. apply Hkeys in G as [p' [Hin' Hf']].
        assert (p' = p).
        { apply (JsMapFacts.In_get _ _ _ Hnd) in Hin.
          apply (JsMapFacts.In_get _ _ _ Hnd) in Hin'. congruence. }
        subst p'. congruence.
      * assert (Hk : In k (JsMap.keys (unfinished_ranked ps))).
        { change k with (fst (k, p)). now apply in_map. }
        apply Hkeys in Hk as [p0 [Hin0 _]].
        unfold write_back. apply in_map_iff. exists (k, p0). simpl.
        split; [|assumption].
        now rewrite (JsMapFacts.In_get _ _ _ Hndu Hrk).
    + intros H. apply write_back_In in H as [H|[Hin Hnone]]; [now right|].
      left. apply js_sort_In. apply filter_In. split; [assumption|].
      simpl in Hnone. destruct (is_finished (k, p)) eqn:Hf; [reflexivity|].
      exfalso. apply JsMapFacts.get_None_keys in Hnone. apply Hnone.
      apply Hkeys. eauto.
Qed.

(** ** Invariants of the reachable registries *)

Lemma Inv_In rooms k r : Inv rooms -> In (k, r) rooms -> entry_ok (k, r).
Proof. intros [_ H] Hin. now apply (proj1 (Forall_forall _ _) H). Qed.

Lemma Inv_get rooms k r :
  Inv rooms -> JsMap.get k rooms = Some r -> entry_ok (k, r).
Proof. intros H G. eapply Inv_In; eauto using JsMapFacts.get_In. Qed.

Lemma Inv_set rooms k r :
  Inv rooms -> entry_ok (k, r) -> Inv (JsMap.set k r rooms).
Proof.
  intros [Hnd Hall] He. split.
  - now apply JsMapFacts.NoDup_keys_set.
  - now apply JsMapFacts.Forall_set.
Qed.

Lemma Inv_update rooms k r r' :
  Inv rooms -> In (k, r) rooms -> code r' = code r -> room_ok r' ->
  Inv (JsMap.set k r' rooms).
Proof.
  intros HI Hin Hc Hok. apply Inv_set; [assumption|].
  destruct (Inv_In _ _ _ HI Hin) as (Hcode & Hup & _).
  repeat split; simpl in *; try tauto; try congruence; apply Hok.
Qed.

Lemma Inv_delete rooms k : Inv rooms -> Inv (JsMap.delete k rooms).
Proof.
  intros [Hnd Hall]. split.
  - now apply JsMapFacts.NoDup_keys_delete.
  - now apply JsMapFacts.Forall_delete.
Qed.

Lemma Inv_filter rooms f : Inv rooms -> Inv (filter f rooms).
Proof.
  intros [Hnd Hall]. split.
  - now apply JsMapFacts.NoDup_keys_filter.
  - apply Forall_forall. intros e He. apply filter_In in He as [He _].
    now apply (proj1 (Forall_forall _ _) Hall).
Qed.

Lemma players_ok_set ps sid p :
  players_ok ps -> player_ok p -> players_ok (JsMap.set sid p ps).
Proof.
  intros [Hnd Hall] Hp. split.
  - now apply JsMapFacts.NoDup_keys_set.
  - now apply JsMapFacts.Forall_set.
Qed.

Lemma players_ok_delete ps sid :
  players_ok ps -> players_ok (JsMap.delete sid ps).
Proof.
  intros [Hnd Hall]. split.
  - now apply JsMapFacts.NoDup_keys_delete.
  - now apply JsMapFacts.Forall_delete.
Qed.

Lemma players_ok_get ps sid p :
  players_ok ps -> JsMap.get sid ps = Some p -> player_ok p.
Proof.
  intros [_ Hall] G. apply JsMapFacts.get_In in G.
  now apply (proj1 (Forall_forall _ _) Hall) in G.
Qed.

Lemma players_ok_reset ps :
  players_ok ps -> players_ok (map (fun e => (fst e, reset_player (snd e))) ps).
Proof.
  intros [Hnd Hall]. split.
  - unfold JsMap.keys. rewrite map_map. simpl. exact Hnd.
  - apply Forall_forall. intros e He. apply in_map_iff in He as [e0 [<- _]].
    unfold player_ok. simpl. repeat split; try lia; discriminate.
Qed.

Lemma players_ok_write_back ps :
  players_ok ps -> players_ok (write_back (unfinished_ranked ps) ps).
Proof.
  intros [Hnd Hall]. split.
  - now rewrite write_back_keys.
  - apply Forall_forall. intros e He.
    apply write_back_In in He as [He|[He _]].
    + apply assign_ranks_In in He as (p & r & Hin & ->).
      apply js_sort_In in Hin. apply filter_In in Hin as [Hin _].
      apply (proj1 (Forall_forall _ _) Hall) in Hin. exact Hin.
    + now apply (proj1 (Forall_forall _ _) Hall).
Qed.

Lemma new_player_ok sid nm cm color : player_ok (new_player sid nm cm color).
Proof.
  unfold player_ok. simpl. repeat split; try lia; discriminate.
Qed.

Lemma endRace_eq room c :
  endRace room c
  = if phase_eqb (phase room) Finished then (room, [])
    else
      (mkRoom (code room) (hostSocketId room) Finished
              (write_back (unfinished_ranked (players room)) (players room))
              (createdAt room) (raceStartedAt room) (finishedCount room)
              (clearTimer (broadcastInterval room))
              (clearTimer (raceTimeout room)),
       [(ToRoom c,
         RaceFinished
           (map (fun e => serializePlayer (snd e))
                (finished_sorted (players room)
                 ++ unfinished_ranked (players room))))]).
Proof. unfold endRace. now destruct (phase_eqb (phase room) Finished). Qed.

Lemma clearTimer_not_armed t : clearTimer t <> TArmed.
Proof. destruct t; discriminate. Qed.

Lemma phase_eqb_eq a b : phase_eqb a b = true <-> a = b.
Proof. destruct a, b; simpl; split; congruence. Qed.

Lemma endRace_code room c : code (fst (endRace room c)) = code room.
Proof. rewrite endRace_eq. now destruct (phase_eqb (phase room) Finished). Qed.

Lemma endRace_ok room c :
  players_ok (players room) ->
  (phase room = Finished -> timers_ok room) ->
  room_ok (fst (endRace room c)).
Proof.
  intros Hp Ht. rewrite endRace_eq.
  destruct (phase_eqb (phase room) Finished) eqn:E; simpl.
  - apply phase_eqb_eq in E. split; auto.
  - split; simpl.
    + now apply players_ok_write_back.
    + split; simpl; split; try discriminate;
        intros H; now apply clearTimer_not_armed in H.
Qed.

Lemma checkAllFinished_cases room c :
  checkAllFinished room c = endRace room c
  \/ checkAllFinished room c = (room, []).
Proof.
  unfold checkAllFinished.
  destruct (forallb _ _); auto.
Qed.

Lemma checkAllFinished_code room c :
  code (fst (checkAllFinished room c)) = code room.
Proof.
  destruct (checkAllFinished_cases room c) as [-> | ->];
    [apply endRace_code|reflexivity].
Qed.

Lemma checkAllFinished_ok room c :
  room_ok room -> room_ok (fst (checkAllFinished room c)).
Proof.
  intros [Hp Ht].
  destruct (checkAllFinished_cases room c) as [-> | ->].
  - now apply endRace_ok.
  - now split.
Qed.

Lemma upper_ascii_alphabet c :
  in_alphabet c NANOID_ALPHABET = true -> upper_ascii c = c.
Proof.
  destruct c as [[] [] [] [] [] [] [] []]; vm_compute; congruence.
Qed.

Lemma toUpperCase_alphabet s :
  all_in_alphabet s = true -> toUpperCase s = s.
Proof.
  induction s as [|c s IH]; simpl; [reflexivity|].
  intros H. apply andb_true_iff in H as [Hc Hs].
  now rewrite upper_ascii_alphabet, IH.
Qed.

Lemma generateRoomCode_fresh rooms draws c :
  forallb is_nanoid_code draws = true ->
  generateRoomCode rooms draws = Some c ->
  JsMap.get c rooms = None /\ is_nanoid_code c = true.
Proof.
  unfold generateRoomCode. intros Hd Hf. apply find_some in Hf as [Hin Hfresh].
  split.
  - unfold JsMap.has in Hfresh. now destruct (JsMap.get c rooms).
  - now apply (proj1 (forallb_forall _ _) Hd).
Qed.

Lemma findRoomBySocket_Some rooms sid key room :
  findRoomBySocket rooms sid = Some (key, room) ->
  In (key, room) rooms /\ JsMap.has sid (players room) = true.
Proof. unfold findRoomBySocket. intros H. now apply find_some in H. Qed.

(** ** Every handler preserves the invariants *)

Lemma create_room_Inv rooms sid nm cm draws now :
  Inv rooms -> forallb is_nanoid_code draws = true ->
  Inv (fst (create_room rooms sid nm cm draws now)).
Proof.
  intros HI Hd. unfold create_room.
  destruct (generateRoomCode rooms draws) as [c|] eqn:G; simpl; [|assumption].
  apply generateRoomCode_fresh in G as [_ Hc]; [|assumption].
  apply Inv_set; [assumption|].
  unfold is_nanoid_code in Hc. apply andb_true_iff in Hc as [_ Hc].
  split; [reflexivity|]. split; [now apply toUpperCase_alphabet|].
  split; simpl.
  - split; simpl.
    + unfold JsMap.keys. simpl. constructor; [simpl; tauto|constructor].
    + constructor; [apply new_player_ok|constructor].
  - split; simpl; split; discriminate.
Qed.

Lemma add_player_ok room sid p :
  room_ok room -> player_ok p ->
  room_ok (set_players room (JsMap.set sid p (players room))).
Proof.
  intros [Hp Ht] Hok. split; simpl; [|exact Ht].
  now apply players_ok_set.
Qed.

Lemma join_room_Inv rooms sid c nm cm :
  Inv rooms -> Inv (fst (join_room rooms sid c nm cm)).
Proof.
  intros HI. unfold join_room.
  destruct (JsMap.get (normalize_code c) rooms) as [room|] eqn:G; simpl;
    [|assumption].
  destruct (negb (phase_eqb (phase room) Lobby)); simpl; [assumption|].
  destruct (16 <=? JsMap.size (players room)); simpl; [assumption|].
  apply JsMapFacts.get_In in G.
  eapply Inv_update; eauto.
  apply add_player_ok; [|apply new_player_ok].
  apply (Inv_In _ _ _ HI G).
Qed.

Lemma rejoin_room_Inv rooms sid c nm cm :
  Inv rooms -> Inv (fst (rejoin_room rooms sid c nm cm)).
Proof.
  intros HI. unfold rejoin_room.
  destruct (JsMap.get (normalize_code c) rooms) as [room|] eqn:G; simpl;
    [|assumption].
  apply JsMapFacts.get_In in G.
  eapply Inv_update; eauto.
  apply add_player_ok; [|apply new_player_ok].
  apply (Inv_In _ _ _ HI G).
Qed.

Lemma start_race_Inv rooms sid roomCode t1 t2 :
  Inv rooms -> Inv (fst (start_race rooms sid roomCode t1 t2)).
Proof.
  intros HI. unfold start_race.
  destruct (JsMap.get roomCode rooms) as [room|] eqn:G; simpl; [|assumption].
  destruct (negb (String.eqb (hostSocketId room) sid)); simpl; [assumption|].
  destruct (negb (phase_eqb (phase room) Lobby)); simpl; [assumption|].
  destruct (JsMap.size (players room) <? 1); simpl; [assumption|].
  apply JsMapFacts.get_In in G.
  eapply Inv_update; eauto.
  destruct (Inv_In _ _ _ HI G) as (_ & _ & Hp & _).
  split; simpl; [exact Hp|]. split; simpl; tauto.
Qed.

Lemma accept_click_ok player now :
  player_ok player -> truthy_time (finishedAt player) = false ->
  50 <= now - lastClickTime player ->
  clickCount (accept_click player now) = clickCount player + 1
  /\ player_ok
       (if ((100 <=? clickCount (accept_click player now))
            && negb (truthy_time (finishedAt (accept_click player now))))%bool
        then set_rank (set_finishedAt (accept_click player now) (Some now))
                      (Some 0)
        else accept_click player now).
Proof.
  intros (Hpc & Hrange & Hlast & Hfin) Hnf Hnow.
  assert (Hlt : clickCount player < 100).
  { destruct (Z.eq_dec (clickCount player) 100) as [E|E]; [|lia].
    apply Hfin in E. congruence. }
  assert (Hcc : clickCount (accept_click player now) = clickCount player + 1).
  { simpl. lia. }
  split; [exact Hcc|].
  assert (Hf' : finishedAt (accept_click player now) = finishedAt player)
    by reflexivity.
  rewrite Hf', Hnf, Hcc. simpl negb. rewrite andb_true_r.
  destruct (100 <=? clickCount player + 1) eqn:E.
  - apply Z.leb_le in E. unfold player_ok. simpl.
    repeat split; try lia.
    all: intros _; destruct (Z.eqb_spec now 0); [lia|reflexivity].
  - apply Z.leb_gt in E. unfold player_ok. simpl.
    repeat split; try lia.
    all: rewrite Hnf; discriminate.
Qed.

Lemma player_ok_set_rank p r : player_ok (set_rank p r) <-> player_ok p.
Proof. reflexivity. Qed.

Lemma click_Inv rooms sid roomCode now :
  Inv rooms -> Inv (fst (click rooms sid roomCode now)).
Proof.
  intros HI. unfold click.
  destruct (JsMap.get roomCode rooms) as [room|] eqn:G; [|assumption].
  destruct (negb (phase_eqb (phase room) Racing)); [assumption|].
  destruct (JsMap.get sid (players room)) as [player|] eqn:Gp; [|assumption].
  destruct (truthy_time (finishedAt player) || disconnected player)%bool eqn:Ef;
    [assumption|].
  destruct (now - lastClickTime player <? 50) eqn:Et; [assumption|].
  apply orb_false_iff in Ef as [Ef _]. apply Z.ltb_ge in Et.
  apply JsMapFacts.get_In in G.
  destruct (Inv_In _ _ _ HI G) as (_ & _ & Hroom).
  assert (Hpl : player_ok player).
  { eapply players_ok_get; [apply Hroom|eassumption]. }
  destruct (accept_click_ok player now Hpl Ef Et) as [_ Hok].
  cbv zeta.
  destruct ((100 <=? clickCount (accept_click player now))
            && negb (truthy_time (finishedAt (accept_click player now))))%bool.
  - match goal with
    | |- context [checkAllFinished ?r ?c] =>
        pose proof (checkAllFinished_ok r c) as Hcf;
        pose proof (checkAllFinished_code r c) as Hcc;
        destruct (checkAllFinished r c) as [room2 ems]
    end.
    cbn [fst] in *. apply (Inv_update rooms roomCode room room2 HI G Hcc).
    apply Hcf. destruct Hroom as [Hp Ht]. split; [|exact Ht].
    apply players_ok_set; [assumption|]. exact Hok.
  - cbn [fst]. apply (Inv_update rooms roomCode room _ HI G); [reflexivity|].
    now apply add_player_ok.
Qed.

Lemma reset_room_Inv rooms sid roomCode :
  Inv rooms -> Inv (fst (reset_room rooms sid roomCode)).
Proof.
  intros HI. unfold reset_room.
  destruct (JsMap.get roomCode rooms) as [room|] eqn:G; simpl; [|assumption].
  destruct (negb (String.eqb (hostSocketId room) sid)); simpl; [assumption|].
  apply JsMapFacts.get_In in G.
  eapply Inv_update; eauto.
  destruct (Inv_In _ _ _ HI G) as (_ & _ & Hp & _).
  split; simpl.
  - now apply players_ok_reset.
  - split; simpl; split; try discriminate;
      intros H; now apply clearTimer_not_armed in H.
Qed.

Lemma broadcast_tick_Inv rooms roomCode :
  Inv rooms -> Inv (fst (broadcast_tick rooms roomCode)).
Proof.
  intros HI. unfold broadcast_tick.
  destruct (JsMap.get roomCode rooms) as [room|] eqn:G; simpl; [|assumption].
  destruct (armed (broadcastInterval room)) eqn:Ea; simpl; [|assumption].
  destruct (negb (phase_eqb (phase room) Racing)) eqn:Ep; simpl; [|assumption].
  apply JsMapFacts.get_In in G.
  destruct (Inv_In _ _ _ HI G) as (_ & _ & _ & Ht & _). simpl in Ht.
  apply negb_true_iff in Ep.
  destruct (broadcastInterval room) eqn:Eb; try discriminate.
  assert (Hph : phase room = Racing) by now apply Ht.
  rewrite Hph in Ep. discriminate.
Qed.

Lemma race_timeout_Inv rooms roomCode :
  Inv rooms -> Inv (fst (race_timeout rooms roomCode)).
Proof.
  intros HI. unfold race_timeout.
  destruct (JsMap.get roomCode rooms) as [room|] eqn:G; simpl; [|assumption].
  destruct (armed (raceTimeout room)) eqn:Ea; simpl; [|assumption].
  apply JsMapFacts.get_In in G.
  destruct (Inv_In _ _ _ HI G) as (_ & _ & Hp & _ & Ht). simpl in Hp, Ht.
  destruct (raceTimeout room) eqn:Er; try discriminate.
  assert (Hph : phase room = Racing) by now apply Ht.
  rewrite Hph. simpl.
  match goal with
  | |- context [endRace ?r ?c] =>
      pose proof (endRace_ok r c) as Hcf;
      pose proof (endRace_code r c) as Hcc;
      destruct (endRace r c) as [room2 ems]
  end.
  simpl in *. apply (Inv_update rooms roomCode room room2 HI G Hcc).
  apply Hcf; [assumption|]. intros Hfin. congruence.
Qed.

Lemma handleDisconnect_Inv rooms sid :
  Inv rooms -> Inv (fst (handleDisconnect rooms sid)).
Proof.
  intros HI. unfold handleDisconnect.
  destruct (findRoomBySocket rooms sid) as [[key room]|] eqn:F; [|assumption].
  apply findRoomBySocket_Some in F as [Hin _].
  destruct (JsMap.get sid (players room)) as [player|] eqn:Gp; [|assumption].
  destruct (Inv_In _ _ _ HI Hin) as (_ & _ & Hp & Ht). simpl in Hp, Ht.
  assert (Hdel : room_ok (set_players room (JsMap.delete sid (players room)))).
  { split; [|exact Ht]. now apply players_ok_delete. }
  destruct (phase room) eqn:Hph.
  - (* lobby *)
    match goal with
    | |- context [let '(a, b) := ?X in _] =>
        assert (Hr2 : code (fst X) = code room /\ room_ok (fst X));
        [|destruct X as [room2 newHostId]]
    end.
    { destruct (_ && _)%bool; [|now split].
      destruct (JsMap.keys _); now split. }
    cbn [fst] in Hr2. destruct Hr2 as [Hc Hok].
    destruct (JsMap.size (players room2) =? 0); cbn [fst].
    + apply Inv_delete. now apply (Inv_update rooms key room room2).
    + now apply (Inv_update rooms key room room2).
  - (* racing *)
    match goal with
    | |- context [let '(a, b) := ?X in _] =>
        assert (Hr2 : code (fst X) = code room /\ room_ok (fst X));
        [|destruct X as [room2 newHostId]]
    end.
    { assert (Hok1 : room_ok
                (set_players room
                   (JsMap.set sid (set_disconnected player true)
                              (players room)))).
      { split; [|exact Ht]. apply players_ok_set; [assumption|].
        exact (players_ok_get _ _ _ Hp Gp). }
      destruct (_ && _)%bool; [|now split].
      destruct (find _ _) as [next|]; [|now split].
      destruct (truthy_string next); now split. }
    cbn [fst] in Hr2. destruct Hr2 as [Hc Hok].
    pose proof (checkAllFinished_ok room2 (code room) Hok) as Hcf.
    pose proof (checkAllFinished_code room2 (code room)) as Hcc.
    destruct (checkAllFinished room2 (code room)) as [room3 ems].
    cbn [fst] in *. apply (Inv_update rooms key room room3); auto.
    congruence.
  - (* finished *)
    cbv zeta.
    destruct (JsMap.size _ =? 0); cbn [fst].
    + apply Inv_delete. now apply (Inv_update rooms key room).
    + now apply (Inv_update rooms key room).
Qed.

Theorem step_Inv rooms e :
  Inv rooms -> wf_event e -> Inv (fst (step rooms e)).
Proof.
  intros HI Hwf. destruct e; simpl.
  - now apply create_room_Inv.
  - now apply join_room_Inv.
  - now apply rejoin_room_Inv.
  - now apply start_race_Inv.
  - now apply click_Inv.
  - now apply reset_room_Inv.
  - now apply handleDisconnect_Inv.
  - now apply handleDisconnect_Inv.
  - now apply broadcast_tick_Inv.
  - now apply race_timeout_Inv.
  - now apply Inv_filter.
Qed.

Theorem reachable_Inv rooms : reachable rooms -> Inv rooms.
Proof.
  induction 1 as [|rooms e _ IH Hwf].
  - split; constructor.
  - now apply step_Inv.
Qed.

Lemma run_cons rooms e evs :
  fst (run rooms (e :: evs)) = fst (run (fst (step rooms e)) evs).
Proof.
  simpl. destruct (step rooms e) as [rooms1 ems1]. simpl.
  now destruct (run rooms1 evs).
Qed.

Lemma reachable_run rooms evs :
  reachable rooms -> Forall wf_event evs -> reachable (fst (run rooms evs)).
Proof.
  intros Hr Hall. revert rooms Hr.
  induction Hall as [|e evs He _ IH]; intros rooms Hr; [exact Hr|].
  rewrite run_cons. apply IH. now apply reach_step.
Qed.

(** ** How the end of a race touches a player: only [rank] and [dnf] *)

Lemma set_rank_dnf_id p : set_dnf (set_rank p (rank p)) (dnf p) = p.
Proof. now destruct p. Qed.

Lemma endRace_get_player room c sid p :
  NoDup (JsMap.keys (players room)) ->
  JsMap.get sid (players room) = Some p ->
  exists r d,
    JsMap.get sid (players (fst (endRace room c)))
    = Some (set_dnf (set_rank p r) d).
Proof.
  intros Hnd G. rewrite endRace_eq.
  destruct (phase_eqb (phase room) Finished); cbn [fst players].
  - exists (rank p), (dnf p). now rewrite set_rank_dnf_id.
  - rewrite write_back_get, G.
    destruct (JsMap.get sid (unfinished_ranked (players room))) as [p'|] eqn:G'.
    + apply JsMapFacts.get_In in G'.
      apply assign_ranks_In in G' as (p0 & r & Hin & Heq). simpl in Hin, Heq.
      apply js_sort_In in Hin. apply filter_In in Hin as [Hin _].
      apply (JsMapFacts.In_get _ _ _ Hnd) in Hin.
      assert (p0 = p) by congruence. subst p0 p'. eauto.
    + exists (rank p), (dnf p). now rewrite set_rank_dnf_id.
Qed.

Lemma checkAllFinished_get_player room c sid p :
  NoDup (JsMap.keys (players room)) ->
  JsMap.get sid (players room) = Some p ->
  exists r d,
    JsMap.get sid (players (fst (checkAllFinished room c)))
    = Some (set_dnf (set_rank p r) d).
Proof.
  intros Hnd G.
  destruct (checkAllFinished_cases room c) as [-> | ->].
  - now apply endRace_get_player.
  - exists (rank p), (dnf p). now rewrite set_rank_dnf_id.
Qed.

(** ** The click handler *)

(** What an accepted click leaves in the registry. *)
Lemma click_accepted rooms sid c now room player :
  JsMap.get c rooms = Some room ->
  NoDup (JsMap.keys (players room)) ->
  phase room = Racing ->
  JsMap.get sid (players room) = Some player ->
  truthy_time (finishedAt player) = false ->
  disconnected player = false ->
  50 <= now - lastClickTime player ->
  exists room' player',
    JsMap.get c (fst (click rooms sid c now)) = Some room'
    /\ JsMap.get sid (players room') = Some player'
    /\ lastClickTime player' = now
    /\ clickCount player' = Z.min 100 (clickCount player + 1)
    /\ progress player' = clickCount player'.
Proof.
  intros G Hnd Hph Gp Hf Hd Ht. unfold click. rewrite G, Hph, Gp, Hf, Hd.
  cbn [phase_eqb negb orb].
  apply Z.ltb_ge in Ht. rewrite Ht. cbv zeta.
  destruct ((100 <=? clickCount (accept_click player now))
            && negb (truthy_time (finishedAt (accept_click player now))))%bool.
  - match goal with
    | |- context [checkAllFinished ?r ?x] =>
        destruct (checkAllFinished_get_player r x sid
                    (set_rank (set_finishedAt (accept_click player now)
                                              (Some now))
                              (Some (finishedCount room + 1))))
          as (rk & d & Hget);
        [|apply JsMapFacts.get_set_eq|];
        [now apply JsMapFacts.NoDup_keys_set|];
        destruct (checkAllFinished r x) as [room2 ems]
    end.
    cbn [fst] in *. rewrite JsMapFacts.get_set_eq.
    eexists _, _. split; [reflexivity|]. split; [exact Hget|].
    simpl. auto.
  - cbn [fst]. rewrite JsMapFacts.get_set_eq.
    eexists _, _. split; [reflexivity|]. cbn [players set_players].
    rewrite JsMapFacts.get_set_eq. split; [reflexivity|]. simpl. auto.
Qed.

(** A click arriving less than 50 ms after the last accepted one is
    dropped. *)
Lemma click_dropped rooms sid c now room player :
  JsMap.get c rooms = Some room ->
  JsMap.get sid (players room) = Some player ->
  now - lastClickTime player < 50 ->
  click rooms sid c now = (rooms, []).
Proof.
  intros G Gp Ht. unfold click. rewrite G, Gp.
  destruct (negb (phase_eqb (phase room) Racing)); [reflexivity|].
  destruct (truthy_time (finishedAt player) || disconnected player)%bool;
    [reflexivity|].
  apply Z.ltb_lt in Ht. now rewrite Ht.
Qed.

(** One click never lowers the progress of any player of any room. *)
Lemma click_progress_mono rooms s c' now c room sid player :
  Inv rooms ->
  JsMap.get c rooms = Some room ->
  JsMap.get sid (players room) = Some player ->
  exists room' player',
    JsMap.get c (fst (click rooms s c' now)) = Some room'
    /\ JsMap.get sid (players room') = Some player'
    /\ progress player <= progress player'.
Proof.
  intros HI G Gp.
  assert (Hsame : exists room' player',
             JsMap.get c rooms = Some room'
             /\ JsMap.get sid (players room') = Some player'
             /\ progress player <= progress player').
  { exists room, player. repeat split; auto. lia. }
  unfold click.
  destruct (JsMap.get c' rooms) as [room0|] eqn:G0; [|exact Hsame].
  destruct (negb (phase_eqb (phase room0) Racing)); [exact Hsame|].
  destruct (JsMap.get s (players room0)) as [player0|] eqn:Gp0; [|exact Hsame].
  destruct (truthy_time (finishedAt player0) || disconnected player0)%bool
    eqn:Ef; [exact Hsame|].
  destruct (now - lastClickTime player0 <? 50) eqn:Et; [exact Hsame|].
  destruct (Inv_get _ _ _ HI G0) as (_ & _ & [Hnd Hall] & _).
  simpl in Hnd, Hall.
  assert (Hp0 : player_ok player0).
  { apply JsMapFacts.get_In in Gp0.
    now apply (proj1 (Forall_forall _ _) Hall) in Gp0. }
  (* the room after the click, whichever branch is taken *)
  assert (Hroom : forall room2 q,
            (exists r d, JsMap.get s (players room2)
                         = Some (set_dnf (set_rank q r) d)) ->
            (forall k p, k <> s -> JsMap.get k (players room0) = Some p ->
               exists r d, JsMap.get k (players room2)
                           = Some (set_dnf (set_rank p r) d)) ->
            progress q = Z.min 100 (clickCount player0 + 1) ->
            exists room' player',
              JsMap.get c (JsMap.set c' room2 rooms) = Some room'
              /\ JsMap.get sid (players room') = Some player'
              /\ progress player <= progress player').
  { intros room2 q Hq Hothers Hprog.
    destruct (string_dec c' c) as [->|Hne].
    - rewrite JsMapFacts.get_set_eq. exists room2.
      assert (room0 = room) by congruence. subst room0.
      destruct (string_dec sid s) as [->|Hns].
      + destruct Hq as (r & d & Hq). eexists. split; [reflexivity|].
        split; [exact Hq|]. simpl. rewrite Hprog.
        assert (player0 = player) by congruence. subst player0.
        destruct Hp0 as (Hpc & Hrange & _). lia.
      + destruct (Hothers sid player Hns Gp) as (r & d & Hk).
        eexists. split; [reflexivity|]. split; [exact Hk|]. simpl. lia.
    - rewrite JsMapFacts.get_set_neq by assumption. exact Hsame. }
  cbv zeta.
  destruct ((100 <=? clickCount (accept_click player0 now))
            && negb (truthy_time (finishedAt (accept_click player0 now))))%bool.
  - match goal with
    | |- context [checkAllFinished ?r ?x] =>
        pose proof (checkAllFinished_get_player r x) as Hget;
        destruct (checkAllFinished r x) as [room2 ems]
    end.
    cbn [fst players set_players] in *.
    apply (Hroom room2
             (set_rank (set_finishedAt (accept_click player0 now) (Some now))
                       (Some (finishedCount room0 + 1)))).
    + apply Hget; [now apply JsMapFacts.NoDup_keys_set|].
      apply JsMapFacts.get_set_eq.
    + intros k p Hk Gk. apply Hget; [now apply JsMapFacts.NoDup_keys_set|].
      rewrite JsMapFacts.get_set_neq by congruence. exact Gk.
    + reflexivity.
  - cbn [fst].
    apply (Hroom _ (accept_click player0 now)).
    + cbn [players set_players]. rewrite JsMapFacts.get_set_eq.
      exists (rank (accept_click player0 now)), (dnf (accept_click player0 now)).
      now rewrite set_rank_dnf_id.
    + intros k p Hk Gk. cbn [players set_players].
      rewrite JsMapFacts.get_set_neq by congruence.
      exists (rank p), (dnf p). now rewrite set_rank_dnf_id.
    + reflexivity.
Qed.

Lemma clicks_progress_mono evs :
  Forall is_click evs ->
  forall rooms c room sid player,
  Inv rooms ->
  JsMap.get c rooms = Some room ->
  JsMap.get sid (players room) = Some player ->
  exists room' player',
    JsMap.get c (fst (run rooms evs)) = Some room'
    /\ JsMap.get sid (players room') = Some player'
    /\ progress player <= progress player'.
Proof.
  induction 1 as [|e evs He _ IH]; intros rooms c room sid player HI G Gp.
  - exists room, player. simpl. repeat split; auto. lia.
  - rewrite run_cons. destruct e; try contradiction. simpl step.
    destruct (click_progress_mono rooms sid0 roomCode now c room sid player
                HI G Gp) as (room1 & player1 & G1 & Gp1 & Hle).
    destruct (IH _ c room1 sid player1 (click_Inv _ sid0 roomCode now HI)
                 G1 Gp1) as (room2 & player2 & G2 & Gp2 & Hle2).
    exists room2, player2. repeat split; auto. lia.
Qed.

(** * The claims *)

Lemma race_of_two_run : race_of_two = fst (run [] race_of_two_events).
Proof. vm_compute. reflexivity. Qed.

Lemma race_of_two_reachable : reachable race_of_two.
Proof.
  rewrite race_of_two_run. apply reachable_run; [constructor|].
  repeat constructor.
Qed.

(** C1. In a reachable registry: progress always equals the click counter
    and stays within 0..100; for a player of a racing room who is neither
    finished nor disconnected, a click is accepted (changes the registry) if
    and only if at least 50 ms have elapsed since the player's last accepted
    input, a click arriving earlier is dropped without any effect, and an
    accepted click stamps the time, increments the click counter by exactly
    one (equivalently: plus one capped at 100) and sets progress to the
    counter; over any sequence of click inputs the progress of every player
    is non-decreasing. *)
Theorem C1_click_throttle_and_progress rooms :
  reachable rooms ->
  (forall c room sid player,
     JsMap.get c rooms = Some room ->
     JsMap.get sid (players room) = Some player ->
     progress player = clickCount player /\ 0 <= progress player <= 100)
  /\ (forall c room sid player now,
        JsMap.get c rooms = Some room ->
        phase room = Racing ->
        JsMap.get sid (players room) = Some player ->
        truthy_time (finishedAt player) = false ->
        disconnected player = false ->
        (fst (click rooms sid c now) <> rooms
         <-> 50 <= now - lastClickTime player)
        /\ (now - lastClickTime player < 50 ->
            click rooms sid c now = (rooms, []))
        /\ (50 <= now - lastClickTime player ->
            exists room' player',
              JsMap.get c (fst (click rooms sid c now)) = Some room'
              /\ JsMap.get sid (players room') = Some player'
              /\ lastClickTime player' = now
              /\ clickCount player' = clickCount player + 1
              /\ clickCount player' = Z.min 100 (clickCount player + 1)
              /\ progress player' = clickCount player'))
  /\ (forall evs c room sid player,
        Forall is_click evs ->
        JsMap.get c rooms = Some room ->
        JsMap.get sid (players room) = Some player ->
        exists room' player',
          JsMap.get c (fst (run rooms evs)) = Some room'
          /\ JsMap.get sid (players room') = Some player'
          /\ progress player <= progress player').
Proof.
  intros Hr. pose proof (reachable_Inv _ Hr) as HI.
  assert (Hplayer : forall c room sid player,
            JsMap.get c rooms = Some room ->
            JsMap.get sid (players room) = Some player ->
            NoDup (JsMap.keys (players room)) /\ player_ok player).
  { intros c room sid player G Gp.
    destruct (Inv_get _ _ _ HI G) as (_ & _ & Hp & _). simpl in Hp.
    split; [apply Hp|]. eapply players_ok_get; eauto. }
  split; [|split].
  - intros c room sid player G Gp.
    destruct (Hplayer _ _ _ _ G Gp) as (_ & Hpc & Hrange & _). lia.
  - intros c room sid player now G Hph Gp Hf Hd.
    destruct (Hplayer _ _ _ _ G Gp) as (Hnd & Hok).
    assert (Hacc : 50 <= now - lastClickTime player ->
              exists room' player',
                JsMap.get c (fst (click rooms sid c now)) = Some room'
                /\ JsMap.get sid (players room') = Some player'
                /\ lastClickTime player' = now
                /\ clickCount player' = clickCount player + 1
                /\ clickCount player' = Z.min 100 (clickCount player + 1)
                /\ progress player' = clickCount player').
    { intros Ht.
      destruct (click_accepted rooms sid c now room player G Hnd Hph Gp Hf Hd Ht)
        as (room' & player' & G' & Gp' & Hl & Hc & Hp).
      exists room', player'. repeat split; auto.
      destruct Hok as (_ & Hrange & _ & Hfin).
      destruct (Z.eq_dec (clickCount player) 100) as [E|E]; [|lia].
      apply Hfin in E. congruence. }
    split; [|split].
    + split.
      * intros Hne. destruct (Z.lt_ge_cases (now - lastClickTime player) 50)
          as [Hlt|Hge]; [|exact Hge].
        exfalso. apply Hne.
        now rewrite (click_dropped rooms sid c now room player G Gp Hlt).
      * intros Ht Heq.
        destruct (Hacc Ht) as (room' & player' & G' & Gp' & Hl & _).
        rewrite Heq in G'. assert (room' = room) by congruence. subst room'.
        assert (player' = player) by congruence. subst player'. lia.
    + now apply click_dropped with (room := room) (player := player).
    + exact Hacc.
  - intros evs c room sid player Hev G Gp.
    now apply clicks_progress_mono with (room := room).
Qed.

Lemma C1_click_throttle_and_progress_witness :
  exists room' player',
    JsMap.get "ABCDEF" (fst (click race_of_two "a" "ABCDEF" 1060)) = Some room'
    /\ JsMap.get "a" (players room') = Some player'
    /\ lastClickTime player' = 1060
    /\ clickCount player' = 0 + 1
    /\ clickCount player' = Z.min 100 (0 + 1)
    /\ progress player' = clickCount player'.
Proof.
  destruct (C1_click_throttle_and_progress race_of_two race_of_two_reachable)
    as (_ & H & _).
  refine (proj2 (proj2 (H "ABCDEF" _ "a" _ 1060 eq_refl eq_refl eq_refl
                          eq_refl eq_refl)) _).
  vm_compute. discriminate.
Defined.

(** ** The emissions of [race-finished] *)

Lemma endRace_first room c :
  phase room <> Finished ->
  phase (fst (endRace room c)) = Finished
  /\ armed (broadcastInterval (fst (endRace room c))) = false
  /\ armed (raceTimeout (fst (endRace room c))) = false
  /\ exists results,
       snd (endRace room c) = [(ToRoom c, RaceFinished results)].
Proof.
  intros Hph. rewrite endRace_eq.
  destruct (phase_eqb (phase room) Finished) eqn:E.
  - apply phase_eqb_eq in E. contradiction.
  - cbn [fst snd phase broadcastInterval raceTimeout].
    repeat split; eauto.
    + now destruct (broadcastInterval room).
    + now destruct (raceTimeout room).
Qed.

Lemma endRace_again room c : phase room = Finished -> endRace room c = (room, []).
Proof. intros Hph. unfold endRace. now rewrite Hph. Qed.

Lemma checkAllFinished_racing room c :
  phase room = Racing ->
  checkAllFinished room c = (room, [])
  \/ (phase (fst (checkAllFinished room c)) = Finished
      /\ exists results,
           snd (checkAllFinished room c) = [(ToRoom c, RaceFinished results)]).
Proof.
  intros Hph. destruct (checkAllFinished_cases room c) as [-> | ->]; auto.
  right. destruct (endRace_first room c) as (H1 & _ & _ & H2); [congruence|].
  auto.
Qed.

Ltac break_match_in H :=
  match type of H with
  | context [match ?x with _ => _ end] => destruct x eqn:?
  end.

Ltac no_race_finished H Hrf :=
  repeat break_match_in H; cbn [snd In] in H;
  repeat (destruct H as [H|H]; [subst; discriminate Hrf|]);
  try contradiction.

Lemma handleDisconnect_race_finished rooms sid em :
  Inv rooms ->
  In em (snd (handleDisconnect rooms sid)) ->
  is_race_finished em = true ->
  List.length (filter is_race_finished (snd (handleDisconnect rooms sid)))
  = 1%nat
  /\ exists c room room',
       fst em = ToRoom c
       /\ JsMap.get c rooms = Some room /\ phase room = Racing
       /\ JsMap.get c (fst (handleDisconnect rooms sid)) = Some room'
       /\ phase room' = Finished.
Proof.
  intros HI Hin Hrf.
  unfold handleDisconnect in *.
  destruct (findRoomBySocket rooms sid) as [[key room]|] eqn:F;
    [|contradiction].
  apply findRoomBySocket_Some in F as [Hkr _].
  pose proof (JsMapFacts.In_get _ _ _ (proj1 HI) Hkr) as G.
  destruct (Inv_In _ _ _ HI Hkr) as (Hcode & _). simpl in Hcode.
  destruct (JsMap.get sid (players room)); [|contradiction].
  destruct (phase room) eqn:Hph.
  - match goal with
    | H : context [let '(a, b) := ?X in _] |- _ => destruct X as [room2 nh]
    end.
    destruct (_ =? 0); cbn [snd In] in Hin; [contradiction|].
    destruct Hin as [<-|[]]. discriminate.
  - match goal with
    | H : context [let '(a, b) := ?X in _] |- _ =>
        assert (Hr2 : phase (fst X) = Racing);
        [|destruct X as [room2 nh]]
    end.
    { destruct (_ && _)%bool; [|exact Hph].
      destruct (find _ _) as [next|]; [|exact Hph].
      destruct (truthy_string next); exact Hph. }
    cbn [fst] in Hr2.
    destruct (checkAllFinished_racing room2 (code room) Hr2)
      as [Hno|[Hfin [res Hems]]];
      [rewrite Hno in *
      |destruct (checkAllFinished room2 (code room)) as [room3 ems]].
    + cbn [snd In] in Hin. destruct Hin as [<-|[]]. discriminate.
    + cbn [fst snd] in *. subst ems. cbn [In] in Hin.
      destruct Hin as [<-|[<-|[]]]; [discriminate|].
      split; [reflexivity|].
      exists (code room), room, room3. rewrite Hcode.
      rewrite JsMapFacts.get_set_eq. auto.
  - cbv zeta in Hin. destruct (_ =? 0); contradiction.
Qed.

(** A [race-finished] emission happens only in a step that takes the room
    it is addressed to from [Racing] to [Finished], and only once in that
    step. *)
Lemma step_race_finished rooms e em :
  Inv rooms ->
  In em (snd (step rooms e)) ->
  is_race_finished em = true ->
  List.length (filter is_race_finished (snd (step rooms e))) = 1%nat
  /\ exists c room room',
       fst em = ToRoom c
       /\ JsMap.get c rooms = Some room /\ phase room = Racing
       /\ JsMap.get c (fst (step rooms e)) = Some room'
       /\ phase room' = Finished.
Proof.
  intros HI Hin Hrf. destruct e; cbn [step] in *.
  - unfold create_room in Hin. no_race_finished Hin Hrf.
  - unfold join_room in Hin. no_race_finished Hin Hrf.
  - unfold rejoin_room in Hin. no_race_finished Hin Hrf.
  - unfold start_race in Hin. no_race_finished Hin Hrf.
  - (* click *)
    unfold click in *.
    destruct (JsMap.get roomCode rooms) as [room|] eqn:G; [|contradiction].
    destruct (negb (phase_eqb (phase room) Racing)) eqn:Ep; [contradiction|].
    apply negb_false_iff, phase_eqb_eq in Ep.
    destruct (JsMap.get sid (players room)); [|contradiction].
    destruct (_ || _)%bool; [contradiction|].
    destruct (_ <? 50); [contradiction|].
    cbv zeta in *. destruct (_ && _)%bool; [|contradiction].
    match goal with
    | |- context [checkAllFinished ?r ?x] =>
        destruct (checkAllFinished_racing r x Ep) as [Hno|[Hph [res Hems]]];
        [rewrite Hno in *|destruct (checkAllFinished r x) as [room2 ems]]
    end.
    + cbn [snd In] in Hin. destruct Hin as [<-|[]]. discriminate.
    + cbn [fst snd] in *. subst ems. cbn [In] in Hin.
      destruct Hin as [<-|[<-|[]]]; [discriminate|].
      split; [reflexivity|].
      exists roomCode, room, room2. rewrite JsMapFacts.get_set_eq. auto.
  - unfold reset_room in Hin. no_race_finished Hin Hrf.
  - now apply handleDisconnect_race_finished.
  - now apply handleDisconnect_race_finished.
  - unfold broadcast_tick in Hin. no_race_finished Hin Hrf.
  - (* race timeout *)
    unfold race_timeout in *.
    destruct (JsMap.get roomCode rooms) as [room|] eqn:G; [|contradiction].
    destruct (armed (raceTimeout room)); [|contradiction].
    cbv zeta in *. cbn [phase set_raceTimeout] in *.
    destruct (negb (phase_eqb (phase room) Racing)) eqn:Ep; [contradiction|].
    apply negb_false_iff, phase_eqb_eq in Ep.
    destruct (endRace_first (set_raceTimeout room TDead) roomCode)
      as (Hfin & _ & _ & res & Hems).
    { cbn [phase set_raceTimeout]. congruence. }
    unfold set_raceTimeout in *.
    destruct (endRace _ roomCode) as [room2 ems].
    cbn [fst snd] in *. subst ems. cbn [In] in Hin.
    destruct Hin as [<-|[]].
    split; [reflexivity|].
    exists roomCode, room, room2. rewrite JsMapFacts.get_set_eq. auto.
  - contradiction.
Qed.

(** ** Standings when nobody has finished *)

Lemma StronglySorted_map {A B : Type} (R : B -> B -> Prop) (f : A -> B) l :
  StronglySorted (fun a b => R (f a) (f b)) l -> StronglySorted R (map f l).
Proof.
  induction 1 as [|a l _ IH Hall]; simpl; constructor; [assumption|].
  apply Forall_forall. intros b Hb. apply in_map_iff in Hb as [x [<- Hx]].
  now apply (proj1 (Forall_forall _ _) Hall).
Qed.

Lemma assign_ranks_dnf rk l :
  Forall (fun e => dnf (snd e) = true) (assign_ranks rk l).
Proof.
  revert rk. induction l as [|[k p] l IH]; intros rk; simpl; constructor;
    auto.
Qed.

Lemma filter_all {A : Type} (f : A -> bool) l :
  (forall x, In x l -> f x = true) -> filter f l = l.
Proof.
  induction l as [|x l IH]; simpl; intros H; [reflexivity|].
  rewrite (H x) by auto. f_equal. auto.
Qed.


Lemma StronglySorted_weaken {A : Type} (R R' : A -> A -> Prop) l :
  (forall a b, R a b -> R' a b) -> StronglySorted R l -> StronglySorted R' l.
Proof.
  intros Himp. induction 1 as [|a l _ IH Hall]; constructor; [assumption|].
  eapply Forall_impl; [|exact Hall]. intros b. apply Himp.
Qed.

Lemma by_progress_desc_sorted (l : list Entry) :
  StronglySorted (fun x y => y <= x)
    (map (fun e => progress (snd e)) (js_sort by_progress_desc l)).
Proof.
  apply StronglySorted_map.
  apply (StronglySorted_weaken (le_cmp by_progress_desc)).
  - intros a b H. unfold le_cmp, by_progress_desc in H. lia.
  - apply js_sort_sorted; unfold by_progress_desc; intros; lia.
Qed.

Lemma In_set_NoDup {V : Type} (k : string) (v : V) m e :
  NoDup (JsMap.keys m) -> In e (JsMap.set k v m) ->
  e = (k, v) \/ (In e m /\ fst e <> k).
Proof.
  induction m as [|[k' v'] m IH]; simpl; intros Hnd.
  - intros [H|[]]; auto.
  - inversion Hnd as [|? ? Hnotin Hnd']; subst.
    destruct (String.eqb k k') eqn:E; simpl.
    + apply String.eqb_eq in E. subst k'. intros [H|H]; [auto|].
      right. split; [auto|]. intros <-. apply Hnotin.
      now apply in_map.
    + apply String.eqb_neq in E. intros [H|H].
      * right. subst e. simpl. split; [auto|congruence].
      * destruct (IH Hnd' H) as [->|[Hin Hne]]; auto.
Qed.



Lemma get_filter_out {V : Type} (f : string * V -> bool) k v m :
  NoDup (JsMap.keys m) -> JsMap.get k m = Some v -> f (k, v) = false ->
  JsMap.get k (filter f m) = None.
Proof.
  intros Hnd G Hf. destruct (JsMap.get k (filter f m)) as [v'|] eqn:G';
    [|reflexivity].
  apply JsMapFacts.get_In in G'. apply filter_In in G' as [Hin Hf'].
  apply (JsMapFacts.In_get _ _ _ Hnd) in Hin. congruence.
Qed.

(** The finished branch of [handleDisconnect]: the record of the leaver is
    deleted, and the room with it when that was its last record; nothing is
    emitted. *)
Lemma handleDisconnect_finished rooms sid key room :
  Inv rooms ->
  findRoomBySocket rooms sid = Some (key, room) ->
  phase room = Finished ->
  handleDisconnect rooms sid
  = (if JsMap.size (JsMap.delete sid (players room)) =? 0
     then JsMap.delete key
            (JsMap.set key
               (set_players room (JsMap.delete sid (players room))) rooms)
     else JsMap.set key
            (set_players room (JsMap.delete sid (players room))) rooms,
     []).
Proof.
  intros HI F Hph. destruct (findRoomBySocket_Some _ _ _ _ F) as [Hkr Hhas].
  destruct (Inv_In _ _ _ HI Hkr) as (Hcode & _). simpl in Hcode.
  unfold JsMap.has in Hhas.
  destruct (JsMap.get sid (players room)) as [player|] eqn:Gp; [|discriminate].
  unfold handleDisconnect. rewrite F, Gp, Hph, Hcode. cbv zeta.
  cbn [players set_players]. now destruct (_ =? 0).
Qed.

Lemma get_filter_in {V : Type} (f : string * V -> bool) k v m :
  NoDup (JsMap.keys m) -> JsMap.get k m = Some v -> f (k, v) = true ->
  JsMap.get k (filter f m) = Some v.
Proof.
  intros Hnd G Hf. apply JsMapFacts.In_get;
    [now apply JsMapFacts.NoDup_keys_filter|].
  apply filter_In. split; [now apply JsMapFacts.get_In|exact Hf].
Qed.



Lemma race_b_gone_step :
  race_b_gone = fst (step race_of_two (Disconnect "b")).
Proof. vm_compute. reflexivity. Qed.

Lemma race_b_gone_reachable : reachable race_b_gone.
Proof.
  rewrite race_b_gone_step.
  apply reach_step; [apply race_of_two_reachable|exact I].
Qed.


(** ** Room codes and letter case *)

Lemma lobby_of_two_run : lobby_of_two = fst (run [] lobby_of_two_events).
Proof. vm_compute. reflexivity. Qed.

Lemma lobby_of_two_reachable : reachable lobby_of_two.
Proof.
  rewrite lobby_of_two_run. apply reachable_run; [constructor|].
  repeat constructor.
Qed.

(** C9, counterexample.  The host starts the race with the room code in
    lower case: the code is looked up as sent, no room is found and nothing
    happens, while the same message with the upper-case code starts the
    race. *)
Lemma C9_start_race_lowercase_counterexample :
  JsMap.has "ABCDEF" lobby_of_two = true
  /\ toUpperCase "abcdef" = "ABCDEF"
  /\ start_race lobby_of_two "a" "abcdef" 1000 1000 = (lobby_of_two, [])
  /\ snd (start_race lobby_of_two "a" "ABCDEF" 1000 1000)
     = [(ToRoom "ABCDEF", RaceStarted 4500)].
Proof. repeat split; reflexivity. Qed.

(** C9, amended.  In a reachable registry every room code is its own upper
    case, and [join-room] and [rejoin-room] normalise the code they receive
    to upper case before the lookup: any spelling whose upper case is the
    code of an existing room resolves to that room and is handled exactly as
    the exact code.  [start-race], [click] and [reset-room] look the code
    up as it was sent: with a spelling that differs from the room's code
    they find no room, change nothing and emit nothing. *)
Theorem C9_code_case rooms k room s :
  reachable rooms ->
  JsMap.get k rooms = Some room ->
  toUpperCase s = k ->
  toUpperCase k = k
  /\ JsMap.get (normalize_code (Some s)) rooms = Some room
  /\ (forall sid nm cm,
        join_room rooms sid (Some s) nm cm = join_room rooms sid (Some k) nm cm)
  /\ (forall sid nm cm,
        rejoin_room rooms sid (Some s) nm cm
        = rejoin_room rooms sid (Some k) nm cm)
  /\ (s <> k ->
      (forall sid t1 t2, start_race rooms sid s t1 t2 = (rooms, []))
      /\ (forall sid now, click rooms sid s now = (rooms, []))
      /\ (forall sid, reset_room rooms sid s = (rooms, []))).
Proof.
  intros Hr G Hs. pose proof (reachable_Inv _ Hr) as HI.
  destruct (Inv_get _ _ _ HI G) as (_ & Hup & _). simpl in Hup.
  assert (Hnorm : normalize_code (Some s) = normalize_code (Some k)).
  { simpl. congruence. }
  split; [exact Hup|].
  split; [simpl; now rewrite Hs|].
  split; [intros; unfold join_room; now rewrite Hnorm|].
  split; [intros; unfold rejoin_room; now rewrite Hnorm|].
  intros Hne.
  assert (Gs : JsMap.get s rooms = None).
  { destruct (JsMap.get s rooms) as [room0|] eqn:G0; [|reflexivity].
    destruct (Inv_get _ _ _ HI G0) as (_ & Hup0 & _). simpl in Hup0.
    congruence. }
  repeat split; intros.
  - unfold start_race. now rewrite Gs.
  - unfold click. now rewrite Gs.
  - unfold reset_room. now rewrite Gs.
Qed.

Lemma C9_code_case_witness :
  join_room lobby_of_two "c" (Some "aBcDeF") (Some "Cy") None
  = join_room lobby_of_two "c" (Some "ABCDEF") (Some "Cy") None
  /\ start_race lobby_of_two "a" "aBcDeF" 1000 1000 = (lobby_of_two, []).
Proof.
  destruct (C9_code_case lobby_of_two "ABCDEF" _ "aBcDeF"
              lobby_of_two_reachable eq_refl eq_refl)
    as (_ & _ & Hjoin & _ & Hexact).
  split; [apply Hjoin|].
  apply Hexact. discriminate.
Defined.

(** ** Room membership of a connection *)

Lemma endRace_keys room c :
  JsMap.keys (players (fst (endRace room c))) = JsMap.keys (players room).
Proof.
  rewrite endRace_eq. destruct (phase_eqb (phase room) Finished);
    [reflexivity|]. cbn [fst players]. apply write_back_keys.
Qed.

Lemma checkAllFinished_keys room c :
  JsMap.keys (players (fst (checkAllFinished room c)))
  = JsMap.keys (players room).
Proof.
  destruct (checkAllFinished_cases room c) as [-> | ->];
    [apply endRace_keys|reflexivity].
Qed.

Lemma in_room_update rooms key room room' sid k :
  JsMap.get key rooms = Some room ->
  (In sid (JsMap.keys (players room')) -> In sid (JsMap.keys (players room))) ->
  in_room (JsMap.set key room' rooms) sid k -> in_room rooms sid k.
Proof.
  intros G Hsub (r & Gr & Hin). destruct (string_dec key k) as [->|Hne].
  - rewrite JsMapFacts.get_set_eq in Gr. inversion Gr; subst r.
    exists room. auto.
  - rewrite JsMapFacts.get_set_neq in Gr by assumption. exists r. auto.
Qed.

Lemma in_room_delete rooms c sid k :
  NoDup (JsMap.keys rooms) ->
  in_room (JsMap.delete c rooms) sid k -> in_room rooms sid k.
Proof.
  intros Hnd (r & Gr & Hin). exists r. split; [|assumption].
  apply JsMapFacts.In_get; [assumption|].
  eapply JsMapFacts.In_delete, JsMapFacts.get_In, Gr.
Qed.

Lemma in_room_filter rooms f sid k :
  NoDup (JsMap.keys rooms) ->
  in_room (filter f rooms) sid k -> in_room rooms sid k.
Proof.
  intros Hnd (r & Gr & Hin). exists r. split; [|assumption].
  apply JsMapFacts.In_get; [assumption|].
  eapply JsMapFacts.get_filter_Some, Gr.
Qed.

Lemma handleDisconnect_membership rooms s sid k :
  Inv rooms ->
  in_room (fst (handleDisconnect rooms s)) sid k -> in_room rooms sid k.
Proof.
  intros HI. unfold handleDisconnect.
  destruct (findRoomBySocket rooms s) as [[key room]|] eqn:F; [|auto].
  apply findRoomBySocket_Some in F as [Hkr _].
  pose proof (JsMapFacts.In_get _ _ _ (proj1 HI) Hkr) as G.
  destruct (JsMap.get s (players room)) as [player|] eqn:Gp; [|auto].
  assert (Hdel : forall x, In x (JsMap.keys (JsMap.delete s (players room))) ->
                           In x (JsMap.keys (players room))).
  { intros x. apply JsMapFacts.In_keys_delete. }
  destruct (phase room).
  - match goal with
    | |- context [let '(a, b) := ?X in _] =>
        assert (Hr2 : forall x, In x (JsMap.keys (players (fst X))) ->
                                In x (JsMap.keys (players room)));
        [|destruct X as [room2 newHostId]]
    end.
    { destruct (_ && _)%bool; [|exact Hdel].
      match goal with
      | |- context [match ?K with [] => _ | _ :: _ => _ end] => destruct K
      end; exact Hdel. }
    cbn [fst] in Hr2.
    assert (Hupd : in_room (JsMap.set key room2 rooms) sid k ->
                   in_room rooms sid k).
    { apply in_room_update with (room := room); [assumption|]. apply Hr2. }
    destruct (JsMap.size (players room2) =? 0); cbn [fst]; [|exact Hupd].
    intros H. apply Hupd. eapply in_room_delete; [|exact H].
    now apply JsMapFacts.NoDup_keys_set, HI.
  - match goal with
    | |- context [let '(a, b) := ?X in _] =>
        assert (Hr2 : JsMap.keys (players (fst X))
                      = JsMap.keys (players room));
        [|destruct X as [room2 newHostId]]
    end.
    { assert (Hk : JsMap.keys (JsMap.set s (set_disconnected player true)
                                         (players room))
                   = JsMap.keys (players room)).
      { apply JsMapFacts.keys_set_in. eapply JsMapFacts.get_keys; eauto. }
      destruct (_ && _)%bool; [|exact Hk].
      destruct (find _ _) as [next|]; [|exact Hk].
      destruct (truthy_string next); exact Hk. }
    cbn [fst] in Hr2.
    pose proof (checkAllFinished_keys room2 (code room)) as Hcf.
    destruct (checkAllFinished room2 (code room)) as [room3 ems].
    cbn [fst] in *.
    apply in_room_update with (room := room); [assumption|].
    now rewrite Hcf, Hr2.
  - cbv zeta.
    assert (Hupd : in_room (JsMap.set key
                     (set_players room (JsMap.delete s (players room))) rooms)
                     sid k -> in_room rooms sid k).
    { apply in_room_update with (room := room); [assumption|]. apply Hdel. }
    destruct (JsMap.size _ =? 0); cbn [fst]; [|exact Hupd].
    intros H. apply Hupd. eapply in_room_delete; [|exact H].
    now apply JsMapFacts.NoDup_keys_set, HI.
Qed.

(** After any step a connection is in a room only if it was there before or
    the message asked to put it there. *)
Lemma step_membership rooms e sid k :
  Inv rooms ->
  in_room (fst (step rooms e)) sid k ->
  in_room rooms sid k \/ enters rooms e sid k.
Proof.
  intros HI. destruct e; cbn [step enters].
  - (* create-room *)
    unfold create_room.
    destruct (generateRoomCode rooms draws) as [c|] eqn:G; cbn [fst]; [|auto].
    intros (r & Gr & Hin). destruct (string_dec c k) as [->|Hne].
    + rewrite JsMapFacts.get_set_eq in Gr. inversion Gr; subst r.
      simpl in Hin. destruct Hin as [->|[]]. auto.
    + rewrite JsMapFacts.get_set_neq in Gr by assumption.
      left. exists r. auto.
  - (* join-room *)
    unfold join_room.
    destruct (JsMap.get (normalize_code c) rooms) as [room|] eqn:G; [|auto].
    destruct (negb _); [auto|]. destruct (16 <=? _); [auto|]. cbn [fst].
    intros (r & Gr & Hin).
    destruct (string_dec (normalize_code c) k) as [Heq|Hne].
    + rewrite Heq in Gr. rewrite JsMapFacts.get_set_eq in Gr.
      inversion Gr; subst r. cbn [players set_players] in Hin.
      apply JsMapFacts.In_keys_set in Hin as [->|Hin]; [auto|].
      left. exists room. subst k. auto.
    + rewrite JsMapFacts.get_set_neq in Gr by assumption.
      left. exists r. auto.
  - (* rejoin-room *)
    unfold rejoin_room.
    destruct (JsMap.get (normalize_code c) rooms) as [room|] eqn:G; [|auto].
    cbn [fst]. intros (r & Gr & Hin).
    destruct (string_dec (normalize_code c) k) as [Heq|Hne].
    + rewrite Heq in Gr. rewrite JsMapFacts.get_set_eq in Gr.
      inversion Gr; subst r. cbn [players set_players] in Hin.
      apply JsMapFacts.In_keys_set in Hin as [->|Hin]; [auto|].
      left. exists room. subst k. auto.
    + rewrite JsMapFacts.get_set_neq in Gr by assumption.
      left. exists r. auto.
  - (* start-race *)
    intros H. left. revert H. unfold start_race.
    destruct (JsMap.get roomCode rooms) as [room|] eqn:G; [|auto].
    destruct (negb _); [auto|]. destruct (negb _); [auto|].
    destruct (_ <? 1); [auto|]. cbn [fst].
    apply in_room_update with (room := room); auto.
  - (* click *)
    intros H. left. revert H. unfold click.
    destruct (JsMap.get roomCode rooms) as [room|] eqn:G; [|auto].
    destruct (negb _); [auto|].
    destruct (JsMap.get sid0 (players room)) as [player|] eqn:Gp; [|auto].
    destruct (_ || _)%bool; [auto|]. destruct (_ <? 50); [auto|].
    assert (Hk : forall p, JsMap.keys (JsMap.set sid0 p (players room))
                           = JsMap.keys (players room)).
    { intros p. apply JsMapFacts.keys_set_in.
      eapply JsMapFacts.get_keys; eauto. }
    cbv zeta. destruct (_ && _)%bool.
    + match goal with
      | |- context [checkAllFinished ?r ?x] =>
          pose proof (checkAllFinished_keys r x) as Hcf;
          destruct (checkAllFinished r x) as [room2 ems]
      end.
      cbn [fst players set_players] in *.
      apply in_room_update with (room := room); [assumption|].
      now rewrite Hcf, Hk.
    + cbn [fst]. apply in_room_update with (room := room); [assumption|].
      cbn [players set_players]. now rewrite Hk.
  - (* reset-room *)
    intros H. left. revert H. unfold reset_room.
    destruct (JsMap.get roomCode rooms) as [room|] eqn:G; [|auto].
    destruct (negb _); [auto|]. cbn [fst].
    apply in_room_update with (room := room); [assumption|].
    cbn [players set_players set_finishedCount set_raceStartedAt set_phase
         set_raceTimeout set_broadcastInterval].
    unfold JsMap.keys. now rewrite map_map.
  - intros H. left. now apply handleDisconnect_membership in H.
  - intros H. left. now apply handleDisconnect_membership in H.
  - (* broadcast tick *)
    intros H. left. revert H. unfold broadcast_tick.
    destruct (JsMap.get roomCode rooms) as [room|] eqn:G; [|auto].
    destruct (armed _); [|auto]. destruct (negb _); [|auto]. cbn [fst].
    apply in_room_update with (room := room); auto.
  - (* race timeout *)
    intros H. left. revert H. unfold race_timeout.
    destruct (JsMap.get roomCode rooms) as [room|] eqn:G; [|auto].
    destruct (armed _); [|auto]. cbv zeta.
    destruct (negb _); cbn [fst].
    + apply in_room_update with (room := room); auto.
    + match goal with
      | |- context [endRace ?r ?x] =>
          pose proof (endRace_keys r x) as Hcf;
          destruct (endRace r x) as [room2 ems]
      end.
      cbn [fst players set_raceTimeout] in *.
      apply in_room_update with (room := room); [assumption|].
      now rewrite Hcf.
  - (* TTL sweep *)
    intros H. left. cbn [fst] in H. eapply in_room_filter; [apply HI|exact H].
Qed.

Lemma step_single_room rooms e :
  Inv rooms -> single_room rooms -> polite rooms e ->
  single_room (fst (step rooms e)).
Proof.
  intros HI Hs Hg sid k1 k2 H1 H2.
  destruct (step_membership rooms e sid k1 HI H1) as [O1|E1];
    destruct (step_membership rooms e sid k2 HI H2) as [O2|E2].
  - now apply (Hs sid).
  - now apply (Hg sid k2 E2 k1).
  - symmetry. now apply (Hg sid k1 E1 k2).
  - destruct e; cbn [enters] in E1, E2; try contradiction;
      destruct E1 as [_ E1]; destruct E2 as [_ E2]; congruence.
Qed.

Lemma in_room_key rooms sid k : in_room rooms sid k -> In k (JsMap.keys rooms).
Proof. intros (r & G & _). eapply JsMapFacts.get_keys; eauto. Qed.

Lemma polite_run_single_room evs :
  forall rooms,
  Inv rooms -> single_room rooms -> polite_run rooms evs ->
  single_room (fst (run rooms evs)) /\ Inv (fst (run rooms evs)).
Proof.
  induction evs as [|e evs IH]; intros rooms HI Hs Hp.
  - now split.
  - destruct Hp as (Hwf & Hpol & Hrest). rewrite run_cons.
    apply IH; [now apply step_Inv|now apply step_single_room|assumption].
Qed.

Lemma two_rooms_one_socket_run :
  two_rooms_one_socket = fst (run [] two_rooms_events).
Proof. vm_compute. reflexivity. Qed.

(** C6, counterexample.  After two [create-room] messages from the one
    connection [h], the registry holds two distinct rooms and [h] is a
    player key of both. *)
Lemma C6_two_rooms_counterexample :
  reachable two_rooms_one_socket
  /\ in_room two_rooms_one_socket "h" "ABCDEF"
  /\ in_room two_rooms_one_socket "h" "ABCDEG"
  /\ "ABCDEF" <> "ABCDEG"
  /\ ~ single_room two_rooms_one_socket.
Proof.
  assert (H1 : in_room two_rooms_one_socket "h" "ABCDEF").
  { eexists. split; [reflexivity|]. simpl. auto. }
  assert (H2 : in_room two_rooms_one_socket "h" "ABCDEG").
  { eexists. split; [reflexivity|]. simpl. auto. }
  split; [|repeat split; try assumption; try discriminate].
  - rewrite two_rooms_one_socket_run.
    apply reachable_run; [constructor|]. repeat constructor.
  - intros Hs. specialize (Hs "h" "ABCDEF" "ABCDEG" H1 H2). discriminate.
Qed.

(** C6, amended.  The server never checks whether a connection is already
    in a room.  Within one room a connection is a player key at most once;
    across rooms, a connection is in at most one room at a time as long as
    every [create-room], [join-room] and [rejoin-room] is sent by a
    connection that is in no room other than the one the message puts it
    into. *)
Theorem C6_single_room_when_polite evs :
  polite_run [] evs ->
  single_room (fst (run [] evs))
  /\ (forall k room,
        JsMap.get k (fst (run [] evs)) = Some room ->
        NoDup (JsMap.keys (players room))).
Proof.
  intros Hp.
  destruct (polite_run_single_room evs [] ) as [Hs HI]; auto.
  - split; constructor.
  - intros sid k1 k2 (r & G & _). discriminate.
  - split; [exact Hs|]. intros k room G.
    destruct (Inv_get _ _ _ HI G) as (_ & _ & [Hnd _] & _). exact Hnd.
Qed.

Lemma C6_single_room_when_polite_witness : single_room race_of_two.
Proof.
  refine (proj1 (C6_single_room_when_polite
                   [ CreateRoom "a" (Some "Ann") (Some "cla") ["ABCDEF"] 0;
                     JoinRoom "b" (Some "abcdef") (Some "Bob") None;
                     StartRace "a" "ABCDEF" 1000 1000 ] _)).
  split; [reflexivity|]. split.
  { intros sid k _ k' H. apply in_room_key in H. destruct H. }
  split; [exact I|]. split.
  { intros sid k [_ <-] k' H. apply in_room_key in H.
    destruct H as [<-|[]]. reflexivity. }
  split; [exact I|]. split.
  { intros sid k []. }
  exact I.
Defined.

(** ** The shape of the final standings *)

(** [buildResultsArray] on any room: the finished players come first, in
    ascending rank; then the unfinished ones, each marked DNF, in descending
    progress, with the ranks that follow the number of finished players. *)
Lemma buildResultsArray_shape room :
  let fin := finished_sorted (players room) in
  let unf := unfinished_ranked (players room) in
  snd (buildResultsArray room)
  = map (fun e => serializePlayer (snd e)) fin
    ++ map (fun e => serializePlayer (snd e)) unf
  /\ Forall (fun e => truthy_time (finishedAt (snd e)) = true) fin
  /\ StronglySorted (fun x y => x <= y)
                    (map (fun e => num (rank (snd e))) fin)
  /\ Forall (fun e => dnf (snd e) = true
                      /\ truthy_time (finishedAt (snd e)) = false) unf
  /\ StronglySorted (fun x y => y <= x) (map (fun e => progress (snd e)) unf)
  /\ map (fun e => rank (snd e)) unf
     = map (fun i => Some (Z.of_nat (List.length fin) + Z.of_nat i))
           (seq 1 (List.length unf)).
Proof.
  intros fin unf. rewrite buildResultsArray_eq. cbn [snd].
  split; [apply map_app|]. split; [|split; [|split; [|split]]].
  - apply Forall_forall. intros e He. unfold fin, finished_sorted in He.
    apply js_sort_In in He. now apply filter_In in He.
  - apply StronglySorted_map.
    apply (StronglySorted_weaken (le_cmp by_rank)).
    + intros a b H. unfold le_cmp, by_rank in H. lia.
    + apply js_sort_sorted; unfold by_rank; intros; lia.
  - apply Forall_forall. intros e He. split.
    + now apply (proj1 (Forall_forall _ _) (assign_ranks_dnf _ _)) in He.
    + apply assign_ranks_In in He as (p & r & Hin & ->).
      apply js_sort_In in Hin. apply filter_In in Hin as [_ Hf].
      now apply negb_true_iff in Hf.
  - unfold unf, unfinished_ranked. rewrite assign_ranks_progress.
    apply by_progress_desc_sorted.
  - unfold unf, unfinished_ranked.
    now rewrite assign_ranks_rank, assign_ranks_length.
Qed.

Lemma clicks_wf sid c start n : Forall wf_event (clicks sid c start n).
Proof.
  apply Forall_forall. intros e He. unfold clicks in He.
  apply in_map_iff in He as [i [<- _]]. exact I.
Qed.

(** C2, failing run.  The run [finish_rejoin_finish] is a sequence of
    messages the server accepts; at its end the room is [Finished] with the
    two players [a] and [b], and both carry rank 2 in the room and in the
    emitted standings: rank 1 is missing and rank 2 is given twice, so the
    ranks are not a permutation of 1..2. *)
Theorem C2_ranks_after_rejoin_failing_run :
  Forall wf_event finish_rejoin_finish
  /\ exists room results,
       JsMap.get "ABCDEF" (fst (run [] finish_rejoin_finish)) = Some room
       /\ phase room = Finished
       /\ map (fun e => (fst e, finishedAt (snd e), rank (snd e), dnf (snd e)))
              (players room)
          = [ ("a", Some 12000, Some 2, false); ("b", None, Some 2, true) ]
       /\ filter is_race_finished (snd (run [] finish_rejoin_finish))
          = [ (ToRoom "ABCDEF", RaceFinished results) ]
       /\ map (fun s => (sp_socketId s, sp_rank s, sp_dnf s)) results
          = [ ("a", Some 2, false); ("b", Some 2, true) ]
       /\ ~ Permutation (map sp_rank results) [Some 1; Some 2].
Proof.
  split.
  - unfold finish_rejoin_finish.
    repeat (apply Forall_app; split); try apply clicks_wf;
      repeat constructor.
  - eexists _, _. split; [vm_compute; reflexivity|].
    split; [reflexivity|]. split; [reflexivity|].
    split; [vm_compute; reflexivity|]. split; [reflexivity|].
    cbn [map sp_rank]. intros HP.
    apply Permutation_sym in HP.
    apply (Permutation_in (Some 1)) in HP; [|now left].
    destruct HP as [H|[H|[]]]; discriminate.
Qed.

(** ** The host of a finished room leaves *)

Lemma In_keys_delete_neq {V : Type} (k k' : string) (m : JsMap.t V) :
  k' <> k -> In k' (JsMap.keys m) -> In k' (JsMap.keys (JsMap.delete k m)).
Proof.
  intros Hne. induction m as [|[k0 v0] m IH]; simpl; [tauto|].
  destruct (String.eqb k k0) eqn:E; simpl.
  - apply String.eqb_eq in E. subst k0. intros [H|H]; [congruence|assumption].
  - intros [H|H]; auto.
Qed.

Lemma not_In_keys_delete {V : Type} (k : string) (m : JsMap.t V) :
  NoDup (JsMap.keys m) -> ~ In k (JsMap.keys (JsMap.delete k m)).
Proof.
  intros Hnd H. apply JsMapFacts.keys_get in H as [v G].
  rewrite JsMapFacts.get_delete_eq in G by assumption. discriminate.
Qed.

Lemma finished_race_of_two_step :
  finished_race_of_two = fst (step race_of_two (RaceTimeoutFires "ABCDEF")).
Proof. vm_compute. reflexivity. Qed.

Lemma finished_race_of_two_reachable : reachable finished_race_of_two.
Proof.
  rewrite finished_race_of_two_step.
  apply reach_step; [apply race_of_two_reachable|exact I].
Qed.

(** C5, failing case.  When the host of a finished room disconnects while
    another player remains, the [Finished] branch of [handleDisconnect]
    removes the host from the player map and nothing else: the room stays
    registered, nothing is announced, and [hostSocketId] still names the
    connection that left, which is no longer a key of the player map. *)
Theorem C5_host_leaves_finished_room rooms sid key room other :
  reachable rooms ->
  findRoomBySocket rooms sid = Some (key, room) ->
  phase room = Finished ->
  hostSocketId room = sid ->
  other <> sid ->
  In other (JsMap.keys (players room)) ->
  exists room',
    handleDisconnect rooms sid = (JsMap.set key room' rooms, [])
    /\ JsMap.get key (fst (handleDisconnect rooms sid)) = Some room'
    /\ In other (JsMap.keys (players room'))
    /\ hostSocketId room' = sid
    /\ ~ In (hostSocketId room') (JsMap.keys (players room')).
Proof.
  intros Hr F Hph Hhost Hne Hother. pose proof (reachable_Inv _ Hr) as HI.
  destruct (findRoomBySocket_Some _ _ _ _ F) as [Hkr Hhas].
  destruct (Inv_In _ _ _ HI Hkr) as (_ & _ & [Hnd _] & _). simpl in Hnd.
  unfold JsMap.has in Hhas.
  destruct (JsMap.get sid (players room)) as [player|] eqn:Gp; [|discriminate].
  pose proof (In_keys_delete_neq sid other (players room) Hne Hother) as Hrem.
  unfold handleDisconnect. rewrite F, Gp, Hph. cbv zeta.
  destruct (JsMap.size _ =? 0) eqn:Esz.
  - apply JsMapFacts.size_zero_iff in Esz. cbn [players set_players] in Esz.
    rewrite Esz in Hrem. destruct Hrem.
  - eexists. split; [reflexivity|]. cbn [fst].
    split; [apply JsMapFacts.get_set_eq|].
    cbn [players set_players hostSocketId].
    split; [exact Hrem|]. split; [exact Hhost|].
    rewrite Hhost. now apply not_In_keys_delete.
Qed.

Lemma C5_host_leaves_finished_room_witness :
  exists room',
    handleDisconnect finished_race_of_two "a"
    = (JsMap.set "ABCDEF" room' finished_race_of_two, [])
    /\ JsMap.get "ABCDEF" (fst (handleDisconnect finished_race_of_two "a"))
       = Some room'
    /\ In "b" (JsMap.keys (players room'))
    /\ hostSocketId room' = "a"
    /\ ~ In (hostSocketId room') (JsMap.keys (players room')).
Proof.
  refine (C5_host_leaves_finished_room finished_race_of_two "a" "ABCDEF" _ "b"
            finished_race_of_two_reachable eq_refl eq_refl eq_refl _ _).
  - discriminate.
  - simpl. auto.
Defined.

(** ** Messages the server never sends *)

Lemma endRace_no_countdown room c :
  forallb (fun em => negb (is_countdown em)) (snd (endRace room c)) = true.
Proof.
  rewrite endRace_eq. now destruct (phase_eqb (phase room) Finished).
Qed.

Lemma checkAllFinished_no_countdown room c :
  forallb (fun em => negb (is_countdown em)) (snd (checkAllFinished room c))
  = true.
Proof.
  destruct (checkAllFinished_cases room c) as [-> | ->];
    [apply endRace_no_countdown|reflexivity].
Qed.

Ltac break_match_goal :=
  match goal with
  | |- context [match ?x with _ => _ end] => destruct x eqn:?
  end.

Lemma handleDisconnect_no_countdown rooms sid :
  forallb (fun em => negb (is_countdown em)) (snd (handleDisconnect rooms sid))
  = true.
Proof.
  unfold handleDisconnect.
  destruct (findRoomBySocket rooms sid) as [[key room]|]; [|reflexivity].
  destruct (JsMap.get sid (players room)); [|reflexivity].
  destruct (phase room).
  - match goal with
    | |- context [let '(a, b) := ?X in _] => destruct X as [room2 nh]
    end.
    now destruct (_ =? 0).
  - match goal with
    | |- context [let '(a, b) := ?X in _] => destruct X as [room2 nh]
    end.
    pose proof (checkAllFinished_no_countdown room2 (code room)) as H.
    now destruct (checkAllFinished room2 (code room)).
  - cbv zeta. now destruct (_ =? 0).
Qed.

(** No handler emits [first-finisher-countdown]. *)
Lemma step_no_countdown rooms e :
  forallb (fun em => negb (is_countdown em)) (snd (step rooms e)) = true.
Proof.
  destruct e; cbn [step].
  - unfold create_room. repeat break_match_goal; reflexivity.
  - unfold join_room. repeat break_match_goal; reflexivity.
  - unfold rejoin_room. repeat break_match_goal; reflexivity.
  - unfold start_race. repeat break_match_goal; reflexivity.
  - unfold click.
    destruct (JsMap.get roomCode rooms) as [room|]; [|reflexivity].
    destruct (negb _); [reflexivity|].
    destruct (JsMap.get sid (players room)); [|reflexivity].
    destruct (_ || _)%bool; [reflexivity|].
    destruct (_ <? 50); [reflexivity|].
    cbv zeta. destruct (_ && _)%bool; [|reflexivity].
    match goal with
    | |- context [checkAllFinished ?r ?x] =>
        pose proof (checkAllFinished_no_countdown r x) as H;
        destruct (checkAllFinished r x) as [room2 ems]
    end.
    exact H.
  - unfold reset_room. repeat break_match_goal; reflexivity.
  - apply handleDisconnect_no_countdown.
  - apply handleDisconnect_no_countdown.
  - unfold broadcast_tick. repeat break_match_goal; reflexivity.
  - unfold race_timeout.
    destruct (JsMap.get roomCode rooms) as [room|]; [|reflexivity].
    destruct (armed _); [|reflexivity]. cbv zeta.
    destruct (negb _); [reflexivity|].
    match goal with
    | |- context [endRace ?r ?x] =>
        pose proof (endRace_no_countdown r x) as H;
        destruct (endRace r x) as [room2 ems]
    end.
    exact H.
  - reflexivity.
Qed.

Lemma one_click_to_go_run :
  one_click_to_go = fst (run race_of_two (clicks "a" "ABCDEF" 1000 99)).
Proof. vm_compute. reflexivity. Qed.

Lemma one_click_to_go_reachable : reachable one_click_to_go.
Proof.
  rewrite one_click_to_go_run.
  apply reachable_run; [apply race_of_two_reachable|apply clicks_wf].
Qed.

(** C7, failing case.  [a] is one click from the finish in the race of two;
    its hundredth click makes it the first finisher of the room, with rank
    1, and the only message emitted is [player-finished]: no
    [first-finisher-countdown] is broadcast.  More generally no step of the
    server emits [first-finisher-countdown], whatever the registry and the
    message. *)
Theorem C7_no_first_finisher_countdown :
  (exists room player,
     JsMap.get "ABCDEF" (fst (step one_click_to_go (Click "a" "ABCDEF" 6000)))
     = Some room
     /\ JsMap.get "a" (players room) = Some player
     /\ rank player = Some 1 /\ finishedAt player = Some 6000
     /\ finishedCount room = 1 /\ phase room = Racing)
  /\ snd (step one_click_to_go (Click "a" "ABCDEF" 6000))
     = [ (ToRoom "ABCDEF", PlayerFinished "a" 1 5000) ]
  /\ (forall rooms e em,
        In em (snd (step rooms e)) -> is_countdown em = false).
Proof.
  split; [|split].
  - eexists _, _. split; [vm_compute; reflexivity|].
    repeat split; reflexivity.
  - vm_compute. reflexivity.
  - intros rooms e em Hin.
    pose proof (step_no_countdown rooms e) as H.
    apply (proj1 (forallb_forall _ _) H) in Hin.
    now apply negb_true_iff in Hin.
Qed.

(** ** The start instant and the elapsed time *)

(** The [player-finished] message of a click carries
    [now - room.raceStartedAt] for the room as it was before the click. *)
Lemma click_player_finished rooms s c now room target who rk time :
  JsMap.get c rooms = Some room ->
  In (target, PlayerFinished who rk time) (snd (click rooms s c now)) ->
  target = ToRoom c /\ who = s /\ rk = finishedCount room + 1
  /\ time = now - num (raceStartedAt room).
Proof.
  intros G. unfold click. rewrite G.
  destruct (negb _); [intros []|].
  destruct (JsMap.get s (players room)); [|intros []].
  destruct (_ || _)%bool; [intros []|].
  destruct (_ <? 50); [intros []|].
  cbv zeta. destruct (_ && _)%bool; [|intros []].
  match goal with
  | |- context [checkAllFinished ?r ?x] =>
      destruct (checkAllFinished_cases r x) as [E|E];
      [rewrite endRace_eq in E|]; rewrite E; clear E
  end.
  - destruct (phase_eqb _ Finished); cbn [snd In];
      intros [H|H]; try (inversion H; subst; auto);
      try contradiction.
    destruct H as [H|[]]. discriminate.
  - cbn [snd In]. intros [H|[]]. inversion H; subst; auto.
Qed.

(** C8, failing case.  A valid [start-race] stores in [raceStartedAt] the
    clock reading [t1] taken when the message is handled, and broadcasts
    [startTime = t2 + 3500] for the second reading [t2]; since the clock
    does not run backwards between the two readings the stored instant is
    never the scheduled one.  The time carried by [player-finished] is
    [now - raceStartedAt], measured from the start action.  In the race of
    two, started at 1000 with [startTime] 4500, the finisher at 6000 is
    given 5000, not 6000 - 4500. *)
Theorem C8_race_started_at :
  (forall rooms sid c t1 t2 room,
     JsMap.get c rooms = Some room ->
     hostSocketId room = sid ->
     phase room = Lobby ->
     players room <> [] ->
     exists room',
       JsMap.get c (fst (start_race rooms sid c t1 t2)) = Some room'
       /\ phase room' = Racing
       /\ raceStartedAt room' = Some t1
       /\ snd (start_race rooms sid c t1 t2)
          = [(ToRoom c, RaceStarted (t2 + 3500))]
       /\ (t1 <= t2 -> raceStartedAt room' <> Some (t2 + 3500)))
  /\ (forall rooms s c now room target who rk time,
        JsMap.get c rooms = Some room ->
        In (target, PlayerFinished who rk time) (snd (click rooms s c now)) ->
        who = s /\ time = now - num (raceStartedAt room))
  /\ (snd (step lobby_of_two (StartRace "a" "ABCDEF" 1000 1000))
      = [(ToRoom "ABCDEF", RaceStarted 4500)]
      /\ fst (step lobby_of_two (StartRace "a" "ABCDEF" 1000 1000))
         = race_of_two
      /\ one_click_to_go
         = fst (run race_of_two (clicks "a" "ABCDEF" 1000 99))
      /\ snd (step one_click_to_go (Click "a" "ABCDEF" 6000))
         = [(ToRoom "ABCDEF", PlayerFinished "a" 1 5000)]).
Proof.
  split; [|split].
  - intros rooms sid c t1 t2 room G Hhost Hph Hne.
    unfold start_race. rewrite G, Hph.
    apply String.eqb_eq in Hhost. rewrite Hhost. cbn [negb phase_eqb].
    assert (Hsz : (JsMap.size (players room) <? 1) = false).
    { apply Z.ltb_ge. unfold JsMap.size.
      destruct (players room); [congruence|]. simpl List.length. lia. }
    rewrite Hsz. cbn [fst snd]. eexists.
    split; [apply JsMapFacts.get_set_eq|].
    cbn [phase raceStartedAt set_raceTimeout set_broadcastInterval].
    repeat split. intros Hle Heq. inversion Heq. lia.
  - intros rooms s c now room target who rk time G Hin.
    destruct (click_player_finished _ _ _ _ _ _ _ _ _ G Hin)
      as (_ & Hw & _ & Ht). auto.
  - repeat split; vm_compute; reflexivity.
Qed.

Lemma C8_race_started_at_witness :
  exists room',
    JsMap.get "ABCDEF" (fst (start_race lobby_of_two "a" "ABCDEF" 1000 1001))
    = Some room'
    /\ raceStartedAt room' = Some 1000
    /\ snd (start_race lobby_of_two "a" "ABCDEF" 1000 1001)
       = [(ToRoom "ABCDEF", RaceStarted (1001 + 3500))]
    /\ raceStartedAt room' <> Some (1001 + 3500).
Proof.
  destruct C8_race_started_at as (H & _ & _).
  destruct (H lobby_of_two "a" "ABCDEF" 1000 1001 _ eq_refl eq_refl eq_refl)
    as (room' & G & _ & Hs & Hems & Hne).
  - discriminate.
  - exists room'. repeat split; try assumption. apply Hne. lia.
Defined.

(** * Further properties of the server *)

(** ** [sanitize] and the player literal *)

Lemma substring_0_length n s : (String.length (substring 0 n s) <= n)%nat.
Proof.
  revert s. induction n as [|n IH]; intros s.
  - destruct s; simpl; lia.
  - destruct s as [|c s]; simpl; [lia|]. specialize (IH s). lia.
Qed.

Lemma strip_markup_length s :
  (String.length (strip_markup s) <= String.length s)%nat.
Proof.
  induction s as [|c s IH]; simpl; [lia|].
  destruct (is_markup c); simpl; lia.
Qed.

Lemma strip_markup_no_markup s : no_markup (strip_markup s) = true.
Proof.
  induction s as [|c s IH]; simpl; [reflexivity|].
  destruct (is_markup c) eqn:E; simpl; [assumption|].
  now rewrite E, IH.
Qed.

Lemma strip_markup_fixed s : no_markup s = true -> strip_markup s = s.
Proof.
  induction s as [|c s IH]; simpl; [reflexivity|].
  intros H. apply andb_true_iff in H as [Hc Hs].
  apply negb_true_iff in Hc. rewrite Hc. now rewrite IH.
Qed.

Lemma sanitize_length str : (String.length (sanitize str) <= 20)%nat.
Proof.
  destruct str as [s|]; simpl; [|lia].
  etransitivity; [apply strip_markup_length|apply substring_0_length].
Qed.

Lemma sanitize_no_markup str : no_markup (sanitize str) = true.
Proof.
  destruct str as [s|]; simpl; [apply strip_markup_no_markup|reflexivity].
Qed.

Lemma substring_0_all n s : (String.length s <= n)%nat -> substring 0 n s = s.
Proof.
  revert s. induction n as [|n IH]; intros s Hn.
  - destruct s; simpl in *; [reflexivity|lia].
  - destruct s as [|c s]; simpl in *; [reflexivity|].
    rewrite IH by lia. reflexivity.
Qed.

(** X1. [sanitize] returns at most 20 characters, none of them a markup
    character; a value that is not a string gives the empty string, and a
    string of at most 20 characters that has no markup character and no
    white space at either end is returned unchanged. *)
Theorem X1_sanitize_bounds :
  (forall str,
     (String.length (sanitize str) <= 20)%nat
     /\ no_markup (sanitize str) = true)
  /\ sanitize None = ""
  /\ (forall s,
        trim s = s -> (String.length s <= 20)%nat -> no_markup s = true ->
        sanitize (Some s) = s).
Proof.
  split; [|split].
  - intros str. split; [apply sanitize_length|apply sanitize_no_markup].
  - reflexivity.
  - intros s Ht Hl Hm. simpl. rewrite Ht.
    rewrite substring_0_all by assumption. now apply strip_markup_fixed.
Qed.

Lemma X1_sanitize_bounds_witness : sanitize (Some "Ann") = "Ann".
Proof.
  destruct X1_sanitize_bounds as (_ & _ & H).
  apply H; [reflexivity|simpl; lia|reflexivity].
Defined.

Lemma getNextColor_palette room : In (getNextColor room) COLOR_PALETTE.
Proof.
  unfold getNextColor.
  destruct (find _ COLOR_PALETTE) as [c|] eqn:F.
  - now apply find_some in F.
  - apply nth_In.
    assert (H : 0 <= JsMap.size (players room) mod 16 < 16)
      by (apply Z.mod_pos_bound; lia).
    change (List.length COLOR_PALETTE) with 16%nat. lia.
Qed.

Lemma safe_model_valid cm : In (safe_model cm) CAR_MODELS.
Proof.
  unfold safe_model. destruct cm as [m|]; [|simpl; auto].
  destruct (mem_string m CAR_MODELS) eqn:E; [|simpl; auto].
  unfold mem_string in E. apply existsb_exists in E as [x [Hin Heq]].
  apply String.eqb_eq in Heq. now subst.
Qed.

Lemma new_player_identity sid nm cm color :
  In color COLOR_PALETTE -> identity_ok sid (new_player sid nm cm color).
Proof.
  intros Hc. unfold identity_ok, new_player. cbn [socketId name carModel carColor].
  split; [reflexivity|]. split; [|split; [apply safe_model_valid|exact Hc]].
  destruct (truthy_string (sanitize nm)) eqn:E.
  - split; [|split; [apply sanitize_length|apply sanitize_no_markup]].
    intros H. rewrite H in E. discriminate.
  - split; [discriminate|]. split; [simpl; lia|reflexivity].
Qed.

Lemma new_player_default sid nm cm color :
  race_fields_default (new_player sid nm cm color).
Proof. repeat split. Qed.

(** ** A second invariant: rooms are never empty, races start from zero,
    finish ranks are unique *)

Lemma In_delete_NoDup {V : Type} (k : string) (m : JsMap.t V) e :
  NoDup (JsMap.keys m) -> In e (JsMap.delete k m) -> In e m /\ fst e <> k.
Proof.
  induction m as [|[k' v'] m IH]; simpl; [tauto|].
  intros Hnd. inversion Hnd as [|? ? Hnotin Hnd']; subst.
  destruct (String.eqb k k') eqn:E; simpl.
  - apply String.eqb_eq in E. subst k'. intros Hin. split; [auto|].
    intros <-. apply Hnotin. now apply in_map.
  - apply String.eqb_neq in E. intros [<-|Hin].
    + split; [auto|]. simpl. congruence.
    + destruct (IH Hnd' Hin). auto.
Qed.

Lemma set_not_nil {V : Type} (k : string) (v : V) m : JsMap.set k v m <> [].
Proof.
  destruct m as [|[k' v'] m]; simpl; [discriminate|].
  destruct (String.eqb k k'); discriminate.
Qed.

Lemma Sound_In rooms k r : Sound rooms -> In (k, r) rooms -> entry_sound (k, r).
Proof. intros H Hin. now apply (proj1 (Forall_forall _ _) H). Qed.

Lemma Sound_update rooms k r r' :
  Sound rooms -> In (k, r) rooms -> room_sound r' ->
  Sound (JsMap.set k r' rooms).
Proof.
  intros HS Hin Hok. apply JsMapFacts.Forall_set; [assumption|].
  split; [|exact Hok]. apply (Sound_In _ _ _ HS Hin).
Qed.

(** Deleting the entry that was just written leaves only entries of the
    registry before. *)
Lemma Sound_delete_set rooms k r :
  NoDup (JsMap.keys rooms) -> Sound rooms ->
  Sound (JsMap.delete k (JsMap.set k r rooms)).
Proof.
  intros Hnd HS. apply Forall_forall. intros e He.
  apply In_delete_NoDup in He as [He Hne];
    [|now apply JsMapFacts.NoDup_keys_set].
  apply JsMapFacts.In_set in He as [->|He]; [now simpl in Hne|].
  now apply (proj1 (Forall_forall _ _) HS).
Qed.

Lemma finish_ranks_ok_mono fc fc' ps :
  finish_ranks_ok fc ps -> fc <= fc' -> finish_ranks_ok fc' ps.
Proof.
  intros [Hr Hu] Hle. split; [|exact Hu].
  intros k p Hin Hf. destruct (Hr k p Hin Hf) as (r & Hrk & Hb).
  exists r. split; [assumption|lia].
Qed.

(** Replacing a record by one with the same finish stamp and rank. *)
Lemma finish_ranks_ok_same fc ps sid p p' :
  NoDup (JsMap.keys ps) -> finish_ranks_ok fc ps ->
  JsMap.get sid ps = Some p ->
  finishedAt p' = finishedAt p -> rank p' = rank p ->
  finish_ranks_ok fc (JsMap.set sid p' ps).
Proof.
  intros Hnd [Hr Hu] G Hf Hrk. apply JsMapFacts.get_In in G.
  assert (Hold : forall k q, In (k, q) (JsMap.set sid p' ps) ->
            exists q0, In (k, q0) ps /\ finishedAt q = finishedAt q0
                       /\ rank q = rank q0).
  { intros k q Hin. apply In_set_NoDup in Hin as [Heq|[Hin _]]; [|eauto|assumption].
    inversion Heq; subst. eauto. }
  split.
  - intros k q Hin Hfin. destruct (Hold k q Hin) as (q0 & Hin0 & Hf0 & Hr0).
    rewrite Hf0 in Hfin. rewrite Hr0. eauto.
  - intros k1 q1 k2 q2 H1 H2 Hf1 Hf2 Heq.
    destruct (Hold k1 q1 H1) as (a & Ha & Hfa & Hra).
    destruct (Hold k2 q2 H2) as (b & Hb & Hfb & Hrb).
    apply (Hu k1 a k2 b); congruence.
Qed.

(** Replacing a record by an unfinished one. *)
Lemma finish_ranks_ok_unfinished fc ps sid p' :
  NoDup (JsMap.keys ps) -> finish_ranks_ok fc ps ->
  truthy_time (finishedAt p') = false ->
  finish_ranks_ok fc (JsMap.set sid p' ps).
Proof.
  intros Hnd [Hr Hu] Hf.
  assert (Hold : forall k q, In (k, q) (JsMap.set sid p' ps) ->
            truthy_time (finishedAt q) = true -> In (k, q) ps).
  { intros k q Hin Hq. apply In_set_NoDup in Hin as [Heq|[Hin _]];
      [|assumption|assumption].
    inversion Heq; subst. congruence. }
  split.
  - intros k q Hin Hq. eauto.
  - intros k1 q1 k2 q2 H1 H2 Hf1 Hf2. eauto.
Qed.

(** The record of a player who just crossed the line, with the next rank. *)
Lemma finish_ranks_ok_finisher fc ps sid p' :
  NoDup (JsMap.keys ps) -> finish_ranks_ok fc ps -> 0 <= fc ->
  rank p' = Some (fc + 1) ->
  finish_ranks_ok (fc + 1) (JsMap.set sid p' ps).
Proof.
  intros Hnd [Hr Hu] Hfc Hrk.
  assert (Hcases : forall k q, In (k, q) (JsMap.set sid p' ps) ->
            (k = sid /\ q = p') \/ (In (k, q) ps /\ k <> sid)).
  { intros k q Hin. apply In_set_NoDup in Hin as [Heq|[Hin Hne]];
      [inversion Heq; auto|auto|assumption]. }
  split.
  - intros k q Hin Hq. destruct (Hcases k q Hin) as [[-> ->]|[Hin0 _]].
    + exists (fc + 1). split; [assumption|lia].
    + destruct (Hr k q Hin0 Hq) as (r & Hr' & Hb). exists r. split; [auto|lia].
  - intros k1 q1 k2 q2 H1 H2 Hf1 Hf2 Heq.
    destruct (Hcases k1 q1 H1) as [[-> ->]|[Ha Hna]];
      destruct (Hcases k2 q2 H2) as [[-> ->]|[Hb Hnb]].
    + reflexivity.
    + destruct (Hr k2 q2 Hb Hf2) as (r & Hr' & Hbd).
      rewrite Hrk, Hr' in Heq. inversion Heq. lia.
    + destruct (Hr k1 q1 Ha Hf1) as (r & Hr' & Hbd).
      rewrite Hrk, Hr' in Heq. inversion Heq. lia.
    + now apply (Hu k1 q1 k2 q2).
Qed.

Lemma finish_ranks_ok_delete fc ps sid :
  finish_ranks_ok fc ps -> finish_ranks_ok fc (JsMap.delete sid ps).
Proof.
  intros [Hr Hu]. split.
  - intros k p Hin. apply JsMapFacts.In_delete in Hin. eauto.
  - intros k1 p1 k2 p2 H1 H2.
    apply JsMapFacts.In_delete in H1, H2. eauto.
Qed.

(** What the write-back of [buildResultsArray] leaves in the player map:
    an entry either is untouched or is an unfinished entry with [rank] and
    [dnf] assigned. *)
Lemma write_back_entry ps e :
  In e (write_back (unfinished_ranked ps) ps) ->
  In e ps
  \/ exists p r,
       In (fst e, p) ps /\ truthy_time (finishedAt p) = false
       /\ snd e = set_dnf (set_rank p (Some r)) true.
Proof.
  intros H. apply write_back_In in H as [H|[H _]]; [|now left].
  right. apply assign_ranks_In in H as (p & r & Hin & Heq).
  apply js_sort_In in Hin. apply filter_In in Hin as [Hin Hf].
  apply negb_true_iff in Hf. exists p, r. auto.
Qed.

Lemma room_sound_endRace room c :
  room_sound room -> phase room <> Lobby -> room_sound (fst (endRace room c)).
Proof.
  intros (Hne & Hfc & Hlobby & [Hr Hu] & Hid) Hph. rewrite endRace_eq.
  destruct (phase_eqb (phase room) Finished); cbn [fst].
  { repeat split; assumption. }
  assert (Hfin : forall k q,
            In (k, q) (write_back (unfinished_ranked (players room))
                                  (players room)) ->
            truthy_time (finishedAt q) = true -> In (k, q) (players room)).
  { intros k q Hin Hq. apply write_back_entry in Hin as [Hin|Hin]; [auto|].
    destruct Hin as (p & r & _ & Hf & Heq). simpl in Heq. subst q.
    simpl in Hq. congruence. }
  split; [|split; [|split; [|split]]];
    cbn [players finishedCount phase].
  - intros H. apply Hne. apply (f_equal (@List.length _)) in H.
    rewrite write_back_length in H. now destruct (players room).
  - exact Hfc.
  - discriminate.
  - split.
    + intros k q Hin Hq. eauto.
    + intros k1 q1 k2 q2 H1 H2 Hf1 Hf2. eauto.
  - apply Forall_forall. intros e He.
    apply write_back_entry in He as [He|(p & r & Hin & _ & Heq)].
    + now apply (proj1 (Forall_forall _ _) Hid).
    + apply (proj1 (Forall_forall _ _) Hid) in Hin.
      unfold identity_ok in *. rewrite Heq. exact Hin.
Qed.

Lemma room_sound_checkAllFinished room c :
  room_sound room -> phase room <> Lobby ->
  room_sound (fst (checkAllFinished room c)).
Proof.
  intros Hs Hph. destruct (checkAllFinished_cases room c) as [-> | ->];
    [now apply room_sound_endRace|exact Hs].
Qed.

Lemma room_sound_add_player room sid p :
  NoDup (JsMap.keys (players room)) -> room_sound room ->
  race_fields_default p -> identity_ok sid p ->
  room_sound (set_players room (JsMap.set sid p (players room))).
Proof.
  intros Hnd (Hne & Hfc & Hlobby & Hranks & Hid) Hdef Hidp.
  split; [|split; [|split; [|split]]];
    cbn [players finishedCount phase set_players].
  - apply set_not_nil.
  - exact Hfc.
  - intros Hph. apply JsMapFacts.Forall_set; auto.
  - apply finish_ranks_ok_unfinished; auto.
    destruct Hdef as (_ & _ & _ & Hf & _). now rewrite Hf.
  - apply JsMapFacts.Forall_set; auto.
Qed.

Lemma create_room_Sound rooms sid nm cm draws now :
  Sound rooms -> forallb is_nanoid_code draws = true ->
  Sound (fst (create_room rooms sid nm cm draws now)).
Proof.
  intros HS Hd. unfold create_room.
  destruct (generateRoomCode rooms draws) as [c|] eqn:G; cbn [fst];
    [|assumption].
  apply generateRoomCode_fresh in G as [_ Hc]; [|assumption].
  apply JsMapFacts.Forall_set; [assumption|].
  split; [exact Hc|].
  split; [|split; [|split; [|split]]];
    cbn [snd players finishedCount phase].
  - discriminate.
  - lia.
  - intros _. repeat constructor.
  - split.
    + intros k p [H|[]]. inversion H; subst. discriminate.
    + intros k1 p1 k2 p2 [H1|[]] [H2|[]]. congruence.
  - constructor; [|constructor]. apply new_player_identity. simpl. auto.
Qed.

Lemma join_room_Sound rooms sid c nm cm :
  Inv rooms -> Sound rooms -> Sound (fst (join_room rooms sid c nm cm)).
Proof.
  intros HI HS. unfold join_room.
  destruct (JsMap.get (normalize_code c) rooms) as [room|] eqn:G;
    [|assumption].
  destruct (negb _); [assumption|]. destruct (16 <=? _); [assumption|].
  cbn [fst]. apply JsMapFacts.get_In in G.
  apply (Sound_update rooms _ room); auto.
  destruct (Inv_In _ _ _ HI G) as (_ & _ & [Hnd _] & _).
  apply room_sound_add_player; auto.
  - apply (Sound_In _ _ _ HS G).
  - apply new_player_default.
  - apply new_player_identity, getNextColor_palette.
Qed.

Lemma rejoin_room_Sound rooms sid c nm cm :
  Inv rooms -> Sound rooms -> Sound (fst (rejoin_room rooms sid c nm cm)).
Proof.
  intros HI HS. unfold rejoin_room.
  destruct (JsMap.get (normalize_code c) rooms) as [room|] eqn:G;
    [|assumption].
  cbn [fst]. apply JsMapFacts.get_In in G.
  apply (Sound_update rooms _ room); auto.
  destruct (Inv_In _ _ _ HI G) as (_ & _ & [Hnd _] & _).
  apply room_sound_add_player; auto.
  - apply (Sound_In _ _ _ HS G).
  - apply new_player_default.
  - apply new_player_identity, getNextColor_palette.
Qed.

Lemma start_race_Sound rooms sid roomCode t1 t2 :
  Sound rooms -> Sound (fst (start_race rooms sid roomCode t1 t2)).
Proof.
  intros HS. unfold start_race.
  destruct (JsMap.get roomCode rooms) as [room|] eqn:G; [|assumption].
  destruct (negb _); [assumption|].
  destruct (negb (phase_eqb (phase room) Lobby)) eqn:Ep; [assumption|].
  destruct (_ <? 1); [assumption|]. cbn [fst].
  apply negb_false_iff, phase_eqb_eq in Ep.
  apply JsMapFacts.get_In in G. apply (Sound_update rooms _ room); auto.
  destruct (Sound_In _ _ _ HS G) as (_ & Hne & Hfc & Hlobby & Hranks & Hid).
  cbn [snd] in *. specialize (Hlobby Ep).
  split; [|split; [|split; [|split]]];
    cbn [players finishedCount phase set_raceTimeout set_broadcastInterval
         set_finishedCount set_raceStartedAt set_phase].
  - exact Hne.
  - lia.
  - discriminate.
  - assert (Hnone : forall k p, In (k, p) (players room) ->
              truthy_time (finishedAt p) = true -> False).
    { intros k p Hin Hf.
      apply (proj1 (Forall_forall _ _) Hlobby) in Hin.
      destruct Hin as (_ & _ & _ & Hfa & _). simpl in Hfa.
      rewrite Hfa in Hf. discriminate. }
    split.
    + intros k p Hin Hf. destruct (Hnone k p Hin Hf).
    + intros k1 p1 k2 p2 H1 _ Hf1. destruct (Hnone k1 p1 H1 Hf1).
  - exact Hid.
Qed.

Lemma identity_Forall_set ps sid p p' :
  Forall (fun e => identity_ok (fst e) (snd e)) ps ->
  JsMap.get sid ps = Some p ->
  socketId p' = socketId p -> name p' = name p ->
  carModel p' = carModel p -> carColor p' = carColor p ->
  Forall (fun e => identity_ok (fst e) (snd e)) (JsMap.set sid p' ps).
Proof.
  intros Hall G H1 H2 H3 H4. apply JsMapFacts.Forall_set; [assumption|].
  apply JsMapFacts.get_In in G. apply (proj1 (Forall_forall _ _) Hall) in G.
  unfold identity_ok in *. cbn [fst snd] in *. rewrite H1, H2, H3, H4.
  exact G.
Qed.

Lemma click_Sound rooms sid roomCode now :
  Inv rooms -> Sound rooms -> Sound (fst (click rooms sid roomCode now)).
Proof.
  intros HI HS. unfold click.
  destruct (JsMap.get roomCode rooms) as [room|] eqn:G; [|assumption].
  destruct (negb (phase_eqb (phase room) Racing)) eqn:Ep; [assumption|].
  apply negb_false_iff, phase_eqb_eq in Ep.
  destruct (JsMap.get sid (players room)) as [player|] eqn:Gp; [|assumption].
  destruct (_ || _)%bool; [assumption|].
  destruct (_ <? 50); [assumption|].
  apply JsMapFacts.get_In in G.
  destruct (Inv_In _ _ _ HI G) as (_ & _ & [Hnd _] & _). simpl in Hnd.
  destruct (Sound_In _ _ _ HS G) as (_ & Hne & Hfc & Hlobby & Hranks & Hid).
  cbn [snd] in *. cbv zeta.
  destruct ((100 <=? clickCount (accept_click player now))
            && negb (truthy_time (finishedAt (accept_click player now))))%bool
    eqn:Efin.
  - match goal with
    | |- context [checkAllFinished ?r ?c] =>
        pose proof (room_sound_checkAllFinished r c) as Hcf;
        destruct (checkAllFinished r c) as [room2 ems]
    end.
    cbn [fst] in *. apply (Sound_update rooms _ room); auto.
    apply Hcf; [|cbn [phase set_players set_finishedCount]; congruence].
    split; [|split; [|split; [|split]]];
      cbn [players finishedCount phase set_players set_finishedCount].
    + apply set_not_nil.
    + lia.
    + intros H. congruence.
    + apply finish_ranks_ok_finisher; auto.
    + apply (identity_Forall_set _ _ player); auto.
  - cbn [fst]. apply (Sound_update rooms _ room); auto.
    split; [|split; [|split; [|split]]];
      cbn [players finishedCount phase set_players].
    + apply set_not_nil.
    + exact Hfc.
    + intros H. congruence.
    + apply (finish_ranks_ok_same _ _ _ player); auto.
    + apply (identity_Forall_set _ _ player); auto.
Qed.

Lemma reset_room_Sound rooms sid roomCode :
  Sound rooms -> Sound (fst (reset_room rooms sid roomCode)).
Proof.
  intros HS. unfold reset_room.
  destruct (JsMap.get roomCode rooms) as [room|] eqn:G; [|assumption].
  destruct (negb _); [assumption|]. cbn [fst].
  apply JsMapFacts.get_In in G. apply (Sound_update rooms _ room); auto.
  destruct (Sound_In _ _ _ HS G) as (_ & Hne & _ & _ & _ & Hid).
  cbn [snd] in *.
  split; [|split; [|split; [|split]]];
    cbn [players finishedCount phase set_players set_finishedCount
         set_raceStartedAt set_phase set_raceTimeout set_broadcastInterval].
  - destruct (players room); [congruence|discriminate].
  - lia.
  - intros _. apply Forall_forall. intros e He.
    apply in_map_iff in He as [e0 [<- _]]. repeat split.
  - assert (Hnone : forall k p,
              In (k, p) (map (fun e => (fst e, reset_player (snd e)))
                             (players room)) ->
              truthy_time (finishedAt p) = true -> False).
    { intros k p Hin Hf. apply in_map_iff in Hin as [e0 [Heq _]].
      inversion Heq; subst. discriminate. }
    split.
    + intros k p Hin Hf. destruct (Hnone k p Hin Hf).
    + intros k1 p1 k2 p2 H1 _ Hf1. destruct (Hnone k1 p1 H1 Hf1).
  - apply Forall_forall. intros e He.
    apply in_map_iff in He as [e0 [<- Hin]].
    now apply (proj1 (Forall_forall _ _) Hid) in Hin.
Qed.

Lemma room_sound_delete room sid :
  room_sound room ->
  JsMap.delete sid (players room) <> [] ->
  room_sound (set_players room (JsMap.delete sid (players room))).
Proof.
  intros (Hne & Hfc & Hlobby & Hranks & Hid) Hrem.
  split; [|split; [|split; [|split]]];
    cbn [players finishedCount phase set_players]; auto.
  - intros Hph. apply JsMapFacts.Forall_delete. auto.
  - now apply finish_ranks_ok_delete.
  - now apply JsMapFacts.Forall_delete.
Qed.

Lemma handleDisconnect_Sound rooms sid :
  Inv rooms -> Sound rooms -> Sound (fst (handleDisconnect rooms sid)).
Proof.
  intros HI HS. unfold handleDisconnect.
  destruct (findRoomBySocket rooms sid) as [[key room]|] eqn:F; [|assumption].
  apply findRoomBySocket_Some in F as [Hin _].
  destruct (JsMap.get sid (players room)) as [player|] eqn:Gp; [|assumption].
  destruct (Inv_In _ _ _ HI Hin) as (Hcode & _ & [Hnd _] & _).
  simpl in Hcode, Hnd.
  destruct (Sound_In _ _ _ HS Hin) as (_ & Hsound). cbn [snd] in Hsound.
  destruct (phase room) eqn:Hph.
  - (* lobby *)
    match goal with
    | |- context [let '(a, b) := ?X in _] =>
        assert (Hr2 : players (fst X) = JsMap.delete sid (players room)
                      /\ (JsMap.delete sid (players room) <> [] ->
                          room_sound (fst X)));
        [|destruct X as [room2 newHostId]]
    end.
    { pose proof (room_sound_delete room sid Hsound) as Hd.
      destruct (_ && _)%bool; [|now split].
      match goal with
      | |- context [match ?K with [] => _ | _ :: _ => _ end] => destruct K
      end; now split. }
    cbn [fst] in Hr2. destruct Hr2 as [Hps Hok].
    destruct (JsMap.size (players room2) =? 0) eqn:Esz; cbn [fst].
    + rewrite Hcode. apply Sound_delete_set; [apply HI|assumption].
    + apply (Sound_update rooms key room); auto. apply Hok.
      rewrite <- Hps. intros H. rewrite H in Esz. discriminate.
  - (* racing *)
    match goal with
    | |- context [let '(a, b) := ?X in _] =>
        assert (Hr2 : room_sound (fst X) /\ phase (fst X) = Racing);
        [|destruct X as [room2 newHostId]]
    end.
    { assert (Hok1 : room_sound
                (set_players room
                   (JsMap.set sid (set_disconnected player true)
                              (players room)))).
      { destruct Hsound as (Hne & Hfc & Hlobby & Hranks & Hid).
        split; [|split; [|split; [|split]]];
          cbn [players finishedCount phase set_players]; auto.
        - apply set_not_nil.
        - intros H. congruence.
        - apply (finish_ranks_ok_same _ _ _ player); auto.
        - apply (identity_Forall_set _ _ player); auto. }
      destruct (_ && _)%bool; [|now split].
      destruct (find _ _) as [next|]; [|now split].
      destruct (truthy_string next); now split. }
    cbn [fst] in Hr2. destruct Hr2 as [Hok Hph2].
    pose proof (room_sound_checkAllFinished room2 (code room) Hok) as Hcf.
    destruct (checkAllFinished room2 (code room)) as [room3 ems].
    cbn [fst] in *. apply (Sound_update rooms key room); auto.
    apply Hcf. congruence.
  - (* finished *)
    cbv zeta.
    destruct (JsMap.size _ =? 0) eqn:Esz; cbn [fst].
    + rewrite Hcode. apply Sound_delete_set; [apply HI|assumption].
    + apply (Sound_update rooms key room); auto.
      apply room_sound_delete; [assumption|].
      cbn [players set_players] in Esz. intros H. rewrite H in Esz.
      discriminate.
Qed.

Lemma broadcast_tick_Sound rooms roomCode :
  Sound rooms -> Sound (fst (broadcast_tick rooms roomCode)).
Proof.
  intros HS. unfold broadcast_tick.
  destruct (JsMap.get roomCode rooms) as [room|] eqn:G; [|assumption].
  destruct (armed _); [|assumption]. destruct (negb _); [|assumption].
  cbn [fst]. apply JsMapFacts.get_In in G.
  apply (Sound_update rooms _ room); auto.
  apply (Sound_In _ _ _ HS G).
Qed.

Lemma race_timeout_Sound rooms roomCode :
  Sound rooms -> Sound (fst (race_timeout rooms roomCode)).
Proof.
  intros HS. unfold race_timeout.
  destruct (JsMap.get roomCode rooms) as [room|] eqn:G; [|assumption].
  destruct (armed _); [|assumption]. cbv zeta.
  apply JsMapFacts.get_In in G.
  destruct (Sound_In _ _ _ HS G) as (_ & Hsound). cbn [snd] in Hsound.
  destruct (negb (phase_eqb (phase (set_raceTimeout room TDead)) Racing))
    eqn:Ep; cbn [fst].
  - apply (Sound_update rooms _ room); auto.
  - apply negb_false_iff, phase_eqb_eq in Ep.
    pose proof (room_sound_endRace (set_raceTimeout room TDead) roomCode)
      as Hcf.
    destruct (endRace (set_raceTimeout room TDead) roomCode) as [room2 ems].
    cbn [fst] in *. apply (Sound_update rooms _ room); auto.
    apply Hcf; [exact Hsound|congruence].
Qed.

Theorem step_Sound rooms e :
  Inv rooms -> Sound rooms -> wf_event e -> Sound (fst (step rooms e)).
Proof.
  intros HI HS Hwf. destruct e; cbn [step].
  - now apply create_room_Sound.
  - now apply join_room_Sound.
  - now apply rejoin_room_Sound.
  - now apply start_race_Sound.
  - now apply click_Sound.
  - now apply reset_room_Sound.
  - now apply handleDisconnect_Sound.
  - now apply handleDisconnect_Sound.
  - now apply broadcast_tick_Sound.
  - now apply race_timeout_Sound.
  - cbn [fst]. apply Forall_forall. intros x Hx.
    apply filter_In in Hx as [Hx _].
    now apply (proj1 (Forall_forall _ _) HS).
Qed.

Theorem reachable_Sound rooms : reachable rooms -> Sound rooms.
Proof.
  induction 1 as [|rooms e Hr IH Hwf]; [constructor|].
  apply step_Sound; auto using reachable_Inv.
Qed.

(** X2. In every reachable registry each player record is stored under its
    own socket id and carries a non-empty display name of at most 20
    characters without markup characters, a car model of the fixed list and
    a colour of the palette. *)
Theorem X2_player_identity rooms k room sid p :
  reachable rooms ->
  JsMap.get k rooms = Some room ->
  JsMap.get sid (players room) = Some p ->
  socketId p = sid
  /\ name p <> ""
  /\ (String.length (name p) <= 20)%nat
  /\ no_markup (name p) = true
  /\ In (carModel p) CAR_MODELS
  /\ In (carColor p) COLOR_PALETTE.
Proof.
  intros Hr G Gp. pose proof (reachable_Sound _ Hr) as HS.
  apply JsMapFacts.get_In in G, Gp.
  destruct (Sound_In _ _ _ HS G) as (_ & _ & _ & _ & _ & Hid).
  apply (proj1 (Forall_forall _ _) Hid) in Gp.
  destruct Gp as (H1 & (H2 & H3 & H4) & H5 & H6). auto 10.
Qed.

Lemma X2_player_identity_witness :
  exists p,
    socketId p = "b" /\ name p = "Bob" /\ In (carModel p) CAR_MODELS
    /\ In (carColor p) COLOR_PALETTE.
Proof.
  assert (H : exists room p,
             JsMap.get "ABCDEF" race_of_two = Some room
             /\ JsMap.get "b" (players room) = Some p /\ name p = "Bob").
  { eexists _, _. repeat split; reflexivity. }
  destruct H as (room & p & G & Gp & Hn).
  destruct (X2_player_identity race_of_two "ABCDEF" room "b" p
              race_of_two_reachable G Gp) as (H1 & _ & _ & _ & H5 & H6).
  exists p. auto.
Defined.

(** X3. In every reachable registry a room is registered under a
    six-character code of the nanoid alphabet, which is also the code the
    room carries, and its player map is not empty: no room without a player
    record is ever registered. *)
Theorem X3_rooms_coded_and_inhabited rooms k room :
  reachable rooms ->
  JsMap.get k rooms = Some room ->
  code room = k
  /\ String.length k = 6%nat
  /\ all_in_alphabet k = true
  /\ players room <> []
  /\ 1 <= JsMap.size (players room).
Proof.
  intros Hr G. pose proof (reachable_Sound _ Hr) as HS.
  destruct (Inv_get _ _ _ (reachable_Inv _ Hr) G) as (Hcode & _).
  apply JsMapFacts.get_In in G.
  destruct (Sound_In _ _ _ HS G) as (Hk & Hne & _). cbn [fst snd] in *.
  unfold is_nanoid_code in Hk. apply andb_true_iff in Hk as [Hlen Hal].
  apply Nat.eqb_eq in Hlen. repeat split; auto.
  unfold JsMap.size. destruct (players room); [congruence|].
  simpl List.length. lia.
Qed.

Lemma X3_rooms_coded_and_inhabited_witness :
  exists room,
    JsMap.get "ABCDEF" race_of_two = Some room
    /\ code room = "ABCDEF" /\ players room <> [].
Proof.
  assert (H : exists room, JsMap.get "ABCDEF" race_of_two = Some room).
  { eexists. reflexivity. }
  destruct H as (room & G).
  destruct (X3_rooms_coded_and_inhabited race_of_two "ABCDEF" room
              race_of_two_reachable G) as (H1 & _ & _ & H4 & _).
  exists room. auto.
Defined.

(** X4. Every race starts from zero: in every reachable registry all
    players of a room in the lobby have progress 0, click counter 0, no
    finish stamp, no rank and are neither DNF nor disconnected, whatever
    races, resets, joins and departures came before. *)
Theorem X4_lobby_players_fresh rooms k room sid p :
  reachable rooms ->
  JsMap.get k rooms = Some room ->
  phase room = Lobby ->
  JsMap.get sid (players room) = Some p ->
  progress p = 0 /\ clickCount p = 0 /\ lastClickTime p = 0
  /\ finishedAt p = None /\ rank p = None
  /\ dnf p = false /\ disconnected p = false.
Proof.
  intros Hr G Hph Gp. pose proof (reachable_Sound _ Hr) as HS.
  apply JsMapFacts.get_In in G, Gp.
  destruct (Sound_In _ _ _ HS G) as (_ & _ & _ & Hlobby & _).
  apply (proj1 (Forall_forall _ _) (Hlobby Hph)) in Gp. exact Gp.
Qed.

Lemma X4_lobby_players_fresh_witness :
  exists p,
    progress p = 0 /\ clickCount p = 0 /\ lastClickTime p = 0
    /\ finishedAt p = None /\ rank p = None
    /\ dnf p = false /\ disconnected p = false.
Proof.
  assert (H : exists room p,
             JsMap.get "ABCDEF"
               (fst (reset_room finished_race_of_two "a" "ABCDEF"))
             = Some room
             /\ phase room = Lobby
             /\ JsMap.get "b" (players room) = Some p).
  { eexists _, _. repeat split; reflexivity. }
  destruct H as (room & p & G & Hph & Gp). exists p.
  refine (X4_lobby_players_fresh _ "ABCDEF" room "b" p _ G Hph Gp).
  apply (reach_step finished_race_of_two (ResetRoom "a" "ABCDEF"));
    [apply finished_race_of_two_reachable|exact I].
Defined.

(** X5. Finish ranks are unique: in every reachable registry each player
    with a finish stamp has a rank between 1 and the room's
    [finishedCount], and two different players with a finish stamp never
    carry the same rank. *)
Theorem X5_finish_ranks_unique rooms k room :
  reachable rooms ->
  JsMap.get k rooms = Some room ->
  0 <= finishedCount room
  /\ (forall sid p,
        JsMap.get sid (players room) = Some p ->
        truthy_time (finishedAt p) = true ->
        exists r, rank p = Some r /\ 1 <= r <= finishedCount room)
  /\ (forall sid1 p1 sid2 p2,
        JsMap.get sid1 (players room) = Some p1 ->
        JsMap.get sid2 (players room) = Some p2 ->
        truthy_time (finishedAt p1) = true ->
        truthy_time (finishedAt p2) = true ->
        rank p1 = rank p2 -> sid1 = sid2).
Proof.
  intros Hr G. pose proof (reachable_Sound _ Hr) as HS.
  apply JsMapFacts.get_In in G.
  destruct (Sound_In _ _ _ HS G) as (_ & _ & Hfc & _ & [Hrk Hu] & _).
  cbn [snd] in *. split; [exact Hfc|]. split.
  - intros sid p Gp. apply JsMapFacts.get_In in Gp. eauto.
  - intros sid1 p1 sid2 p2 G1 G2.
    apply JsMapFacts.get_In in G1, G2. eauto.
Qed.

Lemma X5_finish_ranks_unique_witness :
  exists room p r,
    JsMap.get "ABCDEF" (fst (step one_click_to_go (Click "a" "ABCDEF" 6000)))
    = Some room
    /\ JsMap.get "a" (players room) = Some p
    /\ rank p = Some r /\ 1 <= r <= finishedCount room.
Proof.
  assert (H : exists room p,
             JsMap.get "ABCDEF"
               (fst (step one_click_to_go (Click "a" "ABCDEF" 6000)))
             = Some room
             /\ JsMap.get "a" (players room) = Some p
             /\ truthy_time (finishedAt p) = true).
  { eexists _, _. split; [vm_compute; reflexivity|]. split; reflexivity. }
  destruct H as (room & p & G & Gp & Hf).
  assert (Hr : reachable
                 (fst (step one_click_to_go (Click "a" "ABCDEF" 6000)))).
  { apply (reach_step one_click_to_go (Click "a" "ABCDEF" 6000));
      [apply one_click_to_go_reachable|exact I]. }
  destruct (X5_finish_ranks_unique _ "ABCDEF" room Hr G) as (_ & Hrk & _).
  destruct (Hrk "a" p Gp Hf) as (r & Hr1 & Hr2).
  exists room, p, r. auto.
Defined.

(** ** Reset, phase by phase *)

Lemma lobby_idle_same r r' :
  phase r' = phase r -> raceStartedAt r' = raceStartedAt r ->
  finishedCount r' = finishedCount r -> lobby_idle r -> lobby_idle r'.
Proof. unfold lobby_idle. intros -> -> ->. auto. Qed.

Lemma lobby_idle_not_lobby r : phase r <> Lobby -> lobby_idle r.
Proof. unfold lobby_idle. intros Hne Hph. contradiction. Qed.

Lemma Idle_get rooms k r :
  Idle rooms -> JsMap.get k rooms = Some r -> lobby_idle r.
Proof.
  intros HL G. apply JsMapFacts.get_In in G.
  now apply (proj1 (Forall_forall _ _) HL) in G.
Qed.

Lemma Idle_In rooms k r : Idle rooms -> In (k, r) rooms -> lobby_idle r.
Proof. intros HL G. now apply (proj1 (Forall_forall _ _) HL) in G. Qed.

Lemma Idle_set rooms k r :
  Idle rooms -> lobby_idle r -> Idle (JsMap.set k r rooms).
Proof. intros HL Hr. now apply JsMapFacts.Forall_set. Qed.

Lemma checkAllFinished_idle room c :
  phase room = Racing -> lobby_idle (fst (checkAllFinished room c)).
Proof.
  intros Hph. apply lobby_idle_not_lobby.
  destruct (checkAllFinished_racing room c Hph) as [-> |[-> _]];
    cbn [fst]; congruence.
Qed.

Lemma handleDisconnect_Idle rooms sid :
  Idle rooms -> Idle (fst (handleDisconnect rooms sid)).
Proof.
  intros HL. unfold handleDisconnect.
  destruct (findRoomBySocket rooms sid) as [[key room]|] eqn:F; [|assumption].
  apply findRoomBySocket_Some in F as [Hin _].
  pose proof (Idle_In _ _ _ HL Hin) as Hroom.
  destruct (JsMap.get sid (players room)) as [player|]; [|assumption].
  destruct (phase room) eqn:Hph.
  - match goal with
    | |- context [let '(a, b) := ?X in _] =>
        assert (Hr2 : lobby_idle (fst X)); [|destruct X as [room2 nh]]
    end.
    { destruct (_ && _)%bool;
        [destruct (JsMap.keys _)|]; cbn [fst];
        (eapply lobby_idle_same; [| | |exact Hroom]; reflexivity). }
    cbn [fst] in Hr2.
    destruct (_ =? 0); cbn [fst];
      [apply JsMapFacts.Forall_delete|]; now apply Idle_set.
  - match goal with
    | |- context [let '(a, b) := ?X in _] =>
        assert (Hr2 : phase (fst X) = Racing); [|destruct X as [room2 nh]]
    end.
    { destruct (_ && _)%bool; [|exact Hph].
      destruct (find _ _) as [next|]; [|exact Hph].
      destruct (truthy_string next); exact Hph. }
    cbn [fst] in Hr2.
    pose proof (checkAllFinished_idle room2 (code room) Hr2) as Hcf.
    destruct (checkAllFinished room2 (code room)) as [room3 ems].
    cbn [fst] in *. now apply Idle_set.
  - cbv zeta.
    assert (Hr1 : lobby_idle
                    (set_players room (JsMap.delete sid (players room)))).
    { apply lobby_idle_not_lobby. cbn [phase set_players]. congruence. }
    destruct (_ =? 0); cbn [fst];
      [apply JsMapFacts.Forall_delete|]; now apply Idle_set.
Qed.

Lemma step_Idle rooms e : Idle rooms -> Idle (fst (step rooms e)).
Proof.
  intros HL. destruct e; cbn [step].
  - unfold create_room.
    destruct (generateRoomCode rooms draws); [|assumption].
    apply Idle_set; [assumption|]. intros _. split; reflexivity.
  - unfold join_room.
    destruct (JsMap.get _ rooms) as [room|] eqn:G; [|assumption].
    destruct (negb _); [assumption|]. destruct (16 <=? _); [assumption|].
    apply Idle_set; [assumption|]. exact (Idle_get _ _ _ HL G).
  - unfold rejoin_room.
    destruct (JsMap.get _ rooms) as [room|] eqn:G; [|assumption].
    apply Idle_set; [assumption|]. exact (Idle_get _ _ _ HL G).
  - unfold start_race.
    destruct (JsMap.get _ rooms) as [room|] eqn:G; [|assumption].
    destruct (negb (String.eqb _ _)); [assumption|].
    destruct (negb (phase_eqb _ _)); [assumption|].
    destruct (_ <? 1); [assumption|].
    apply Idle_set; [assumption|]. apply lobby_idle_not_lobby. discriminate.
  - unfold click.
    destruct (JsMap.get _ rooms) as [room|] eqn:G; [|assumption].
    destruct (negb (phase_eqb (phase room) Racing)) eqn:Ep; [assumption|].
    apply negb_false_iff, phase_eqb_eq in Ep.
    destruct (JsMap.get sid (players room)); [|assumption].
    destruct (_ || _)%bool; [assumption|].
    destruct (_ <? 50); [assumption|]. cbv zeta.
    destruct (_ && _)%bool.
    + match goal with
      | |- context [checkAllFinished ?r ?c] =>
          pose proof (checkAllFinished_idle r c Ep) as Hcf;
          destruct (checkAllFinished r c) as [room2 ems]
      end.
      cbn [fst] in *. now apply Idle_set.
    + cbn [fst]. apply Idle_set; [assumption|].
      apply lobby_idle_not_lobby. cbn [phase set_players]. congruence.
  - unfold reset_room.
    destruct (JsMap.get _ rooms) as [room|] eqn:G; [|assumption].
    destruct (negb _); [assumption|].
    apply Idle_set; [assumption|]. intros _. split; reflexivity.
  - now apply handleDisconnect_Idle.
  - now apply handleDisconnect_Idle.
  - unfold broadcast_tick.
    destruct (JsMap.get _ rooms) as [room|] eqn:G; [|assumption].
    destruct (armed _); [|assumption].
    destruct (negb _); [|assumption].
    apply Idle_set; [assumption|]. exact (Idle_get _ _ _ HL G).
  - unfold race_timeout.
    destruct (JsMap.get _ rooms) as [room|] eqn:G; [|assumption].
    destruct (armed _); [|assumption]. cbv zeta.
    destruct (negb (phase_eqb _ _)) eqn:Ep.
    + apply Idle_set; [assumption|]. exact (Idle_get _ _ _ HL G).
    + apply negb_false_iff, phase_eqb_eq in Ep.
      destruct (endRace_first (set_raceTimeout room TDead) roomCode)
        as (Hfin & _).
      { rewrite Ep. discriminate. }
      destruct (endRace _ roomCode) as [room2 ems]. cbn [fst] in *.
      apply Idle_set; [assumption|]. apply lobby_idle_not_lobby. congruence.
  - cbn [fst]. apply Forall_forall. intros x Hx.
    apply filter_In in Hx as [Hx _].
    now apply (proj1 (Forall_forall _ _) HL).
Qed.

Lemma reachable_Idle rooms : reachable rooms -> Idle rooms.
Proof.
  induction 1 as [|rooms e _ IH _]; [constructor|now apply step_Idle].
Qed.

Lemma set_get_same {V : Type} (k : string) (v : V) m :
  JsMap.get k m = Some v -> JsMap.set k v m = m.
Proof.
  induction m as [|[k' v'] m IH]; simpl; [discriminate|].
  destruct (String.eqb k k') eqn:E.
  - apply String.eqb_eq in E. intros H. injection H as ->. now subst.
  - intros H. now rewrite IH.
Qed.

Lemma reset_player_default p : race_fields_default p -> reset_player p = p.
Proof.
  destruct p. unfold race_fields_default, reset_player. simpl.
  intros (-> & -> & -> & -> & -> & -> & ->). reflexivity.
Qed.

Lemma reset_players_default (ps : JsMap.t Player) :
  Forall (fun e => race_fields_default (snd e)) ps ->
  map (fun e => (fst e, reset_player (snd e))) ps = ps.
Proof.
  induction 1 as [|[k p] ps Hp _ IH]; simpl; [reflexivity|].
  simpl in Hp. now rewrite reset_player_default, IH.
Qed.

(** C4, the missing phase guard.  In a reachable registry [reset-room] does
    nothing for an unknown room and for a sender that is not the host, and a
    reset of a room in the lobby by its host leaves the registry as it is
    (the room is announced again with [room-reset]).  The handler never
    looks at the phase, however: a reset from the host is carried out in
    every phase, so the reset of a racing room is not ignored.  It cancels
    both timers, returns the phase to [Lobby], clears [raceStartedAt] and
    [finishedCount], keeps the players and their identity, restores every
    player's progress, click state, [finishedAt], [rank], [dnf] and
    [disconnected] to their defaults and announces [room-reset]; for a
    racing room this changes the registry and aborts the race in
    progress. *)
Theorem C4_reset_room_ignores_phase rooms sid c :
  reachable rooms ->
  (JsMap.get c rooms = None -> reset_room rooms sid c = (rooms, []))
  /\ (forall room,
        JsMap.get c rooms = Some room -> hostSocketId room <> sid ->
        reset_room rooms sid c = (rooms, []))
  /\ (forall room,
        JsMap.get c rooms = Some room -> hostSocketId room = sid ->
        phase room = Lobby ->
        reset_room rooms sid c
        = (rooms, [(ToRoom c, RoomReset (serialize_all room) sid)]))
  /\ (forall room,
        JsMap.get c rooms = Some room -> hostSocketId room = sid ->
        exists room',
          JsMap.get c (fst (reset_room rooms sid c)) = Some room'
          /\ snd (reset_room rooms sid c)
             = [(ToRoom c, RoomReset (serialize_all room') sid)]
          /\ phase room' = Lobby
          /\ raceStartedAt room' = None
          /\ finishedCount room' = 0
          /\ armed (broadcastInterval room') = false
          /\ armed (raceTimeout room') = false
          /\ hostSocketId room' = sid
          /\ code room' = code room
          /\ JsMap.keys (players room') = JsMap.keys (players room)
          /\ map (fun e => (socketId (snd e), name (snd e), carModel (snd e),
                            carColor (snd e))) (players room')
             = map (fun e => (socketId (snd e), name (snd e),
                              carModel (snd e), carColor (snd e)))
                   (players room)
          /\ Forall (fun e => race_fields_default (snd e)) (players room')
          /\ (phase room = Racing ->
              fst (reset_room rooms sid c) <> rooms
              /\ armed (broadcastInterval room) = true
              /\ armed (raceTimeout room) = true)).
Proof.
  intros Hr. pose proof (reachable_Inv _ Hr) as HI.
  pose proof (reachable_Sound _ Hr) as HS.
  pose proof (reachable_Idle _ Hr) as HL.
  split; [|split; [|split]].
  - unfold reset_room. now intros ->.
  - unfold reset_room. intros room -> Hne. apply String.eqb_neq in Hne.
    now rewrite Hne.
  - intros room G Hhost Hph.
    destruct (Inv_get _ _ _ HI G) as (_ & _ & _ & Hb & Ht). simpl in Hb, Ht.
    destruct (Idle_get _ _ _ HL G Hph) as [Hstart Hfc].
    pose proof G as Gin. apply JsMapFacts.get_In in Gin.
    destruct (Sound_In _ _ _ HS Gin) as (_ & _ & _ & Hlobby & _).
    specialize (Hlobby Hph). cbn [snd] in Hlobby.
    assert (Hbi : clearTimer (broadcastInterval room) = broadcastInterval room).
    { destruct (broadcastInterval room); try reflexivity.
      assert (phase room = Racing) by now apply Hb. congruence. }
    assert (Hto : clearTimer (raceTimeout room) = raceTimeout room).
    { destruct (raceTimeout room); try reflexivity.
      assert (phase room = Racing) by now apply Ht. congruence. }
    unfold reset_room. rewrite G. apply String.eqb_eq in Hhost.
    rewrite Hhost. cbn [negb]. cbv zeta.
    apply String.eqb_eq in Hhost.
    assert (Hsame :
              set_players
                (set_finishedCount
                   (set_raceStartedAt
                      (set_phase
                         (set_raceTimeout
                            (set_broadcastInterval room
                               (clearTimer (broadcastInterval room)))
                            (clearTimer
                               (raceTimeout
                                  (set_broadcastInterval room
                                     (clearTimer (broadcastInterval room))))))
                         Lobby) None) 0)
                (map (fun e => (fst e, reset_player (snd e)))
                     (players
                        (set_finishedCount
                           (set_raceStartedAt
                              (set_phase
                                 (set_raceTimeout
                                    (set_broadcastInterval room
                                       (clearTimer (broadcastInterval room)))
                                    (clearTimer
                                       (raceTimeout
                                          (set_broadcastInterval room
                                             (clearTimer
                                                (broadcastInterval room))))))
                                 Lobby) None) 0)))
              = room).
    { cbn [players raceTimeout set_finishedCount set_raceStartedAt set_phase
           set_raceTimeout set_broadcastInterval].
      unfold set_players. cbn.
      rewrite Hbi, Hto, (reset_players_default _ Hlobby).
      destruct room; simpl in *; subst; reflexivity. }
    rewrite Hsame. rewrite (set_get_same _ _ _ G). now rewrite Hhost.
  - intros room G Hhost.
    destruct (Inv_get _ _ _ HI G) as (_ & _ & _ & Hb & Ht). simpl in Hb, Ht.
    unfold reset_room. rewrite G. apply String.eqb_eq in Hhost.
    rewrite Hhost. apply String.eqb_eq in Hhost. cbn [negb fst snd].
    eexists. split; [apply JsMapFacts.get_set_eq|].
    cbn [phase raceStartedAt finishedCount broadcastInterval raceTimeout
         hostSocketId code players set_players set_finishedCount
         set_raceStartedAt set_phase set_raceTimeout set_broadcastInterval].
    split; [now rewrite Hhost|].
    split; [reflexivity|]. split; [reflexivity|]. split; [reflexivity|].
    split; [now destruct (broadcastInterval room)|].
    split; [now destruct (raceTimeout room)|].
    split; [exact Hhost|]. split; [reflexivity|].
    split; [unfold JsMap.keys; now rewrite map_map|].
    split; [now rewrite map_map|].
    split.
    + apply Forall_forall. intros e He. apply in_map_iff in He as [e0 [<- _]].
      repeat split.
    + intros Hph. split; [|split].
      * intros Heq. apply (f_equal (JsMap.get c)) in Heq.
        rewrite JsMapFacts.get_set_eq, G in Heq. injection Heq as Hroom.
        apply (f_equal phase) in Hroom. cbn in Hroom. congruence.
      * apply Hb in Hph. now rewrite Hph.
      * apply Ht in Hph. now rewrite Hph.
Qed.

Lemma C4_reset_room_ignores_phase_witness :
  exists room room',
    JsMap.get "ABCDEF" race_of_two = Some room
    /\ phase room = Racing
    /\ JsMap.get "ABCDEF" (fst (reset_room race_of_two "a" "ABCDEF"))
       = Some room'
    /\ phase room' = Lobby
    /\ snd (reset_room race_of_two "a" "ABCDEF")
       = [(ToRoom "ABCDEF", RoomReset (serialize_all room') "a")]
    /\ Forall (fun e => race_fields_default (snd e)) (players room')
    /\ fst (reset_room race_of_two "a" "ABCDEF") <> race_of_two.
Proof.
  destruct (C4_reset_room_ignores_phase race_of_two "a" "ABCDEF"
              race_of_two_reachable) as (_ & _ & _ & H).
  destruct (H _ eq_refl eq_refl)
    as (room' & G & Hems & Hph & _ & _ & _ & _ & _ & _ & _ & _ & Hdef & Hrace).
  destruct (Hrace eq_refl) as (Hne & _).
  eexists _, room'. split; [reflexivity|]. split; [reflexivity|].
  repeat split; assumption.
Defined.

(** ** Start, create, join, rejoin *)

(** X6. In a reachable registry [start-race] never answers [start-error]
    (no registered room is empty).  It is silently ignored, with the
    registry unchanged and nothing emitted, unless the room exists, the
    sender is its host and the phase is [Lobby]; in that case the room
    becomes [Racing] with both timers armed, [finishedCount] 0 and the same
    players and host, and [race-started] is broadcast to the room. *)
Theorem X6_start_race_guards rooms sid c t1 t2 :
  reachable rooms ->
  (forall em reason,
     In em (snd (start_race rooms sid c t1 t2)) -> snd em <> StartError reason)
  /\ (~ (exists room,
           JsMap.get c rooms = Some room
           /\ hostSocketId room = sid /\ phase room = Lobby) ->
      start_race rooms sid c t1 t2 = (rooms, []))
  /\ (forall room,
        JsMap.get c rooms = Some room ->
        hostSocketId room = sid -> phase room = Lobby ->
        exists room',
          JsMap.get c (fst (start_race rooms sid c t1 t2)) = Some room'
          /\ phase room' = Racing
          /\ raceStartedAt room' = Some t1
          /\ finishedCount room' = 0
          /\ broadcastInterval room' = TArmed
          /\ raceTimeout room' = TArmed
          /\ players room' = players room
          /\ hostSocketId room' = sid
          /\ snd (start_race rooms sid c t1 t2)
             = [(ToRoom c, RaceStarted (t2 + 3500))]).
Proof.
  intros Hr. pose proof (reachable_Sound _ Hr) as HS.
  assert (Hsize : forall room, JsMap.get c rooms = Some room ->
                    (JsMap.size (players room) <? 1) = false).
  { intros room G. apply JsMapFacts.get_In in G.
    destruct (Sound_In _ _ _ HS G) as (_ & Hne & _). cbn [snd] in Hne.
    apply Z.ltb_ge. unfold JsMap.size.
    destruct (players room); [congruence|]. simpl List.length. lia. }
  unfold start_race. split; [|split].
  - intros em reason.
    destruct (JsMap.get c rooms) as [room|] eqn:G; [|intros []].
    rewrite (Hsize room eq_refl).
    destruct (negb _); [intros []|]. destruct (negb _); [intros []|].
    intros [<-|[]]. discriminate.
  - intros Hno.
    destruct (JsMap.get c rooms) as [room|] eqn:G; [|reflexivity].
    destruct (String.eqb (hostSocketId room) sid) eqn:Eh; [|reflexivity].
    destruct (phase_eqb (phase room) Lobby) eqn:Ep; [|reflexivity].
    exfalso. apply Hno. exists room.
    apply String.eqb_eq in Eh. apply phase_eqb_eq in Ep. auto.
  - intros room G Hhost Hph. rewrite G, (Hsize room G), Hph.
    apply String.eqb_eq in Hhost. rewrite Hhost. cbn [negb phase_eqb fst snd].
    eexists. split; [apply JsMapFacts.get_set_eq|].
    apply String.eqb_eq in Hhost. repeat split. exact Hhost.
Qed.

Lemma X6_start_race_guards_witness :
  start_race lobby_of_two "b" "ABCDEF" 1000 1000 = (lobby_of_two, []).
Proof.
  destruct (X6_start_race_guards lobby_of_two "b" "ABCDEF" 1000 1000
              lobby_of_two_reachable) as (_ & H & _).
  apply H. intros (room & G & Hhost & _).
  vm_compute in G. inversion G; subst. discriminate.
Defined.

Lemma find_first {A : Type} (f : A -> bool) l x :
  find f l = Some x ->
  f x = true
  /\ exists pre post,
       l = pre ++ x :: post /\ forall y, In y pre -> f y = false.
Proof.
  induction l as [|a l IH]; simpl; [discriminate|].
  destruct (f a) eqn:E.
  - intros [= ->]. split; [assumption|]. exists [], l. split; [reflexivity|].
    intros y [].
  - intros H. destruct (IH H) as (Hx & pre & post & -> & Hpre).
    split; [assumption|]. exists (a :: pre), post. split; [reflexivity|].
    intros y [<-|Hy]; auto.
Qed.

(** X7. [create-room] registers the new room under the first drawn code
    that is not yet a key of the registry: every draw before it was taken,
    the code was not, so no existing room is overwritten and every room
    registered before is still there, unchanged.  The new room comes last in
    the registry, is in the lobby with the creator as host and sole player
    (first palette colour, all race fields at their defaults), with no timer
    and [finishedCount] 0, and [room-created] goes to the creator only. *)
Theorem X7_create_room_fresh rooms sid nm cm draws now c :
  generateRoomCode rooms draws = Some c ->
  JsMap.get c rooms = None
  /\ (exists pre post,
        draws = pre ++ c :: post
        /\ forall d, In d pre -> JsMap.has d rooms = true)
  /\ (forall k r,
        JsMap.get k rooms = Some r ->
        JsMap.get k (fst (create_room rooms sid nm cm draws now)) = Some r)
  /\ JsMap.keys (fst (create_room rooms sid nm cm draws now))
     = JsMap.keys rooms ++ [c]
  /\ exists player,
       JsMap.get c (fst (create_room rooms sid nm cm draws now))
       = Some (mkRoom c sid Lobby [(sid, player)] now None 0 TNull TNull)
       /\ socketId player = sid
       /\ carColor player = "#C0C0C0"
       /\ race_fields_default player
       /\ snd (create_room rooms sid nm cm draws now)
          = [(ToSocket sid, RoomCreated c (serializePlayer player))].
Proof.
  intros G. unfold create_room. rewrite G. cbn [fst snd].
  unfold generateRoomCode in G. apply find_first in G as (Hc & pre & post & Hd & Hpre).
  assert (Hfresh : JsMap.get c rooms = None).
  { apply negb_true_iff in Hc. unfold JsMap.has in Hc.
    now destruct (JsMap.get c rooms). }
  split; [exact Hfresh|]. split.
  { exists pre, post. split; [exact Hd|]. intros d Hin.
    apply Hpre in Hin. now apply negb_false_iff in Hin. }
  split.
  { intros k r Gk. rewrite JsMapFacts.get_set_neq; [exact Gk|].
    intros <-. congruence. }
  split.
  { apply JsMapFacts.keys_set_notin. now apply JsMapFacts.get_None_keys. }
  eexists. split; [apply JsMapFacts.get_set_eq|].
  repeat split.
Qed.

Lemma X7_create_room_fresh_witness :
  JsMap.get "ABCDEG" lobby_of_two = None
  /\ JsMap.keys
       (fst (create_room lobby_of_two "z" None None ["ABCDEF"; "ABCDEG"] 5))
     = JsMap.keys lobby_of_two ++ ["ABCDEG"].
Proof.
  destruct (X7_create_room_fresh lobby_of_two "z" None None
              ["ABCDEF"; "ABCDEG"] 5 "ABCDEG" eq_refl)
    as (H1 & _ & _ & H4 & _).
  split; assumption.
Defined.

Lemma COLOR_PALETTE_NoDup : NoDup COLOR_PALETTE.
Proof.
  unfold COLOR_PALETTE.
  repeat (constructor; [simpl; intuition discriminate|]). constructor.
Qed.

Lemma mem_string_false s l : mem_string s l = false -> ~ In s l.
Proof.
  unfold mem_string. intros H Hin.
  assert (existsb (String.eqb s) l = true).
  { apply existsb_exists. exists s. split; [assumption|apply String.eqb_refl]. }
  congruence.
Qed.

Lemma mem_string_true s l : mem_string s l = true -> In s l.
Proof.
  unfold mem_string. intros H. apply existsb_exists in H as [x [Hin Heq]].
  apply String.eqb_eq in Heq. now subst.
Qed.

(** With fewer than sixteen players some palette colour is free, and
    [getNextColor] returns one that no player of the room has. *)
Lemma getNextColor_unused room :
  JsMap.size (players room) < 16 ->
  forall k q, In (k, q) (players room) -> carColor q <> getNextColor room.
Proof.
  intros Hsz k q Hin. unfold getNextColor.
  set (used := map carColor (JsMap.values (players room))).
  assert (Hq : In (carColor q) used).
  { unfold used, JsMap.values. rewrite map_map.
    apply in_map_iff. exists (k, q). auto. }
  destruct (find _ COLOR_PALETTE) as [c|] eqn:F.
  - apply find_some in F as [_ Hc]. apply negb_true_iff in Hc.
    apply mem_string_false in Hc. intros <-. contradiction.
  - exfalso.
    assert (Hincl : incl COLOR_PALETTE used).
    { intros c Hc. pose proof (find_none _ _ F c Hc) as Hn.
      apply negb_false_iff in Hn. now apply mem_string_true. }
    pose proof (NoDup_incl_length COLOR_PALETTE_NoDup Hincl) as Hlen.
    unfold used, JsMap.values in Hlen. rewrite !length_map in Hlen.
    unfold JsMap.size in Hsz. change (List.length COLOR_PALETTE) with 16%nat in Hlen.
    lia.
Qed.

(** X8. [join-room] either fails with exactly one [join-error] to the
    sender and an unchanged registry (no room under the upper-cased code,
    room not in the lobby, or 16 players already), or it succeeds: the sender
    is stored with a fresh record whose colour is a palette colour that no
    player of the room had, a sender that was not in the room comes last in
    the join order, host, phase and the other players are untouched, the
    sender receives [room-joined] with the full player list and the others
    [player-joined]. *)
Theorem X8_join_room_outcomes rooms sid c nm cm :
  (JsMap.get (normalize_code c) rooms = None ->
   join_room rooms sid c nm cm
   = (rooms, [(ToSocket sid,
               JoinError "Room not found. Check the code and try again.")]))
  /\ (forall room,
        JsMap.get (normalize_code c) rooms = Some room ->
        phase room <> Lobby ->
        join_room rooms sid c nm cm
        = (rooms,
           [(ToSocket sid,
             JoinError
               "This race has already started. Wait for the next round.")]))
  /\ (forall room,
        JsMap.get (normalize_code c) rooms = Some room ->
        phase room = Lobby -> 16 <= JsMap.size (players room) ->
        join_room rooms sid c nm cm
        = (rooms,
           [(ToSocket sid, JoinError "Room is full (max 16 players).")]))
  /\ (forall room,
        JsMap.get (normalize_code c) rooms = Some room ->
        phase room = Lobby -> JsMap.size (players room) < 16 ->
        exists room' p,
          JsMap.get (normalize_code c) (fst (join_room rooms sid c nm cm))
          = Some room'
          /\ JsMap.get sid (players room') = Some p
          /\ race_fields_default p
          /\ In (carColor p) COLOR_PALETTE
          /\ (forall k q, In (k, q) (players room) -> carColor q <> carColor p)
          /\ (forall k, k <> sid ->
                JsMap.get k (players room') = JsMap.get k (players room))
          /\ (~ In sid (JsMap.keys (players room)) ->
              JsMap.keys (players room') = JsMap.keys (players room) ++ [sid])
          /\ hostSocketId room' = hostSocketId room
          /\ phase room' = Lobby
          /\ snd (join_room rooms sid c nm cm)
             = [ (ToSocket sid,
                  RoomJoined (code room) (hostSocketId room)
                             (serialize_all room') None);
                 (ToRoomExcept (code room) sid,
                  PlayerJoined (serializePlayer p)) ]).
Proof.
  unfold join_room. split; [|split; [|split]].
  - now intros ->.
  - intros room -> Hph.
    destruct (phase_eqb (phase room) Lobby) eqn:E; [|reflexivity].
    apply phase_eqb_eq in E. contradiction.
  - intros room -> Hph Hsz. rewrite Hph. cbn [phase_eqb negb].
    apply Z.leb_le in Hsz. now rewrite Hsz.
  - intros room -> Hph Hsz. rewrite Hph. cbn [phase_eqb negb].
    pose proof Hsz as Hsz'. apply Z.leb_gt in Hsz'. rewrite Hsz'.
    cbn [fst snd]. eexists _, _.
    split; [apply JsMapFacts.get_set_eq|].
    cbn [players set_players phase hostSocketId code].
    split; [apply JsMapFacts.get_set_eq|].
    split; [apply new_player_default|].
    split; [apply getNextColor_palette|].
    split; [now apply getNextColor_unused|].
    split; [intros k Hk; apply JsMapFacts.get_set_neq; congruence|].
    split; [apply JsMapFacts.keys_set_notin|].
    repeat split. exact Hph.
Qed.

Lemma X8_join_room_outcomes_witness :
  exists room' p,
    JsMap.get "ABCDEF" (fst (join_room lobby_of_two "c" (Some "abcdef")
                                       (Some "Cy") None)) = Some room'
    /\ JsMap.get "c" (players room') = Some p
    /\ carColor p = "#1E3A8A"
    /\ JsMap.keys (players room') = ["a"; "b"; "c"].
Proof.
  destruct (X8_join_room_outcomes lobby_of_two "c" (Some "abcdef")
              (Some "Cy") None) as (_ & _ & _ & H).
  destruct (H _ eq_refl eq_refl) as
    (room' & p & G & Gp & _ & _ & _ & _ & Hk & _); [reflexivity|].
  exists room', p. split; [exact G|]. split; [exact Gp|].
  split.
  - vm_compute in G. inversion G; subst room'. vm_compute in Gp.
    inversion Gp. reflexivity.
  - apply Hk. simpl. intuition discriminate.
Defined.

(** X9. [rejoin-room] fails only when no room is registered under the
    upper-cased code.  Otherwise it succeeds in every phase and at every
    room size: the sender is stored with a fresh record (progress and click
    counter 0, no finish stamp, no rank), replacing in place the record it
    may have had, so a player who rejoins in the middle of a race is back at
    progress 0; the other players, the host, the phase, [finishedCount] and
    the timers are untouched, and [room-joined] reports the phase. *)
Theorem X9_rejoin_room_outcomes rooms sid c nm cm :
  (JsMap.get (normalize_code c) rooms = None ->
   rejoin_room rooms sid c nm cm
   = (rooms, [(ToSocket sid, RejoinFailed "Room no longer exists.")]))
  /\ (forall room,
        JsMap.get (normalize_code c) rooms = Some room ->
        exists room' p,
          JsMap.get (normalize_code c) (fst (rejoin_room rooms sid c nm cm))
          = Some room'
          /\ JsMap.get sid (players room') = Some p
          /\ race_fields_default p
          /\ (forall k, k <> sid ->
                JsMap.get k (players room') = JsMap.get k (players room))
          /\ (In sid (JsMap.keys (players room)) ->
              JsMap.keys (players room') = JsMap.keys (players room))
          /\ (~ In sid (JsMap.keys (players room)) ->
              JsMap.keys (players room') = JsMap.keys (players room) ++ [sid])
          /\ hostSocketId room' = hostSocketId room
          /\ phase room' = phase room
          /\ finishedCount room' = finishedCount room
          /\ broadcastInterval room' = broadcastInterval room
          /\ raceTimeout room' = raceTimeout room
          /\ snd (rejoin_room rooms sid c nm cm)
             = [ (ToSocket sid,
                  RoomJoined (code room) (hostSocketId room)
                             (serialize_all room') (Some (phase room)));
                 (ToRoomExcept (code room) sid,
                  PlayerJoined (serializePlayer p)) ]).
Proof.
  unfold rejoin_room. split.
  - now intros ->.
  - intros room ->. cbn [fst snd]. eexists _, _.
    split; [apply JsMapFacts.get_set_eq|].
    cbn [players set_players phase hostSocketId code finishedCount
         broadcastInterval raceTimeout].
    split; [apply JsMapFacts.get_set_eq|].
    split; [apply new_player_default|].
    split; [intros k Hk; apply JsMapFacts.get_set_neq; congruence|].
    split; [apply JsMapFacts.keys_set_in|].
    split; [apply JsMapFacts.keys_set_notin|].
    repeat split.
Qed.

Lemma X9_rejoin_room_outcomes_witness :
  exists room' p,
    JsMap.get "ABCDEF"
      (fst (rejoin_room finished_race_of_two "a" (Some "abcdef") None None))
    = Some room'
    /\ JsMap.get "a" (players room') = Some p
    /\ progress p = 0
    /\ JsMap.keys (players room') = ["a"; "b"]
    /\ phase room' = Finished.
Proof.
  destruct (X9_rejoin_room_outcomes finished_race_of_two "a" (Some "abcdef")
              None None) as (_ & H).
  destruct (H _ eq_refl)
    as (room' & p & G & Gp & Hd & _ & Hk & _ & _ & Hph & _).
  exists room', p. split; [exact G|]. split; [exact Gp|].
  split; [apply Hd|]. split; [|exact Hph].
  apply Hk. simpl. auto.
Defined.

(** ** Leaving a room *)

Lemma findRoomBySocket_get rooms sid key room :
  Inv rooms -> findRoomBySocket rooms sid = Some (key, room) ->
  JsMap.get key rooms = Some room /\ code room = key
  /\ NoDup (JsMap.keys (players room))
  /\ exists player, JsMap.get sid (players room) = Some player.
Proof.
  intros HI F. apply findRoomBySocket_Some in F as [Hin Hhas].
  destruct (Inv_In _ _ _ HI Hin) as (Hcode & _ & [Hnd _] & _).
  split; [apply JsMapFacts.In_get; [apply HI|assumption]|].
  split; [exact Hcode|]. split; [exact Hnd|].
  unfold JsMap.has in Hhas.
  destruct (JsMap.get sid (players room)) as [player|]; [eauto|discriminate].
Qed.

(** X10. A player leaving a room in the lobby, others remaining: the player
    is removed from the room and the others keep their order.  If the
    leaver was the host, the first remaining player in join order becomes
    host and [player-left] announces it; otherwise the host is unchanged and
    [player-left] carries no new host.  Either way the room stays in the
    lobby. *)
Theorem X10_lobby_leave rooms sid key room :
  reachable rooms ->
  findRoomBySocket rooms sid = Some (key, room) ->
  phase room = Lobby ->
  JsMap.delete sid (players room) <> [] ->
  exists room' newHostId,
    handleDisconnect rooms sid
    = (JsMap.set key room' rooms, [(ToRoom key, PlayerLeft sid newHostId)])
    /\ JsMap.get key (fst (handleDisconnect rooms sid)) = Some room'
    /\ players room' = JsMap.delete sid (players room)
    /\ ~ In sid (JsMap.keys (players room'))
    /\ phase room' = Lobby
    /\ (hostSocketId room = sid ->
        exists first others,
          JsMap.keys (players room') = first :: others
          /\ hostSocketId room' = first /\ newHostId = Some first)
    /\ (hostSocketId room <> sid ->
        hostSocketId room' = hostSocketId room /\ newHostId = None).
Proof.
  intros Hr F Hph Hrest. pose proof (reachable_Inv _ Hr) as HI.
  destruct (findRoomBySocket_get _ _ _ _ HI F) as (G & Hcode & Hnd & player & Gp).
  unfold handleDisconnect. rewrite F, Gp, Hph, Hcode.
  assert (Hsz : (0 <? JsMap.size (JsMap.delete sid (players room))) = true)
    by now apply JsMapFacts.size_pos_iff.
  assert (Hsz0 : (JsMap.size (JsMap.delete sid (players room)) =? 0) = false).
  { destruct (_ =? 0) eqn:E; [|reflexivity].
    apply JsMapFacts.size_zero_iff in E. contradiction. }
  cbn [players set_players hostSocketId].
  destruct (String.eqb (hostSocketId room) sid) eqn:Eh.
  - apply String.eqb_eq in Eh. rewrite Hsz. cbn [andb].
    destruct (JsMap.keys (JsMap.delete sid (players room)))
      as [|first others] eqn:Ek.
    { destruct (JsMap.delete sid (players room)); [congruence|discriminate]. }
    cbn [players set_hostSocketId set_players]. rewrite Hsz0.
    eexists _, _. split; [reflexivity|]. cbn [fst].
    split; [apply JsMapFacts.get_set_eq|].
    cbn [players phase hostSocketId].
    split; [reflexivity|]. split; [now apply not_In_keys_delete|].
    split; [exact Hph|]. split.
    + intros _. exists first, others. auto.
    + intros Hne. contradiction.
  - apply String.eqb_neq in Eh. cbn [andb players set_players]. rewrite Hsz0.
    eexists _, _. split; [reflexivity|]. cbn [fst].
    split; [apply JsMapFacts.get_set_eq|].
    cbn [players phase hostSocketId].
    split; [reflexivity|]. split; [now apply not_In_keys_delete|].
    split; [exact Hph|]. split.
    + intros Heq. contradiction.
    + intros _. auto.
Qed.

Lemma X10_lobby_leave_witness :
  exists room',
    handleDisconnect lobby_of_two "a"
    = (JsMap.set "ABCDEF" room' lobby_of_two,
       [(ToRoom "ABCDEF", PlayerLeft "a" (Some "b"))])
    /\ hostSocketId room' = "b".
Proof.
  destruct (X10_lobby_leave lobby_of_two "a" "ABCDEF" _
              lobby_of_two_reachable eq_refl eq_refl)
    as (room' & nh & Heq & _ & Hps & _ & _ & Hhost & _).
  - discriminate.
  - destruct (Hhost eq_refl) as (first & others & Hk & Hh & Hn).
    rewrite Hps in Hk. cbn in Hk. injection Hk as Hf Ho.
    exists room'. split.
    + now rewrite Heq, Hn, <- Hf.
    + now rewrite Hh, <- Hf.
Defined.



Lemma endRace_host room c :
  hostSocketId (fst (endRace room c)) = hostSocketId room.
Proof. rewrite endRace_eq. now destruct (phase_eqb (phase room) Finished). Qed.

Lemma checkAllFinished_host room c :
  hostSocketId (fst (checkAllFinished room c)) = hostSocketId room.
Proof.
  destruct (checkAllFinished_cases room c) as [-> | ->];
    [apply endRace_host|reflexivity].
Qed.

Lemma checkAllFinished_phase room c :
  phase room = Racing ->
  phase (fst (checkAllFinished room c)) = Racing
  \/ phase (fst (checkAllFinished room c)) = Finished.
Proof.
  intros Hph. destruct (checkAllFinished_racing room c Hph) as [-> |[H _]];
    auto.
Qed.

Lemma find_app_first {A : Type} (f : A -> bool) pre x post :
  (forall y, In y pre -> f y = false) -> f x = true ->
  find f (pre ++ x :: post) = Some x.
Proof.
  induction pre as [|a pre IH]; simpl; intros Hpre Hx.
  - now rewrite Hx.
  - rewrite (Hpre a) by auto. apply IH; auto.
Qed.

(** The racing branch of [handleDisconnect], with the host chosen. *)
Lemma handleDisconnect_racing rooms sid key room player :
  findRoomBySocket rooms sid = Some (key, room) ->
  phase room = Racing ->
  JsMap.get sid (players room) = Some player ->
  exists host' newHostId,
    let room2 :=
      set_hostSocketId
        (set_players room
           (JsMap.set sid (set_disconnected player true) (players room)))
        host' in
    handleDisconnect rooms sid
    = (JsMap.set key (fst (checkAllFinished room2 (code room))) rooms,
       (ToRoom (code room), PlayerLeft sid newHostId)
       :: snd (checkAllFinished room2 (code room)))
    /\ ((host' = hostSocketId room /\ newHostId = None)
        \/ (hostSocketId room = sid /\ newHostId = Some host'
            /\ truthy_string host' = true
            /\ find (fun id =>
                       match JsMap.get id
                               (JsMap.set sid (set_disconnected player true)
                                          (players room)) with
                       | Some q => negb (disconnected q)
                       | None => false
                       end)
                    (JsMap.keys
                       (JsMap.set sid (set_disconnected player true)
                                  (players room)))
               = Some host'))
    /\ (hostSocketId room <> sid -> host' = hostSocketId room)
    /\ (forall next,
          hostSocketId room = sid ->
          find (fun id =>
                  match JsMap.get id
                          (JsMap.set sid (set_disconnected player true)
                                     (players room)) with
                  | Some q => negb (disconnected q)
                  | None => false
                  end)
               (JsMap.keys
                  (JsMap.set sid (set_disconnected player true)
                             (players room)))
          = Some next ->
          truthy_string next = true ->
          host' = next /\ newHostId = Some next).
Proof.
  intros F Hph Gp. unfold handleDisconnect. rewrite F, Gp, Hph.
  cbn [players set_players hostSocketId].
  assert (Hsz : (0 <? JsMap.size (JsMap.set sid (set_disconnected player true)
                                            (players room))) = true).
  { apply JsMapFacts.size_pos_iff, set_not_nil. }
  rewrite Hsz.
  set (room1 := set_players room
                  (JsMap.set sid (set_disconnected player true)
                             (players room))).
  assert (Hsame : forall r, r = room1 ->
            set_hostSocketId room1 (hostSocketId room) = r).
  { intros r ->. reflexivity. }
  destruct (String.eqb (hostSocketId room) sid) eqn:Eh; cbn [andb].
  - apply String.eqb_eq in Eh.
    destruct (find _ _) as [next|] eqn:Ef.
    + destruct (truthy_string next) eqn:Et.
      * exists next, (Some next). cbv zeta.
        destruct (checkAllFinished _ _) as [room3 ems]. cbn [fst snd].
        split; [reflexivity|]. split; [right; auto|].
        split; [intros; contradiction|].
        intros n _ Hn _. inversion Hn. auto.
      * exists (hostSocketId room), None. cbv zeta.
        rewrite (Hsame room1 eq_refl).
        destruct (checkAllFinished _ _) as [room3 ems]. cbn [fst snd].
        split; [reflexivity|]. split; [left; auto|].
        split; [reflexivity|].
        intros n _ Hn Htn. inversion Hn; subst. congruence.
    + exists (hostSocketId room), None. cbv zeta.
      rewrite (Hsame room1 eq_refl).
      destruct (checkAllFinished _ _) as [room3 ems]. cbn [fst snd].
      split; [reflexivity|]. split; [left; auto|].
      split; [reflexivity|]. intros n _ Hn. discriminate.
  - apply String.eqb_neq in Eh.
    exists (hostSocketId room), None. cbv zeta.
    rewrite (Hsame room1 eq_refl).
    destruct (checkAllFinished _ _) as [room3 ems]. cbn [fst snd].
    split; [reflexivity|]. split; [left; auto|].
    split; [reflexivity|]. intros n Hn. contradiction.
Qed.

Lemma handleDisconnect_frame rooms sid key room k :
  Inv rooms -> findRoomBySocket rooms sid = Some (key, room) -> k <> key ->
  JsMap.get k (fst (handleDisconnect rooms sid)) = JsMap.get k rooms.
Proof.
  intros HI F Hk.
  destruct (findRoomBySocket_get _ _ _ _ HI F) as (G & Hcode & Hnd & p & Gp).
  unfold handleDisconnect. rewrite F, Gp, Hcode.
  destruct (phase room).
  - match goal with
    | |- context [let '(a, b) := ?X in _] => destruct X as [room2 nh]
    end.
    destruct (_ =? 0); cbn [fst].
    + rewrite JsMapFacts.get_delete_neq by congruence.
      apply JsMapFacts.get_set_neq. congruence.
    + apply JsMapFacts.get_set_neq. congruence.
  - match goal with
    | |- context [let '(a, b) := ?X in _] => destruct X as [room2 nh]
    end.
    destruct (checkAllFinished room2 key) as [room3 ems]. cbn [fst].
    apply JsMapFacts.get_set_neq. congruence.
  - cbv zeta. destruct (_ =? 0); cbn [fst].
    + rewrite JsMapFacts.get_delete_neq by congruence.
      apply JsMapFacts.get_set_neq. congruence.
    + apply JsMapFacts.get_set_neq. congruence.
Qed.

(** *** A departed player stays on the side line *)

Lemma get_delete_Some {V : Type} (k k' : string) (v : V) (m : JsMap.t V) :
  NoDup (JsMap.keys m) -> JsMap.get k' (JsMap.delete k m) = Some v ->
  JsMap.get k' m = Some v /\ k' <> k.
Proof.
  intros Hnd G. destruct (string_dec k' k) as [->|Hne].
  - rewrite JsMapFacts.get_delete_eq in G by assumption. discriminate.
  - rewrite JsMapFacts.get_delete_neq in G by congruence. auto.
Qed.

Lemma generateRoomCode_drawn rooms draws c :
  generateRoomCode rooms draws = Some c ->
  JsMap.get c rooms = None /\ In c draws.
Proof.
  unfold generateRoomCode. intros Hf. apply find_some in Hf as [Hin Hfresh].
  split; [|exact Hin].
  unfold JsMap.has in Hfresh. now destruct (JsMap.get c rooms).
Qed.

Lemma mem_string_In s l : In s l -> mem_string s l = true.
Proof.
  intros Hin. unfold mem_string. apply existsb_exists. exists s.
  split; [exact Hin|apply String.eqb_refl].
Qed.

(** The record a player has after [checkAllFinished] is the one before, up
    to [rank] and [dnf]. *)
Lemma checkAllFinished_record room c sid p' :
  NoDup (JsMap.keys (players room)) ->
  JsMap.get sid (players (fst (checkAllFinished room c))) = Some p' ->
  exists p rk d,
    JsMap.get sid (players room) = Some p /\ p' = set_dnf (set_rank p rk) d.
Proof.
  intros Hnd G'. pose proof (JsMapFacts.get_keys _ _ _ G') as Hin.
  rewrite checkAllFinished_keys in Hin.
  apply JsMapFacts.keys_get in Hin as [p G].
  destruct (checkAllFinished_get_player room c sid p Hnd G) as (rk & d & H).
  rewrite H in G'. injection G' as <-. eauto.
Qed.

Lemma endRace_record room c sid p' :
  NoDup (JsMap.keys (players room)) ->
  JsMap.get sid (players (fst (endRace room c))) = Some p' ->
  exists p rk d,
    JsMap.get sid (players room) = Some p /\ p' = set_dnf (set_rank p rk) d.
Proof.
  intros Hnd G'. pose proof (JsMapFacts.get_keys _ _ _ G') as Hin.
  rewrite endRace_keys in Hin.
  apply JsMapFacts.keys_get in Hin as [p G].
  destruct (endRace_get_player room c sid p Hnd G) as (rk & d & H).
  rewrite H in G'. injection G' as <-. eauto.
Qed.

Lemma sidelined_click rooms sid key now :
  sidelined rooms sid key -> click rooms sid key now = (rooms, []).
Proof.
  intros HB. unfold click.
  destruct (JsMap.get key rooms) as [room|] eqn:G; [|reflexivity].
  destruct (negb _); [reflexivity|].
  destruct (JsMap.get sid (players room)) as [p|] eqn:Gp; [|reflexivity].
  destruct (HB room G) as [_ Hd]. rewrite (Hd p Gp).
  now rewrite orb_true_r.
Qed.

Lemma sidelined_set rooms sid key k r :
  sidelined rooms sid key ->
  (k = key ->
   phase r <> Lobby
   /\ forall p, JsMap.get sid (players r) = Some p -> disconnected p = true) ->
  sidelined (JsMap.set k r rooms) sid key.
Proof.
  intros HB Hr room G. destruct (string_dec k key) as [->|Hne].
  - rewrite JsMapFacts.get_set_eq in G. injection G as <-. auto.
  - rewrite JsMapFacts.get_set_neq in G by assumption. auto.
Qed.

Lemma sidelined_delete rooms sid key k :
  NoDup (JsMap.keys rooms) -> sidelined rooms sid key ->
  sidelined (JsMap.delete k rooms) sid key.
Proof.
  intros Hnd HB room G. apply get_delete_Some in G as [G _]; auto.
Qed.

Lemma sidelined_checkAllFinished room c sid :
  NoDup (JsMap.keys (players room)) ->
  phase room = Racing ->
  (forall p, JsMap.get sid (players room) = Some p -> disconnected p = true) ->
  phase (fst (checkAllFinished room c)) <> Lobby
  /\ forall p,
       JsMap.get sid (players (fst (checkAllFinished room c))) = Some p ->
       disconnected p = true.
Proof.
  intros Hnd Hph Hd. split.
  - destruct (checkAllFinished_racing room c Hph) as [-> |[-> _]];
      cbn [fst]; congruence.
  - intros p' G'.
    destruct (checkAllFinished_record room c sid p' Hnd G')
      as (p & rk & d & G & ->).
    exact (Hd p G).
Qed.

Lemma handleDisconnect_sidelined rooms s sid key :
  Inv rooms -> sidelined rooms sid key ->
  sidelined (fst (handleDisconnect rooms s)) sid key.
Proof.
  intros HI HB.
  destruct (findRoomBySocket rooms s) as [[k room]|] eqn:F;
    [|unfold handleDisconnect; now rewrite F].
  destruct (findRoomBySocket_get _ _ _ _ HI F) as (G & Hcode & Hnd & q & Gq).
  destruct (string_dec k key) as [->|Hne].
  2:{ intros room' G'.
      rewrite (handleDisconnect_frame rooms s k room key HI F) in G' by congruence.
      auto. }
  destruct (HB room G) as [Hnl Hd].
  destruct (phase room) eqn:Hph; [congruence| |].
  - destruct (handleDisconnect_racing rooms s key room q F Hph Gq)
      as (host' & nh & Heq & _).
    cbv zeta in Heq. rewrite Heq. cbn [fst]. apply sidelined_set; [assumption|].
    intros _. apply sidelined_checkAllFinished.
    + cbn [players set_hostSocketId set_players].
      now apply JsMapFacts.NoDup_keys_set.
    + exact Hph.
    + cbn [players set_hostSocketId set_players]. intros p Gp.
      destruct (string_dec s sid) as [->|Hs].
      * rewrite JsMapFacts.get_set_eq in Gp. now injection Gp as <-.
      * rewrite JsMapFacts.get_set_neq in Gp by assumption. auto.
  - rewrite (handleDisconnect_finished rooms s key room HI F Hph). cbn [fst].
    assert (HB1 : sidelined
                    (JsMap.set key
                       (set_players room (JsMap.delete s (players room)))
                       rooms) sid key).
    { apply sidelined_set; [assumption|]. intros _.
      cbn [phase players set_players]. split; [congruence|].
      intros p Gp. apply get_delete_Some in Gp as [Gp _]; auto. }
    destruct (_ =? 0); [|exact HB1].
    apply sidelined_delete; [|exact HB1].
    apply JsMapFacts.NoDup_keys_set, HI.
Qed.

(** No message other than those of [revives] lets the departed player race
    in the room again. *)
Lemma step_sidelined rooms e sid key :
  Inv rooms -> sidelined rooms sid key -> revives sid key e = false ->
  sidelined (fst (step rooms e)) sid key.
Proof.
  intros HI HB Hrev. destruct e; cbn [step revives] in *.
  - (* create-room *)
    unfold create_room.
    destruct (generateRoomCode rooms draws) as [c|] eqn:Eg; [|assumption].
    cbn [fst]. apply sidelined_set; [assumption|]. intros ->.
    apply generateRoomCode_drawn in Eg as [_ Hin].
    apply mem_string_In in Hin. congruence.
  - (* join-room *)
    unfold join_room.
    destruct (JsMap.get _ rooms) as [room|] eqn:G; [|assumption].
    destruct (negb (phase_eqb (phase room) Lobby)) eqn:Ep; [assumption|].
    apply negb_false_iff, phase_eqb_eq in Ep.
    destruct (16 <=? _); [assumption|]. cbn [fst].
    apply sidelined_set; [assumption|]. intros Hk. rewrite Hk in G.
    destruct (HB room G) as [Hnl _]. contradiction.
  - (* rejoin-room *)
    unfold rejoin_room.
    destruct (JsMap.get _ rooms) as [room|] eqn:G; [|assumption].
    cbn [fst]. apply sidelined_set; [assumption|]. intros Hk.
    rewrite Hk in G, Hrev. rewrite String.eqb_refl, andb_true_r in Hrev.
    apply String.eqb_neq in Hrev.
    destruct (HB room G) as [Hnl Hd]. cbn [phase players set_players].
    split; [exact Hnl|]. intros p Gp.
    rewrite JsMapFacts.get_set_neq in Gp by assumption. auto.
  - (* start-race *)
    unfold start_race.
    destruct (JsMap.get _ rooms) as [room|] eqn:G; [|assumption].
    destruct (negb (String.eqb _ _)); [assumption|].
    destruct (negb (phase_eqb (phase room) Lobby)) eqn:Ep; [assumption|].
    apply negb_false_iff, phase_eqb_eq in Ep.
    destruct (_ <? 1); [assumption|]. cbn [fst].
    apply sidelined_set; [assumption|]. intros ->.
    destruct (HB room G) as [Hnl _]. contradiction.
  - (* click *)
    unfold click.
    destruct (JsMap.get roomCode rooms) as [room|] eqn:G; [|assumption].
    destruct (negb (phase_eqb (phase room) Racing)) eqn:Ep; [assumption|].
    apply negb_false_iff, phase_eqb_eq in Ep.
    destruct (JsMap.get sid0 (players room)) as [q|] eqn:Gq; [|assumption].
    destruct (truthy_time (finishedAt q) || disconnected q)%bool eqn:Eq;
      [assumption|].
    apply orb_false_iff in Eq as [_ Edq].
    destruct (_ <? 50); [assumption|]. cbv zeta.
    destruct (Inv_get _ _ _ HI G) as (_ & _ & [Hnd _] & _). simpl in Hnd.
    assert (Hrec : roomCode = key ->
              forall v p,
                JsMap.get sid (JsMap.set sid0 v (players room)) = Some p ->
                disconnected p = true).
    { intros -> v p Gp. destruct (HB room G) as [_ Hd].
      destruct (string_dec sid0 sid) as [->|Hs].
      - rewrite (Hd q Gq) in Edq. discriminate.
      - rewrite JsMapFacts.get_set_neq in Gp by assumption. auto. }
    destruct (_ && _)%bool.
    + match goal with
      | |- context [checkAllFinished ?r ?c] =>
          pose proof (sidelined_checkAllFinished r c sid) as Hcf;
          destruct (checkAllFinished r c) as [room2 ems]
      end.
      cbn [fst] in *. apply sidelined_set; [assumption|]. intros Hk.
      apply Hcf.
      * cbn [players set_players]. now apply JsMapFacts.NoDup_keys_set.
      * exact Ep.
      * cbn [players set_players]. intros p. now apply Hrec.
    + cbn [fst]. apply sidelined_set; [assumption|]. intros Hk.
      cbn [phase players set_players]. split; [congruence|].
      intros p. now apply Hrec.
  - (* reset-room *)
    unfold reset_room.
    destruct (JsMap.get _ rooms) as [room|] eqn:G; [|assumption].
    destruct (negb _); [assumption|]. cbn [fst].
    apply sidelined_set; [assumption|]. intros ->.
    rewrite String.eqb_refl in Hrev. discriminate.
  - now apply handleDisconnect_sidelined.
  - now apply handleDisconnect_sidelined.
  - (* a tick of the broadcast interval *)
    unfold broadcast_tick.
    destruct (JsMap.get _ rooms) as [room|] eqn:G; [|assumption].
    destruct (armed _); [|assumption].
    destruct (negb _); [|assumption]. cbn [fst].
    apply sidelined_set; [assumption|]. intros ->. exact (HB room G).
  - (* the race timeout *)
    unfold race_timeout.
    destruct (JsMap.get _ rooms) as [room|] eqn:G; [|assumption].
    destruct (armed _); [|assumption]. cbv zeta.
    destruct (Inv_get _ _ _ HI G) as (_ & _ & [Hnd _] & _). simpl in Hnd.
    destruct (negb (phase_eqb _ _)) eqn:Ep.
    + cbn [fst]. apply sidelined_set; [assumption|]. intros ->.
      exact (HB room G).
    + apply negb_false_iff, phase_eqb_eq in Ep.
      cbn [phase set_raceTimeout] in Ep.
      destruct (endRace_first (set_raceTimeout room TDead) roomCode)
        as (Hfin & _).
      { cbn [phase set_raceTimeout]. congruence. }
      pose proof (endRace_record (set_raceTimeout room TDead) roomCode sid)
        as Hrec.
      destruct (endRace _ roomCode) as [room2 ems]. cbn [fst] in *.
      apply sidelined_set; [assumption|]. intros ->.
      split; [congruence|]. intros p' Gp'.
      destruct (Hrec p' Hnd Gp') as (p & rk & d & Gp & ->).
      destruct (HB room G) as [_ Hd]. exact (Hd p Gp).
  - (* TTL sweep *)
    cbn [fst]. intros room G. unfold ttl_sweep in G.
    apply JsMapFacts.get_filter_Some in G.
    apply (JsMapFacts.In_get _ _ _ (proj1 HI)) in G. auto.
Qed.

Lemma run_sidelined evs sid key :
  forall rooms,
  Inv rooms -> sidelined rooms sid key ->
  Forall wf_event evs ->
  Forall (fun e => revives sid key e = false) evs ->
  sidelined (fst (run rooms evs)) sid key.
Proof.
  induction evs as [|e evs IH]; intros rooms HI HB Hwf Hrev; [exact HB|].
  inversion Hwf; subst. inversion Hrev; subst.
  rewrite run_cons. apply IH; auto.
  - now apply step_Inv.
  - now apply step_sidelined.
Qed.

(** X12. A player leaving during the race is kept in the room: the player
    map has the same keys in the same order, the leaver's record is marked
    disconnected with its progress, click counter and finish stamp
    unchanged, every other player keeps progress, finish stamp and
    connection flag, [player-left] is the first message emitted, and the
    room is still registered (racing, or finished if that ended the race).
    From then on the leaver's clicks for the room are ignored: right after
    the departure, and after any further messages and timer firings among
    which that connection sends no [rejoin-room] for the room, the room is
    not reset and no [create-room] draws the room's code. *)
Theorem X12_racing_leave_keeps_player rooms sid key room :
  reachable rooms ->
  findRoomBySocket rooms sid = Some (key, room) ->
  phase room = Racing ->
  exists room' p p' newHostId ems,
    JsMap.get sid (players room) = Some p
    /\ snd (handleDisconnect rooms sid)
       = (ToRoom key, PlayerLeft sid newHostId) :: ems
    /\ JsMap.get key (fst (handleDisconnect rooms sid)) = Some room'
    /\ (phase room' = Racing \/ phase room' = Finished)
    /\ JsMap.keys (players room') = JsMap.keys (players room)
    /\ JsMap.get sid (players room') = Some p'
    /\ disconnected p' = true
    /\ progress p' = progress p
    /\ clickCount p' = clickCount p
    /\ finishedAt p' = finishedAt p
    /\ (forall k q,
          k <> sid -> JsMap.get k (players room) = Some q ->
          exists q',
            JsMap.get k (players room') = Some q'
            /\ progress q' = progress q
            /\ finishedAt q' = finishedAt q
            /\ disconnected q' = disconnected q)
    /\ (forall now,
          click (fst (handleDisconnect rooms sid)) sid key now
          = (fst (handleDisconnect rooms sid), []))
    /\ (forall evs now,
          Forall wf_event evs ->
          Forall (fun e => revives sid key e = false) evs ->
          click (fst (run (fst (handleDisconnect rooms sid)) evs)) sid key now
          = (fst (run (fst (handleDisconnect rooms sid)) evs), [])).
Proof.
  intros Hr F Hph. pose proof (reachable_Inv _ Hr) as HI.
  pose proof (handleDisconnect_Inv rooms sid HI) as HI'.
  destruct (findRoomBySocket_get _ _ _ _ HI F) as (G & Hcode & Hnd & p & Gp).
  destruct (handleDisconnect_racing rooms sid key room p F Hph Gp)
    as (host' & nh & Heq & _).
  cbv zeta in Heq. rewrite Heq, Hcode in HI'. rewrite Heq, Hcode. clear Heq.
  cbn [fst snd] in HI'. cbn [fst snd].
  set (ps1 := JsMap.set sid (set_disconnected p true) (players room)) in *.
  set (room2 := set_hostSocketId (set_players room ps1) host') in *.
  assert (Hnd1 : NoDup (JsMap.keys (players room2)))
    by now apply JsMapFacts.NoDup_keys_set.
  assert (Hk1 : JsMap.keys (players room2) = JsMap.keys (players room)).
  { apply JsMapFacts.keys_set_in. eapply JsMapFacts.get_keys; eauto. }
  destruct (checkAllFinished_get_player room2 key sid
              (set_disconnected p true) Hnd1) as (r & d & Gp').
  { apply JsMapFacts.get_set_eq. }
  pose proof (checkAllFinished_phase room2 key Hph) as Hph'.
  pose proof (checkAllFinished_keys room2 key) as Hk'.
  pose proof (checkAllFinished_get_player room2 key) as Hothers.
  destruct (checkAllFinished room2 key) as [room3 ems]. cbn [fst snd] in *.
  exists room3, p, (set_dnf (set_rank (set_disconnected p true) r) d), nh, ems.
  split; [exact Gp|]. split; [reflexivity|].
  split; [apply JsMapFacts.get_set_eq|]. split; [exact Hph'|].
  split; [congruence|]. split; [exact Gp'|].
  split; [reflexivity|]. split; [reflexivity|]. split; [reflexivity|].
  split; [reflexivity|].   split.
  - intros k q Hk Gk.
    destruct (Hothers k q Hnd1) as (r' & d' & Gq).
    { cbn [room2 players set_hostSocketId set_players]. unfold ps1.
      rewrite JsMapFacts.get_set_neq by congruence. exact Gk. }
    eexists. split; [exact Gq|]. repeat split.
  - assert (HB : sidelined (JsMap.set key room3 rooms) sid key).
    { intros room' G'. rewrite JsMapFacts.get_set_eq in G'.
      injection G' as <-. split.
      - destruct Hph' as [-> | ->]; discriminate.
      - intros q Gq. rewrite Gp' in Gq. now injection Gq as <-. }
    split.
    + intros now. now apply sidelined_click.
    + intros evs now Hwf Hrev. apply sidelined_click.
      now apply run_sidelined.
Qed.

Lemma X12_racing_leave_keeps_player_witness :
  exists room' p',
    JsMap.get "ABCDEF" (fst (handleDisconnect race_of_two "b")) = Some room'
    /\ phase room' = Racing
    /\ JsMap.keys (players room') = ["a"; "b"]
    /\ JsMap.get "b" (players room') = Some p'
    /\ disconnected p' = true.
Proof.
  destruct (X12_racing_leave_keeps_player race_of_two "b" "ABCDEF" _
              race_of_two_reachable eq_refl eq_refl)
    as (room' & p & p' & nh & ems & _ & _ & G & _ & Hk & Gp' & Hd & _).
  exists room', p'. split; [exact G|]. split; [|auto].
  assert (Hx : exists r,
             JsMap.get "ABCDEF" (fst (handleDisconnect race_of_two "b"))
             = Some r /\ phase r = Racing).
  { eexists. split; [vm_compute; reflexivity|reflexivity]. }
  destruct Hx as (r & Gr & Hphr). rewrite Gr in G.
  injection G as <-. exact Hphr.
Defined.

(** X13. Host migration during the race.  When the leaver is not the host,
    the host is unchanged and [player-left] carries no new host.  When the
    host leaves, the new host is the first player in join order, other than
    the leaver, who is not disconnected (its socket id being a non-empty
    string), and [player-left] names it; the end of the race, if the
    departure triggers it, does not change the host. *)
Theorem X13_racing_host_migration rooms sid key room :
  reachable rooms ->
  findRoomBySocket rooms sid = Some (key, room) ->
  phase room = Racing ->
  (hostSocketId room <> sid ->
   exists room' ems,
     JsMap.get key (fst (handleDisconnect rooms sid)) = Some room'
     /\ hostSocketId room' = hostSocketId room
     /\ snd (handleDisconnect rooms sid)
        = (ToRoom key, PlayerLeft sid None) :: ems)
  /\ (forall pre next post q,
        hostSocketId room = sid ->
        JsMap.keys (players room) = pre ++ next :: post ->
        (forall k, In k pre ->
           k = sid
           \/ exists qk, JsMap.get k (players room) = Some qk
                         /\ disconnected qk = true) ->
        next <> sid -> next <> "" ->
        JsMap.get next (players room) = Some q -> disconnected q = false ->
        exists room' ems,
          JsMap.get key (fst (handleDisconnect rooms sid)) = Some room'
          /\ hostSocketId room' = next
          /\ In next (JsMap.keys (players room'))
          /\ snd (handleDisconnect rooms sid)
             = (ToRoom key, PlayerLeft sid (Some next)) :: ems).
Proof.
  intros Hr F Hph. pose proof (reachable_Inv _ Hr) as HI.
  destruct (findRoomBySocket_get _ _ _ _ HI F) as (G & Hcode & Hnd & p & Gp).
  destruct (handleDisconnect_racing rooms sid key room p F Hph Gp)
    as (host' & nh & Heq & Hcases & Hnothost & Hfind).
  cbv zeta in Heq. rewrite Heq, Hcode. clear Heq. cbn [fst snd].
  match goal with
  | |- context [checkAllFinished ?r ?c] =>
      pose proof (checkAllFinished_host r c) as Hh;
      pose proof (checkAllFinished_keys r c) as Hk;
      destruct (checkAllFinished r c) as [room3 ems]
  end.
  cbn [fst snd hostSocketId set_hostSocketId players set_players] in *.
  split.
  - intros Hne. exists room3, ems.
    split; [apply JsMapFacts.get_set_eq|].
    destruct Hcases as [[-> ->]|[Heq _]]; [|contradiction].
    split; [exact Hh|reflexivity].
  - intros pre next post q Hhost Hkeys Hpre Hns Hne Gn Hd.
    assert (Hk1 : JsMap.keys (JsMap.set sid (set_disconnected p true)
                                        (players room))
                  = JsMap.keys (players room)).
    { apply JsMapFacts.keys_set_in. eapply JsMapFacts.get_keys; eauto. }
    destruct (Hfind next Hhost) as [-> ->].
    + rewrite Hk1, Hkeys. apply find_app_first.
      * intros y Hy. destruct (string_dec y sid) as [->|Hys].
        { now rewrite JsMapFacts.get_set_eq. }
        rewrite JsMapFacts.get_set_neq by congruence.
        destruct (Hpre y Hy) as [->|(qk & Gk & Hdk)]; [congruence|].
        now rewrite Gk, Hdk.
      * rewrite JsMapFacts.get_set_neq by congruence. now rewrite Gn, Hd.
    + now destruct next.
    + exists room3, ems. split; [apply JsMapFacts.get_set_eq|].
      split; [exact Hh|]. split; [|reflexivity].
      rewrite Hk, Hk1, Hkeys. apply in_app_iff. right. now left.
Qed.

Lemma X13_racing_host_migration_witness :
  exists room' ems,
    JsMap.get "ABCDEF" (fst (handleDisconnect race_of_two "a")) = Some room'
    /\ hostSocketId room' = "b"
    /\ In "b" (JsMap.keys (players room'))
    /\ snd (handleDisconnect race_of_two "a")
       = (ToRoom "ABCDEF", PlayerLeft "a" (Some "b")) :: ems.
Proof.
  destruct (X13_racing_host_migration race_of_two "a" "ABCDEF" _
              race_of_two_reachable eq_refl eq_refl) as (_ & H).
  refine (H ["a"] "b" [] _ eq_refl eq_refl _ _ _ eq_refl eq_refl).
  - intros k [<-|[]]. now left.
  - discriminate.
  - discriminate.
Defined.

(** ** The TTL sweep *)

Lemma get_filter_iff {V : Type} (f : string * V -> bool) k v (m : JsMap.t V) :
  NoDup (JsMap.keys m) ->
  JsMap.get k (filter f m) = Some v
  <-> JsMap.get k m = Some v /\ f (k, v) = true.
Proof.
  intros Hnd. split.
  - intros H. apply JsMapFacts.get_In in H. apply filter_In in H as [Hin Hf].
    split; [now apply JsMapFacts.In_get|exact Hf].
  - intros [G Hf]. apply JsMapFacts.In_get;
      [now apply JsMapFacts.NoDup_keys_filter|].
    apply filter_In. split; [now apply JsMapFacts.get_In|exact Hf].
Qed.

Lemma filter_idem {A : Type} (f : A -> bool) l :
  filter f (filter f l) = filter f l.
Proof.
  induction l as [|x l IH]; simpl; [reflexivity|].
  destruct (f x) eqn:E; simpl; [rewrite E; now f_equal|assumption].
Qed.

(** X14. The TTL sweep keeps exactly the rooms that are at most two hours
    old, unchanged and in their order (a room exactly two hours old stays),
    and removes the others whatever their phase; sweeping twice at the same
    instant is the same as sweeping once, and a sweep of a registry with no
    old room changes nothing. *)
Theorem X14_ttl_sweep rooms now :
  reachable rooms ->
  (forall k room,
     JsMap.get k (ttl_sweep rooms now) = Some room
     <-> JsMap.get k rooms = Some room
         /\ now - createdAt room <= TWO_HOURS)
  /\ (forall k room,
        JsMap.get k rooms = Some room ->
        TWO_HOURS < now - createdAt room ->
        JsMap.get k (ttl_sweep rooms now) = None)
  /\ ttl_sweep (ttl_sweep rooms now) now = ttl_sweep rooms now
  /\ ((forall k room, JsMap.get k rooms = Some room ->
                      now - createdAt room <= TWO_HOURS) ->
      ttl_sweep rooms now = rooms).
Proof.
  intros Hr. destruct (reachable_Inv _ Hr) as [Hnd _].
  unfold ttl_sweep. split; [|split; [|split]].
  - intros k room. rewrite get_filter_iff by assumption. cbn [snd].
    rewrite negb_true_iff, Z.ltb_ge. reflexivity.
  - intros k room G Hold. eapply get_filter_out; eauto. cbn [snd].
    apply Z.ltb_lt in Hold. now rewrite Hold.
  - apply filter_idem.
  - intros Hyoung. apply filter_all. intros [k room] Hin. cbn [snd].
    apply negb_true_iff, Z.ltb_ge. apply (Hyoung k).
    now apply JsMapFacts.In_get.
Qed.

Lemma X14_ttl_sweep_witness :
  ttl_sweep race_of_two 7200000 = race_of_two
  /\ JsMap.get "ABCDEF" (ttl_sweep race_of_two 7200001) = None.
Proof.
  destruct (X14_ttl_sweep race_of_two 7200000 race_of_two_reachable)
    as (_ & _ & _ & Hkeep).
  destruct (X14_ttl_sweep race_of_two 7200001 race_of_two_reachable)
    as (_ & Hdrop & _).
  split.
  - apply Hkeep. intros k room G.
    assert (Hk : In k (JsMap.keys race_of_two))
      by (eapply JsMapFacts.get_keys; eauto).
    destruct Hk as [<-|[]]. vm_compute in G. injection G as <-.
    vm_compute. discriminate.
  - refine (Hdrop "ABCDEF" _ eq_refl _). reflexivity.
Defined.

(** ** The broadcast loop *)

(** X15. In a reachable registry a tick of the broadcast interval never
    changes the registry.  For a racing room it emits exactly one
    [progress-update] to the room, listing every player of the room once, in
    join order, under its socket id with its current progress (disconnected
    and finished players included); for a room that is not racing, or a code
    that is not registered, it emits nothing. *)
Theorem X15_broadcast_tick rooms c :
  reachable rooms ->
  fst (broadcast_tick rooms c) = rooms
  /\ (forall room,
        JsMap.get c rooms = Some room -> phase room = Racing ->
        snd (broadcast_tick rooms c)
        = [(ToRoom c,
            ProgressUpdate
              (map (fun e => (fst e, progress (snd e))) (players room)))])
  /\ (forall room,
        JsMap.get c rooms = Some room -> phase room <> Racing ->
        snd (broadcast_tick rooms c) = [])
  /\ (JsMap.get c rooms = None -> snd (broadcast_tick rooms c) = []).
Proof.
  intros Hr. pose proof (reachable_Inv _ Hr) as HI.
  pose proof (reachable_Sound _ Hr) as HS.
  unfold broadcast_tick.
  destruct (JsMap.get c rooms) as [room|] eqn:G;
    [|repeat split; intros; congruence].
  destruct (Inv_get _ _ _ HI G) as (_ & _ & _ & Hb & _). simpl in Hb.
  apply JsMapFacts.get_In in G.
  destruct (Sound_In _ _ _ HS G) as (_ & _ & _ & _ & _ & Hid).
  cbn [snd] in Hid.
  destruct (phase room) eqn:Hph.
  - assert (Ha : armed (broadcastInterval room) = false).
    { destruct (broadcastInterval room); try reflexivity.
      assert (Lobby = Racing) by now apply Hb. discriminate. }
    rewrite Ha. repeat split; intros; congruence.
  - assert (Ha : broadcastInterval room = TArmed) by now apply Hb.
    rewrite Ha. cbn [armed phase_eqb negb fst snd].
    split; [reflexivity|]. split; [|split; intros; congruence].
    intros room0 [= <-] _. do 3 f_equal.
    unfold JsMap.values. rewrite map_map. apply map_ext_in.
    intros e He. apply (proj1 (Forall_forall _ _) Hid) in He.
    destruct He as (Hsid & _). now rewrite Hsid.
  - assert (Ha : armed (broadcastInterval room) = false).
    { destruct (broadcastInterval room); try reflexivity.
      assert (Finished = Racing) by now apply Hb. discriminate. }
    rewrite Ha. repeat split; intros; congruence.
Qed.

Lemma X15_broadcast_tick_witness :
  snd (broadcast_tick race_of_two "ABCDEF")
  = [(ToRoom "ABCDEF", ProgressUpdate [("a", 0); ("b", 0)])].
Proof.
  destruct (X15_broadcast_tick race_of_two "ABCDEF" race_of_two_reachable)
    as (_ & H & _).
  exact (H _ eq_refl eq_refl).
Defined.

(** ** Messages stay within their room *)

(** X16. A message never touches a room other than the one it is about: in
    a reachable registry, after any message that carries a room code
    ([join-room], [rejoin-room], [start-race], [click], [reset-room]), any
    timer firing for a room, and any [leave-room] or [disconnect], every
    room registered under another code is exactly as before; and a
    [leave-room] or [disconnect] of a connection that is in no room changes
    nothing and emits nothing. *)
Theorem X16_other_rooms_untouched rooms e :
  reachable rooms ->
  (forall c k,
     addressed rooms e = Some c -> k <> c ->
     JsMap.get k (fst (step rooms e)) = JsMap.get k rooms)
  /\ (forall sid,
        (e = LeaveRoom sid \/ e = Disconnect sid) ->
        addressed rooms e = None ->
        step rooms e = (rooms, [])).
Proof.
  intros Hr. pose proof (reachable_Inv _ Hr) as HI. split.
  - intros c k Ha Hk.
    assert (Hset : forall r, JsMap.get k (JsMap.set c r rooms)
                             = JsMap.get k rooms).
    { intros r. apply JsMapFacts.get_set_neq. congruence. }
    destruct e; cbn [addressed step] in *; try discriminate.
    + injection Ha as <-. unfold join_room.
      repeat break_match_goal; cbn [fst]; auto.
    + injection Ha as <-. unfold rejoin_room.
      repeat break_match_goal; cbn [fst]; auto.
    + injection Ha as <-. unfold start_race.
      repeat break_match_goal; cbn [fst]; auto.
    + injection Ha as <-. unfold click.
      destruct (JsMap.get roomCode rooms) as [room|]; [|reflexivity].
      destruct (negb _); [reflexivity|].
      destruct (JsMap.get sid (players room)); [|reflexivity].
      destruct (_ || _)%bool; [reflexivity|].
      destruct (_ <? 50); [reflexivity|]. cbv zeta.
      destruct (_ && _)%bool; [|apply Hset].
      destruct (checkAllFinished _ _). apply Hset.
    + injection Ha as <-. unfold reset_room.
      repeat break_match_goal; cbn [fst]; auto.
    + destruct (findRoomBySocket rooms sid) as [[key room]|] eqn:F;
        [|discriminate].
      injection Ha as <-. eapply handleDisconnect_frame; eauto.
    + destruct (findRoomBySocket rooms sid) as [[key room]|] eqn:F;
        [|discriminate].
      injection Ha as <-. eapply handleDisconnect_frame; eauto.
    + injection Ha as <-. unfold broadcast_tick.
      repeat break_match_goal; cbn [fst]; auto.
    + injection Ha as <-. unfold race_timeout.
      destruct (JsMap.get roomCode rooms) as [room|]; [|reflexivity].
      destruct (armed _); [|reflexivity]. cbv zeta.
      destruct (negb _); [apply Hset|].
      destruct (endRace _ _). apply Hset.
  - intros sid [-> | ->] Ha; cbn [addressed step] in *;
      unfold handleDisconnect;
      destruct (findRoomBySocket rooms sid) as [[key room]|];
      try discriminate; reflexivity.
Qed.

Lemma X16_other_rooms_untouched_witness :
  JsMap.get "ABCDEG"
    (fst (step two_rooms_one_socket (Disconnect "h")))
  = JsMap.get "ABCDEG" two_rooms_one_socket.
Proof.
  assert (Hr : reachable two_rooms_one_socket).
  { rewrite two_rooms_one_socket_run.
    apply reachable_run; [constructor|]. repeat constructor. }
  refine (proj1 (X16_other_rooms_untouched two_rooms_one_socket
                   (Disconnect "h") Hr) "ABCDEF" "ABCDEG" eq_refl _).
  discriminate.
Defined.

(** ** The end of the race: standings *)

Lemma endRace_finished_untouched room c sid p :
  NoDup (JsMap.keys (players room)) ->
  JsMap.get sid (players room) = Some p ->
  truthy_time (finishedAt p) = true ->
  JsMap.get sid (players (fst (endRace room c))) = Some p.
Proof.
  intros Hnd G Hf. rewrite endRace_eq.
  destruct (phase_eqb (phase room) Finished); cbn [fst players]; [exact G|].
  rewrite write_back_get, G.
  destruct (JsMap.get sid (unfinished_ranked (players room))) as [p'|] eqn:G';
    [|reflexivity].
  exfalso. apply JsMapFacts.get_In in G'.
  apply assign_ranks_In in G' as (p0 & r & Hin & _). cbn [fst] in Hin.
  apply js_sort_In in Hin. apply filter_In in Hin as [Hin Hunf].
  apply (JsMapFacts.In_get _ _ _ Hnd) in Hin.
  assert (p0 = p) by congruence. subst p0.
  unfold is_finished in Hunf. cbn [snd] in Hunf. rewrite Hf in Hunf.
  discriminate.
Qed.

Lemma checkAllFinished_finished_untouched room c sid p :
  NoDup (JsMap.keys (players room)) ->
  JsMap.get sid (players room) = Some p ->
  truthy_time (finishedAt p) = true ->
  JsMap.get sid (players (fst (checkAllFinished room c))) = Some p.
Proof.
  intros Hnd G Hf. destruct (checkAllFinished_cases room c) as [-> | ->];
    [now apply endRace_finished_untouched|exact G].
Qed.

Lemma endRace_unfinished_dnf room c sid p :
  phase room <> Finished ->
  JsMap.get sid (players (fst (endRace room c))) = Some p ->
  truthy_time (finishedAt p) = false -> dnf p = true.
Proof.
  intros Hph G Hf. rewrite endRace_eq in G.
  destruct (phase_eqb (phase room) Finished) eqn:E.
  { apply phase_eqb_eq in E. contradiction. }
  cbn [fst players] in G. apply JsMapFacts.get_In in G.
  apply write_back_In in G as [G|[G Hnone]].
  - now apply (proj1 (Forall_forall _ _) (assign_ranks_dnf _ _)) in G.
  - exfalso. cbn [fst] in Hnone. apply JsMapFacts.get_None_keys in Hnone.
    apply Hnone.
    eapply Permutation_in; [symmetry; apply unfinished_ranked_keys|].
    apply in_map_iff. exists (sid, p). split; [reflexivity|].
    apply filter_In. split; [assumption|].
    unfold is_finished. cbn [snd]. now rewrite Hf.
Qed.

(** X17. The final standings.  When [endRace] ends the race of a room, the
    list sent with [race-finished] is the finished players followed by the
    unfinished ones and holds every player of the room exactly once, as
    stored after the race.  The finished players are there as they were, in
    ascending rank; the unfinished ones are marked DNF, in descending
    progress, with the consecutive ranks that follow the number of finished
    players; in the room every player without a finish stamp is then marked
    DNF and every finished player is unchanged. *)
Theorem X17_final_standings room c :
  NoDup (JsMap.keys (players room)) ->
  phase room <> Finished ->
  exists fin unf,
    snd (endRace room c)
    = [(ToRoom c,
        RaceFinished (map (fun e => serializePlayer (snd e)) (fin ++ unf)))]
    /\ Permutation (fin ++ unf) (players (fst (endRace room c)))
    /\ Forall (fun e => In e (players room)
                        /\ truthy_time (finishedAt (snd e)) = true) fin
    /\ StronglySorted (fun x y => x <= y)
         (map (fun e => num (rank (snd e))) fin)
    /\ Forall (fun e => dnf (snd e) = true
                        /\ truthy_time (finishedAt (snd e)) = false) unf
    /\ StronglySorted (fun x y => y <= x)
         (map (fun e => progress (snd e)) unf)
    /\ map (fun e => rank (snd e)) unf
       = map (fun i => Some (Z.of_nat (List.length fin) + Z.of_nat i))
             (seq 1 (List.length unf))
    /\ (forall sid p,
          JsMap.get sid (players (fst (endRace room c))) = Some p ->
          truthy_time (finishedAt p) = false -> dnf p = true)
    /\ (forall sid p,
          JsMap.get sid (players room) = Some p ->
          truthy_time (finishedAt p) = true ->
          JsMap.get sid (players (fst (endRace room c))) = Some p).
Proof.
  intros Hnd Hph.
  destruct (buildResultsArray_shape room) as (_ & Hfin & Hfs & Hunf & Hus & Hrk).
  exists (finished_sorted (players room)), (unfinished_ranked (players room)).
  split; [|split; [|split; [|split; [|split; [|split; [|split; [|split]]]]]]];
    try assumption.
  - rewrite endRace_eq.
    destruct (phase_eqb (phase room) Finished) eqn:E; [|reflexivity].
    apply phase_eqb_eq in E. contradiction.
  - rewrite endRace_eq.
    destruct (phase_eqb (phase room) Finished) eqn:E.
    { apply phase_eqb_eq in E. contradiction. }
    cbn [fst players]. now apply results_entries_perm.
  - apply Forall_forall. intros e He. split.
    + unfold finished_sorted in He. apply js_sort_In in He.
      now apply filter_In in He.
    + now apply (proj1 (Forall_forall _ _) Hfin).
  - intros sid p G Hf. now apply (endRace_unfinished_dnf room c sid).
  - intros sid p G Hf. now apply endRace_finished_untouched.
Qed.

Lemma X17_final_standings_witness :
  exists results,
    snd (endRace room_of_three "ABCDEF")
    = [(ToRoom "ABCDEF", RaceFinished results)]
    /\ map (fun s => (sp_socketId s, sp_rank s, sp_dnf s)) results
       = [("b", Some 1, false); ("c", Some 2, true); ("a", Some 3, true)].
Proof.
  destruct (X17_final_standings room_of_three "ABCDEF")
    as (fin & unf & Hems & _).
  - unfold JsMap.keys. simpl.
    repeat (constructor; [simpl; intuition discriminate|]). constructor.
  - discriminate.
  - eexists. split; [exact Hems|].
    assert (H : exists results,
               snd (endRace room_of_three "ABCDEF")
               = [(ToRoom "ABCDEF", RaceFinished results)]
               /\ map (fun s => (sp_socketId s, sp_rank s, sp_dnf s)) results
                  = [("b", Some 1, false); ("c", Some 2, true);
                     ("a", Some 3, true)]).
    { eexists. split; vm_compute; reflexivity. }
    destruct H as (results & Hr1 & Hr2). rewrite Hems in Hr1.
    injection Hr1 as <-. exact Hr2.
Defined.

(** ** Crossing the line *)

Lemma checkAllFinished_all_done room c :
  (forall k q, In (k, q) (players room) ->
     disconnected q = false -> truthy_time (finishedAt q) = true) ->
  checkAllFinished room c = endRace room c.
Proof.
  intros H. unfold checkAllFinished.
  destruct (forallb _ _) eqn:E; [reflexivity|].
  exfalso. assert (Ht : forallb (fun p => truthy_time (finishedAt p))
                          (filter (fun p => negb (disconnected p))
                                  (JsMap.values (players room))) = true).
  { apply forallb_forall. intros q Hq. apply filter_In in Hq as [Hq Hd].
    unfold JsMap.values in Hq. apply in_map_iff in Hq as [[k q'] [<- Hin]].
    apply negb_true_iff in Hd. eapply H; eauto. }
  congruence.
Qed.

Lemma checkAllFinished_still_racing room c k q :
  In (k, q) (players room) ->
  disconnected q = false -> truthy_time (finishedAt q) = false ->
  checkAllFinished room c = (room, []).
Proof.
  intros Hin Hd Hf. unfold checkAllFinished.
  destruct (forallb _ _) eqn:E; [|reflexivity].
  exfalso.
  assert (Hq : truthy_time (finishedAt q) = true); [|congruence].
  apply (proj1 (forallb_forall _ _) E). apply filter_In.
  split; [|now rewrite Hd].
  unfold JsMap.values. apply in_map_iff. exists (k, q). auto.
Qed.

(** The click that brings the counter from 99 to 100. *)
Lemma click_hundredth rooms sid c now room player :
  JsMap.get c rooms = Some room ->
  phase room = Racing ->
  JsMap.get sid (players room) = Some player ->
  truthy_time (finishedAt player) = false ->
  disconnected player = false ->
  50 <= now - lastClickTime player ->
  clickCount player = 99 ->
  let p3 :=
    set_rank (set_finishedAt (accept_click player now) (Some now))
             (Some (finishedCount room + 1)) in
  let room1 :=
    set_players (set_finishedCount room (finishedCount room + 1))
                (JsMap.set sid p3 (players room)) in
  click rooms sid c now
  = (JsMap.set c (fst (checkAllFinished room1 c)) rooms,
     (ToRoom c,
      PlayerFinished sid (finishedCount room + 1)
                     (now - num (raceStartedAt room)))
     :: snd (checkAllFinished room1 c)).
Proof.
  intros G Hph Gp Hf Hd Ht Hcc. cbv zeta. unfold click.
  rewrite G, Hph, Gp, Hf, Hd. cbn [phase_eqb negb orb].
  apply Z.ltb_ge in Ht. rewrite Ht.
  assert (Hc : clickCount (accept_click player now) = 100).
  { simpl. rewrite Hcc. reflexivity. }
  assert (Hfa : finishedAt (accept_click player now) = finishedAt player)
    by reflexivity.
  rewrite Hc, Hfa, Hf. cbn [Z.leb Z.compare Pos.compare Pos.compare_cont
                            negb andb].
  now destruct (checkAllFinished _ _).
Qed.

(** A click that leaves the counter below 100. *)
Lemma click_before_finish rooms sid c now room player :
  JsMap.get c rooms = Some room ->
  phase room = Racing ->
  JsMap.get sid (players room) = Some player ->
  truthy_time (finishedAt player) = false ->
  disconnected player = false ->
  50 <= now - lastClickTime player ->
  clickCount player < 99 ->
  click rooms sid c now
  = (JsMap.set c
       (set_players room
          (JsMap.set sid (accept_click player now) (players room))) rooms,
     []).
Proof.
  intros G Hph Gp Hf Hd Ht Hcc. unfold click.
  rewrite G, Hph, Gp, Hf, Hd. cbn [phase_eqb negb orb].
  apply Z.ltb_ge in Ht. rewrite Ht.
  assert (Hc : (100 <=? clickCount (accept_click player now)) = false).
  { apply Z.leb_gt. simpl. lia. }
  now rewrite Hc.
Qed.

(** X18. Finish detection.  In a reachable registry, for an active
    unfinished player of a racing room whose click passes the throttle: as
    long as the counter stays below 100 nothing is emitted, the player gets
    no finish stamp and no rank, and [finishedCount] does not move; the
    click that brings the counter to 100 stamps [finishedAt] with the time
    of the click, gives the player the rank [finishedCount + 1], raises
    [finishedCount] by one and emits [player-finished] with that rank and
    the time since [raceStartedAt] first, followed by at most a
    [race-finished]. *)
Theorem X18_finish_detection rooms sid c now room player :
  reachable rooms ->
  JsMap.get c rooms = Some room ->
  phase room = Racing ->
  JsMap.get sid (players room) = Some player ->
  truthy_time (finishedAt player) = false ->
  disconnected player = false ->
  50 <= now - lastClickTime player ->
  clickCount player <= 99
  /\ (clickCount player < 99 ->
      snd (click rooms sid c now) = []
      /\ exists room' p',
           JsMap.get c (fst (click rooms sid c now)) = Some room'
           /\ phase room' = Racing
           /\ finishedCount room' = finishedCount room
           /\ JsMap.get sid (players room') = Some p'
           /\ progress p' = progress player + 1
           /\ finishedAt p' = finishedAt player
           /\ rank p' = rank player)
  /\ (clickCount player = 99 ->
      exists room' p' ems,
        JsMap.get c (fst (click rooms sid c now)) = Some room'
        /\ finishedCount room' = finishedCount room + 1
        /\ JsMap.get sid (players room') = Some p'
        /\ progress p' = 100
        /\ finishedAt p' = Some now
        /\ truthy_time (finishedAt p') = true
        /\ rank p' = Some (finishedCount room + 1)
        /\ snd (click rooms sid c now)
           = (ToRoom c,
              PlayerFinished sid (finishedCount room + 1)
                             (now - num (raceStartedAt room))) :: ems
        /\ (ems = []
            \/ exists results, ems = [(ToRoom c, RaceFinished results)])).
Proof.
  intros Hr G Hph Gp Hf Hd Ht. pose proof (reachable_Inv _ Hr) as HI.
  destruct (Inv_get _ _ _ HI G) as (_ & _ & [Hnd Hall] & _).
  simpl in Hnd, Hall.
  assert (Hok : player_ok player) by (eapply players_ok_get; [split|]; eauto).
  destruct Hok as (Hpc & Hrange & Hlast & Hfin).
  assert (Hlt : clickCount player <= 99).
  { destruct (Z.eq_dec (clickCount player) 100) as [E|E]; [|lia].
    apply Hfin in E. congruence. }
  split; [exact Hlt|]. split.
  - intros Hcc.
    rewrite (click_before_finish rooms sid c now room player) by assumption.
    cbn [fst snd]. split; [reflexivity|]. eexists _, _.
    split; [apply JsMapFacts.get_set_eq|].
    cbn [phase finishedCount players set_players].
    split; [exact Hph|]. split; [reflexivity|].
    split; [apply JsMapFacts.get_set_eq|].
    split; [simpl; lia|]. split; reflexivity.
  - intros Hcc.
    rewrite (click_hundredth rooms sid c now room player) by assumption.
    cbn [fst snd].
    set (p3 := set_rank (set_finishedAt (accept_click player now) (Some now))
                        (Some (finishedCount room + 1))).
    set (room1 := set_players (set_finishedCount room (finishedCount room + 1))
                              (JsMap.set sid p3 (players room))).
    assert (Hnow : truthy_time (Some now) = true).
    { simpl. destruct (Z.eqb_spec now 0); [lia|reflexivity]. }
    assert (Hnd1 : NoDup (JsMap.keys (players room1)))
      by now apply JsMapFacts.NoDup_keys_set.
    pose proof (checkAllFinished_finished_untouched room1 c sid p3 Hnd1
                  (JsMapFacts.get_set_eq _ _ _) Hnow) as Gp3.
    assert (Hfc : finishedCount (fst (checkAllFinished room1 c))
                  = finishedCount room + 1).
    { destruct (checkAllFinished_cases room1 c) as [-> | ->];
        [|reflexivity].
      rewrite endRace_eq. now destruct (phase_eqb _ _). }
    assert (Hems : snd (checkAllFinished room1 c) = []
                   \/ exists results,
                        snd (checkAllFinished room1 c)
                        = [(ToRoom c, RaceFinished results)]).
    { destruct (checkAllFinished_racing room1 c Hph) as [-> |[_ H]]; auto. }
    exists (fst (checkAllFinished room1 c)), p3, (snd (checkAllFinished room1 c)).
    split; [apply JsMapFacts.get_set_eq|]. split; [exact Hfc|].
    split; [exact Gp3|]. split; [simpl; lia|].
    split; [reflexivity|]. split; [exact Hnow|]. split; [reflexivity|].
    split; [reflexivity|exact Hems].
Qed.

Lemma X18_finish_detection_witness :
  exists room' p' ems,
    JsMap.get "ABCDEF" (fst (click one_click_to_go "a" "ABCDEF" 6000))
    = Some room'
    /\ JsMap.get "a" (players room') = Some p'
    /\ finishedAt p' = Some 6000
    /\ rank p' = Some (0 + 1)
    /\ snd (click one_click_to_go "a" "ABCDEF" 6000)
       = (ToRoom "ABCDEF", PlayerFinished "a" (0 + 1) (6000 - num (Some 1000)))
         :: ems.
Proof.
  destruct (X18_finish_detection one_click_to_go "a" "ABCDEF" 6000 _ _
              one_click_to_go_reachable eq_refl eq_refl eq_refl eq_refl
              eq_refl) as (_ & _ & H).
  - vm_compute. discriminate.
  - destruct (H eq_refl)
      as (room' & p' & ems & G & _ & Gp & _ & Hf & _ & Hrk & Hems & _).
    exists room', p', ems. auto.
Defined.

(** X19. The race ends with the last active finisher.  When the click that
    brings a player to 100 leaves no connected player without a finish
    stamp, the same step ends the race: the room becomes [Finished], no
    timer stays armed and [race-finished] follows [player-finished].  When
    some other connected player is still unfinished, only [player-finished]
    is emitted and the room stays [Racing] with its timers armed. *)
Theorem X19_last_finisher_ends_race rooms sid c now room player :
  reachable rooms ->
  JsMap.get c rooms = Some room ->
  phase room = Racing ->
  JsMap.get sid (players room) = Some player ->
  truthy_time (finishedAt player) = false ->
  disconnected player = false ->
  50 <= now - lastClickTime player ->
  clickCount player = 99 ->
  ((forall k q,
      k <> sid -> JsMap.get k (players room) = Some q ->
      disconnected q = true \/ truthy_time (finishedAt q) = true) ->
   exists room' results,
     JsMap.get c (fst (click rooms sid c now)) = Some room'
     /\ phase room' = Finished
     /\ armed (broadcastInterval room') = false
     /\ armed (raceTimeout room') = false
     /\ snd (click rooms sid c now)
        = [ (ToRoom c,
             PlayerFinished sid (finishedCount room + 1)
                            (now - num (raceStartedAt room)));
            (ToRoom c, RaceFinished results) ])
  /\ (forall k q,
        k <> sid -> JsMap.get k (players room) = Some q ->
        disconnected q = false -> truthy_time (finishedAt q) = false ->
        exists room',
          JsMap.get c (fst (click rooms sid c now)) = Some room'
          /\ phase room' = Racing
          /\ broadcastInterval room' = TArmed
          /\ raceTimeout room' = TArmed
          /\ snd (click rooms sid c now)
             = [ (ToRoom c,
                  PlayerFinished sid (finishedCount room + 1)
                                 (now - num (raceStartedAt room))) ]).
Proof.
  intros Hr G Hph Gp Hf Hd Ht Hcc. pose proof (reachable_Inv _ Hr) as HI.
  destruct (Inv_get _ _ _ HI G) as (_ & _ & [Hnd Hall] & Hb & Hto).
  simpl in Hnd, Hall, Hb, Hto.
  destruct (players_ok_get _ _ _ (conj Hnd Hall) Gp) as (_ & _ & Hlast & _).
  assert (Hnow : truthy_time (Some now) = true).
  { simpl. destruct (Z.eqb_spec now 0); [lia|reflexivity]. }
  rewrite (click_hundredth rooms sid c now room player) by assumption.
  cbn [fst snd].
  set (p3 := set_rank (set_finishedAt (accept_click player now) (Some now))
                      (Some (finishedCount room + 1))).
  set (room1 := set_players (set_finishedCount room (finishedCount room + 1))
                            (JsMap.set sid p3 (players room))).
  split.
  - intros Hothers.
    rewrite (checkAllFinished_all_done room1 c).
    + destruct (endRace_first room1 c) as (Hfin & Hbi & Hrt & results & Hems).
      { cbn [room1 phase set_players set_finishedCount]. congruence. }
      exists (fst (endRace room1 c)), results.
      split; [apply JsMapFacts.get_set_eq|]. rewrite Hems. auto.
    + intros k q Hin Hdq. cbn [room1 players set_players] in Hin.
      apply In_set_NoDup in Hin as [Heq|[Hin Hne]]; [| |assumption].
      * inversion Heq; subst. exact Hnow.
      * cbn [fst] in Hne. apply (JsMapFacts.In_get _ _ _ Hnd) in Hin.
        destruct (Hothers k q Hne Hin) as [H|H]; [congruence|exact H].
  - intros k q Hk Gk Hdq Hfq.
    rewrite (checkAllFinished_still_racing room1 c k q); auto.
    + exists room1. split; [apply JsMapFacts.get_set_eq|].
      cbn [room1 phase broadcastInterval raceTimeout set_players
           set_finishedCount fst snd].
      split; [exact Hph|]. split; [now apply Hb|]. split; [now apply Hto|].
      reflexivity.
    + cbn [room1 players set_players]. apply JsMapFacts.get_In.
      rewrite JsMapFacts.get_set_neq by congruence. exact Gk.
Qed.

Lemma X19_last_finisher_ends_race_witness :
  exists room',
    JsMap.get "ABCDEF" (fst (click one_click_to_go "a" "ABCDEF" 6000))
    = Some room'
    /\ phase room' = Racing
    /\ snd (click one_click_to_go "a" "ABCDEF" 6000)
       = [ (ToRoom "ABCDEF",
            PlayerFinished "a" (0 + 1) (6000 - num (Some 1000))) ].
Proof.
  destruct (X19_last_finisher_ends_race one_click_to_go "a" "ABCDEF" 6000 _ _
              one_click_to_go_reachable eq_refl eq_refl eq_refl eq_refl
              eq_refl) as (_ & H).
  - vm_compute. discriminate.
  - reflexivity.
  - destruct (H "b" _ ltac:(discriminate) eq_refl eq_refl eq_refl)
      as (room' & G & Hph & _ & _ & Hems).
    exists room'. auto.
Defined.

(** ** The race timeout *)

(** X20. When the race timeout of a racing room fires, the race is ended
    whatever the players have done: the room becomes [Finished] with no
    timer armed, exactly one [race-finished] is sent to the room, every
    player stays in the room with the same progress and connection flag,
    the finished players are untouched and every other player is marked
    DNF.  A second firing for that room does nothing. *)
Theorem X20_race_timeout_ends_race rooms c room :
  reachable rooms ->
  JsMap.get c rooms = Some room ->
  phase room = Racing ->
  exists room' results,
    race_timeout rooms c
    = (JsMap.set c room' rooms, [(ToRoom c, RaceFinished results)])
    /\ phase room' = Finished
    /\ armed (broadcastInterval room') = false
    /\ armed (raceTimeout room') = false
    /\ JsMap.keys (players room') = JsMap.keys (players room)
    /\ (forall sid p,
          JsMap.get sid (players room) = Some p ->
          exists p',
            JsMap.get sid (players room') = Some p'
            /\ progress p' = progress p
            /\ finishedAt p' = finishedAt p
            /\ disconnected p' = disconnected p
            /\ (truthy_time (finishedAt p) = true -> p' = p)
            /\ (truthy_time (finishedAt p) = false -> dnf p' = true))
    /\ race_timeout (JsMap.set c room' rooms) c = (JsMap.set c room' rooms, []).
Proof.
  intros Hr G Hph. pose proof (reachable_Inv _ Hr) as HI.
  destruct (Inv_get _ _ _ HI G) as (_ & _ & [Hnd _] & _ & Hto).
  simpl in Hnd, Hto.
  assert (Ha : raceTimeout room = TArmed) by now apply Hto.
  unfold race_timeout at 1. rewrite G, Ha. cbn [armed]. cbv zeta.
  cbn [phase set_raceTimeout]. rewrite Hph. cbn [phase_eqb negb].
  set (room1 := set_raceTimeout room TDead).
  assert (Hph1 : phase room1 <> Finished).
  { cbn [room1 phase set_raceTimeout]. congruence. }
  destruct (endRace_first room1 c Hph1) as (Hfin & Hbi & Hrt & results & Hems).
  pose proof (endRace_keys room1 c) as Hk.
  pose proof (endRace_get_player room1 c) as Hget.
  pose proof (endRace_finished_untouched room1 c) as Hkeep.
  pose proof (endRace_unfinished_dnf room1 c) as Hdnf.
  destruct (endRace room1 c) as [room2 ems]. cbn [fst snd] in *. subst ems.
  exists room2, results. split; [reflexivity|].
  split; [exact Hfin|]. split; [exact Hbi|]. split; [exact Hrt|].
  split; [exact Hk|]. split.
  - intros sid p Gp. destruct (Hget sid p Hnd Gp) as (r & d & Gp').
    eexists. split; [exact Gp'|]. repeat split.
    + intros Hf. specialize (Hkeep sid p Hnd Gp Hf). congruence.
    + intros Hf. apply (Hdnf sid _ Hph1 Gp'). exact Hf.
  - unfold race_timeout. rewrite JsMapFacts.get_set_eq. now rewrite Hrt.
Qed.

Lemma X20_race_timeout_ends_race_witness :
  exists room' results,
    race_timeout race_of_two "ABCDEF"
    = (JsMap.set "ABCDEF" room' race_of_two,
       [(ToRoom "ABCDEF", RaceFinished results)])
    /\ phase room' = Finished.
Proof.
  destruct (X20_race_timeout_ends_race race_of_two "ABCDEF" _
              race_of_two_reachable eq_refl eq_refl)
    as (room' & results & Heq & Hph & _).
  exists room', results. auto.
Defined.

(** ** The end of the race, trigger by trigger *)

(** The racing branch of [handleDisconnect] when every other player of the
    room is disconnected or has finished: the all-finished check passes
    and [endRace] runs. *)
Lemma handleDisconnect_ends_race rooms sid key room :
  Inv rooms ->
  findRoomBySocket rooms sid = Some (key, room) ->
  phase room = Racing ->
  (forall k q,
     k <> sid -> JsMap.get k (players room) = Some q ->
     disconnected q = true \/ truthy_time (finishedAt q) = true) ->
  exists room' newHostId results,
    handleDisconnect rooms sid
    = (JsMap.set key room' rooms,
       [ (ToRoom key, PlayerLeft sid newHostId);
         (ToRoom key, RaceFinished results) ])
    /\ phase room' = Finished
    /\ armed (broadcastInterval room') = false
    /\ armed (raceTimeout room') = false.
Proof.
  intros HI F Hph Hothers.
  destruct (findRoomBySocket_get _ _ _ _ HI F) as (G & Hcode & Hnd & p & Gp).
  destruct (handleDisconnect_racing rooms sid key room p F Hph Gp)
    as (host' & nh & Heq & _).
  cbv zeta in Heq. rewrite Heq, Hcode. clear Heq.
  set (room2 := set_hostSocketId
                  (set_players room
                     (JsMap.set sid (set_disconnected p true) (players room)))
                  host').
  rewrite (checkAllFinished_all_done room2 key).
  - destruct (endRace_first room2 key) as (Hfin & Hbi & Hrt & results & Hems).
    { cbn [room2 phase set_hostSocketId set_players]. congruence. }
    exists (fst (endRace room2 key)), nh, results. rewrite Hems. auto.
  - intros k q Hin Hdq.
    cbn [room2 players set_hostSocketId set_players] in Hin.
    apply In_set_NoDup in Hin as [Heq|[Hin Hne]]; [| |assumption].
    + inversion Heq; subst. discriminate.
    + cbn [fst] in Hne. apply (JsMapFacts.In_get _ _ _ Hnd) in Hin.
      destruct (Hothers k q Hne Hin) as [H|H]; [congruence|exact H].
Qed.

(** C3. The transition from [Racing] to [Finished] is idempotent.
    [endRace] itself: on a room that is not yet finished it sets the phase
    to [Finished], leaves neither the broadcast interval nor the race
    timeout armed and emits [race-finished] exactly once; on a finished room
    it changes nothing and emits nothing.
    In every reachable registry a room's broadcast interval and race
    timeout are armed exactly while its phase is [Racing], and each of the
    three triggers ends a racing room in the step in which it occurs, the
    room becoming [Finished] with no timer armed and [race-finished] being
    emitted once: the firing of the race timeout; the click that brings a
    player to 100 when every other player is disconnected or has finished;
    and the departure of a player when every other player is disconnected
    or has finished.
    Once the room is [Finished], a click, the firing of the timeout and a
    tick of the interval change nothing and emit nothing, and a departure
    takes the finished branch: it emits nothing and leaves phase and timers
    as they are.  Over all steps, [race-finished] is emitted only in a step
    that takes the room from [Racing] to [Finished], once in that step. *)
Theorem C3_end_of_race_idempotent :
  (forall room c,
     phase room <> Finished ->
     phase (fst (endRace room c)) = Finished
     /\ armed (broadcastInterval (fst (endRace room c))) = false
     /\ armed (raceTimeout (fst (endRace room c))) = false
     /\ exists results,
          snd (endRace room c) = [(ToRoom c, RaceFinished results)])
  /\ (forall room c, phase room = Finished -> endRace room c = (room, []))
  /\ (forall room c c',
        endRace (fst (endRace room c)) c' = (fst (endRace room c), []))
  /\ (forall rooms,
        reachable rooms ->
        (forall k room,
           JsMap.get k rooms = Some room ->
           (armed (broadcastInterval room) = true <-> phase room = Racing)
           /\ (armed (raceTimeout room) = true <-> phase room = Racing))
        /\ (forall c room,
              JsMap.get c rooms = Some room ->
              phase room = Racing ->
              (exists room' results,
                 race_timeout rooms c
                 = (JsMap.set c room' rooms,
                    [(ToRoom c, RaceFinished results)])
                 /\ phase room' = Finished
                 /\ armed (broadcastInterval room') = false
                 /\ armed (raceTimeout room') = false)
              /\ (forall sid player now,
                    JsMap.get sid (players room) = Some player ->
                    truthy_time (finishedAt player) = false ->
                    disconnected player = false ->
                    50 <= now - lastClickTime player ->
                    clickCount player = 99 ->
                    (forall k q,
                       k <> sid -> JsMap.get k (players room) = Some q ->
                       disconnected q = true
                       \/ truthy_time (finishedAt q) = true) ->
                    exists room' results,
                      click rooms sid c now
                      = (JsMap.set c room' rooms,
                         [ (ToRoom c,
                            PlayerFinished sid (finishedCount room + 1)
                                           (now - num (raceStartedAt room)));
                           (ToRoom c, RaceFinished results) ])
                      /\ phase room' = Finished
                      /\ armed (broadcastInterval room') = false
                      /\ armed (raceTimeout room') = false)
              /\ (forall sid,
                    findRoomBySocket rooms sid = Some (c, room) ->
                    (forall k q,
                       k <> sid -> JsMap.get k (players room) = Some q ->
                       disconnected q = true
                       \/ truthy_time (finishedAt q) = true) ->
                    exists room' newHostId results,
                      handleDisconnect rooms sid
                      = (JsMap.set c room' rooms,
                         [ (ToRoom c, PlayerLeft sid newHostId);
                           (ToRoom c, RaceFinished results) ])
                      /\ phase room' = Finished
                      /\ armed (broadcastInterval room') = false
                      /\ armed (raceTimeout room') = false))
        /\ (forall k room,
              JsMap.get k rooms = Some room ->
              phase room = Finished ->
              (forall sid now, click rooms sid k now = (rooms, []))
              /\ race_timeout rooms k = (rooms, [])
              /\ broadcast_tick rooms k = (rooms, [])
              /\ (forall sid,
                    findRoomBySocket rooms sid = Some (k, room) ->
                    snd (handleDisconnect rooms sid) = []
                    /\ forall room',
                         JsMap.get k (fst (handleDisconnect rooms sid))
                         = Some room' ->
                         phase room' = Finished
                         /\ broadcastInterval room' = broadcastInterval room
                         /\ raceTimeout room' = raceTimeout room))
        /\ (forall e em,
              In em (snd (step rooms e)) ->
              is_race_finished em = true ->
              List.length (filter is_race_finished (snd (step rooms e)))
              = 1%nat
              /\ exists c room room',
                   fst em = ToRoom c
                   /\ JsMap.get c rooms = Some room /\ phase room = Racing
                   /\ JsMap.get c (fst (step rooms e)) = Some room'
                   /\ phase room' = Finished)).
Proof.
  split; [exact endRace_first|].
  split; [exact endRace_again|].
  split.
  { intros room c c'. apply endRace_again. rewrite endRace_eq.
    destruct (phase_eqb (phase room) Finished) eqn:E; [|reflexivity].
    now apply phase_eqb_eq in E. }
  intros rooms Hr. pose proof (reachable_Inv _ Hr) as HI.
  assert (Htimers : forall k room,
            JsMap.get k rooms = Some room ->
            (armed (broadcastInterval room) = true <-> phase room = Racing)
            /\ (armed (raceTimeout room) = true <-> phase room = Racing)).
  { intros k room G.
    destruct (Inv_get _ _ _ HI G) as (_ & _ & _ & Hb & Ht). simpl in Hb, Ht.
    split.
    - rewrite <- Hb. destruct (broadcastInterval room); simpl;
        split; congruence.
    - rewrite <- Ht. destruct (raceTimeout room); simpl; split; congruence. }
  split; [exact Htimers|]. split; [|split].
  - (* the three triggers *)
    intros c room G Hph.
    destruct (Inv_get _ _ _ HI G) as (_ & _ & [Hnd Hall] & _).
    simpl in Hnd, Hall.
    split; [|split].
    + (* the race timeout fires *)
      destruct (Htimers c room G) as [_ Ht].
      assert (Ha : armed (raceTimeout room) = true) by now apply Ht.
      unfold race_timeout. rewrite G, Ha. cbv zeta.
      cbn [phase set_raceTimeout]. rewrite Hph. cbn [phase_eqb negb].
      set (room1 := set_raceTimeout room TDead).
      destruct (endRace_first room1 c) as (Hfin & Hbi & Hrt & results & Hems).
      { cbn [room1 phase set_raceTimeout]. congruence. }
      destruct (endRace room1 c) as [room2 ems]. cbn [fst snd] in *.
      subst ems. exists room2, results. auto.
    + (* the last active player crosses the line *)
      intros sid player now Gp Hf Hd Ht Hcc Hothers.
      assert (Hnow : truthy_time (Some now) = true).
      { destruct (players_ok_get _ _ _ (conj Hnd Hall) Gp)
          as (_ & _ & Hlast & _).
        simpl. destruct (Z.eqb_spec now 0); [lia|reflexivity]. }
      rewrite (click_hundredth rooms sid c now room player) by assumption.
      set (p3 := set_rank (set_finishedAt (accept_click player now) (Some now))
                          (Some (finishedCount room + 1))).
      set (room1 := set_players
                      (set_finishedCount room (finishedCount room + 1))
                      (JsMap.set sid p3 (players room))).
      rewrite (checkAllFinished_all_done room1 c).
      * destruct (endRace_first room1 c)
          as (Hfin & Hbi & Hrt & results & Hems).
        { cbn [room1 phase set_players set_finishedCount]. congruence. }
        exists (fst (endRace room1 c)), results. rewrite Hems. auto.
      * intros k q Hin Hdq. cbn [room1 players set_players] in Hin.
        apply In_set_NoDup in Hin as [Heq|[Hin Hne]]; [| |assumption].
        -- inversion Heq; subst. exact Hnow.
        -- cbn [fst] in Hne. apply (JsMapFacts.In_get _ _ _ Hnd) in Hin.
           destruct (Hothers k q Hne Hin) as [H|H]; [congruence|exact H].
    + (* the last active unfinished player leaves *)
      intros sid F Hothers.
      exact (handleDisconnect_ends_race rooms sid c room HI F Hph Hothers).
  - (* a finished room *)
    intros k room G Hph. destruct (Htimers k room G) as [Hb Ht].
    assert (Eb : armed (broadcastInterval room) = false).
    { destruct (armed (broadcastInterval room)); [|reflexivity].
      assert (phase room = Racing) by now apply Hb. congruence. }
    assert (Et : armed (raceTimeout room) = false).
    { destruct (armed (raceTimeout room)); [|reflexivity].
      assert (phase room = Racing) by now apply Ht. congruence. }
    split; [|split; [|split]].
    + intros sid now. unfold click. now rewrite G, Hph.
    + unfold race_timeout. now rewrite G, Et.
    + unfold broadcast_tick. now rewrite G, Eb.
    + intros sid F.
      rewrite (handleDisconnect_finished rooms sid k room HI F Hph).
      cbn [fst snd]. split; [reflexivity|]. intros room'.
      destruct (JsMap.size _ =? 0).
      * rewrite JsMapFacts.get_delete_eq
          by (apply JsMapFacts.NoDup_keys_set, HI). discriminate.
      * rewrite JsMapFacts.get_set_eq. intros H. injection H as <-.
        cbn [phase broadcastInterval raceTimeout set_players]. auto.
  - intros e em. now apply step_race_finished.
Qed.

Lemma one_click_to_go_alone_step :
  one_click_to_go_alone = fst (step one_click_to_go (Disconnect "b")).
Proof. vm_compute. reflexivity. Qed.

Lemma one_click_to_go_alone_reachable : reachable one_click_to_go_alone.
Proof.
  rewrite one_click_to_go_alone_step.
  apply reach_step; [apply one_click_to_go_reachable|exact I].
Qed.

Lemma C3_end_of_race_idempotent_witness :
  (exists room' results,
     race_timeout race_of_two "ABCDEF"
     = (JsMap.set "ABCDEF" room' race_of_two,
        [(ToRoom "ABCDEF", RaceFinished results)])
     /\ phase room' = Finished
     /\ armed (broadcastInterval room') = false
     /\ armed (raceTimeout room') = false)
  /\ (exists room' results,
        click one_click_to_go_alone "a" "ABCDEF" 6000
        = (JsMap.set "ABCDEF" room' one_click_to_go_alone,
           [ (ToRoom "ABCDEF",
              PlayerFinished "a" (0 + 1) (6000 - num (Some 1000)));
             (ToRoom "ABCDEF", RaceFinished results) ])
        /\ phase room' = Finished
        /\ armed (broadcastInterval room') = false
        /\ armed (raceTimeout room') = false)
  /\ (exists room' newHostId results,
        handleDisconnect race_b_gone "a"
        = (JsMap.set "ABCDEF" room' race_b_gone,
           [ (ToRoom "ABCDEF", PlayerLeft "a" newHostId);
             (ToRoom "ABCDEF", RaceFinished results) ])
        /\ phase room' = Finished
        /\ armed (broadcastInterval room') = false
        /\ armed (raceTimeout room') = false).
Proof.
  destruct C3_end_of_race_idempotent as (_ & _ & _ & H).
  split; [|split].
  - destruct (H race_of_two race_of_two_reachable) as (_ & Htrig & _).
    destruct (Htrig "ABCDEF" _ eq_refl eq_refl) as (Htimeout & _).
    exact Htimeout.
  - destruct (H one_click_to_go_alone one_click_to_go_alone_reachable)
      as (_ & Htrig & _).
    destruct (Htrig "ABCDEF" _ eq_refl eq_refl) as (_ & Hclick & _).
    refine (Hclick "a" _ 6000 eq_refl eq_refl eq_refl _ eq_refl _).
    + vm_compute. discriminate.
    + intros k q Hk Gk. apply JsMapFacts.get_In in Gk. cbn in Gk.
      destruct Gk as [E|[E|[]]]; inversion E; subst;
        [congruence|left; reflexivity].
  - destruct (H race_b_gone race_b_gone_reachable) as (_ & Htrig & _).
    destruct (Htrig "ABCDEF" _ eq_refl eq_refl) as (_ & _ & Hleave).
    refine (Hleave "a" eq_refl _).
    intros k q Hk Gk. apply JsMapFacts.get_In in Gk. cbn in Gk.
    destruct Gk as [E|[E|[]]]; inversion E; subst;
      [congruence|left; reflexivity].
Defined.

(** * The client's click pacing *)

Lemma key_eqb_eq a b : key_eqb a b = true <-> a = b.
Proof. destruct a, b; simpl; split; congruence. Qed.

(** One key press either is ignored or is sent; what holds when it is
    sent. *)
Lemma handleKeyPress_cases st key now :
  handleKeyPress st key now = (st, [])
  \/ (c_phase st = CRacing /\ c_myFinished st = false
      /\ 50 <= now - c_lastClickSent st /\ key = c_nextKey st
      /\ handleKeyPress st key now
         = (mkClient (c_roomCode st) CRacing (c_raceStartTime st)
                     (c_clickCount st + 1) now (other_key key)
                     (100 <=? c_clickCount st + 1),
            [EmitClick (c_roomCode st)])).
Proof.
  unfold handleKeyPress, CLICK_THROTTLE_MS, CLICKS_TO_FINISH.
  destruct (c_phase st) eqn:Hph; auto.
  destruct (c_myFinished st) eqn:Hf; auto.
  destruct (now - c_lastClickSent st <? 50) eqn:Ht; auto.
  destruct (key_eqb key (c_nextKey st)) eqn:Hk; auto.
  right. apply Z.ltb_ge in Ht. apply key_eqb_eq in Hk.
  repeat split; auto. cbn [negb]. cbv zeta.
  now destruct (100 <=? c_clickCount st + 1).
Qed.

Lemma press_all_paced presses :
  forall st,
  c_phase st = CRacing ->
  c_clickCount st <= 100 ->
  (c_myFinished st = true <-> 100 <= c_clickCount st) ->
  let st' := fst (press_all st presses) in
  let sent := snd (press_all st presses) in
  c_clickCount st' = c_clickCount st + Z.of_nat (List.length sent)
  /\ c_clickCount st' <= 100
  /\ (c_myFinished st' = true <-> 100 <= c_clickCount st')
  /\ c_phase st' = CRacing
  /\ c_roomCode st' = c_roomCode st
  /\ paced (c_lastClickSent st) (c_nextKey st) sent.
Proof.
  induction presses as [|[key now] rest IH]; intros st Hph Hle Hfin.
  - cbn. repeat split; try tauto; lia.
  - cbn [press_all].
    destruct (handleKeyPress_cases st key now)
      as [Heq|(_ & Hnf & Ht & Hk & Heq)]; rewrite Heq.
    + specialize (IH st Hph Hle Hfin).
      destruct (press_all st rest) as [st2 sent]. exact IH.
    + assert (Hlt : c_clickCount st < 100).
      { destruct (Z.lt_ge_cases (c_clickCount st) 100) as [H|H]; [exact H|].
        apply Hfin in H. congruence. }
      match goal with
      | |- context [press_all ?s rest] =>
          specialize (IH s eq_refl); destruct (press_all s rest) as [st2 sent]
      end.
      cbn [fst snd c_clickCount c_myFinished c_lastClickSent c_nextKey
           c_roomCode] in *.
      destruct IH as (Hc & Hle' & Hfin' & Hph' & Hrc & Hp).
      { lia. }
      { rewrite Z.leb_le. reflexivity. }
      cbn [List.length]. repeat split; try tauto; try lia;
        solve [apply Hfin'|now symmetry].
Qed.

(** X21. From the green light (the state the client is in after
    [race-started] and the end of the countdown), whatever keys are pressed
    and whenever: the clicks sent are counted by the client's click counter,
    which never exceeds 100, so at most 100 clicks are sent in a race; the
    client considers itself finished exactly when it has sent 100; the
    presses that were sent alternate A, B, A, ... and each comes at least
    50 ms after the previous one. *)
Theorem X21_client_paces_clicks st startTime presses :
  let st0 := countdown_done (on_race_started st startTime) in
  let st' := fst (press_all st0 presses) in
  let sent := snd (press_all st0 presses) in
  c_clickCount st' = Z.of_nat (List.length sent)
  /\ (List.length sent <= 100)%nat
  /\ (c_myFinished st' = true <-> List.length sent = 100%nat)
  /\ paced 0 KeyA sent.
Proof.
  intros st0 st' sent.
  destruct (press_all_paced presses st0) as (Hc & Hle & Hfin & _ & _ & Hp).
  - reflexivity.
  - cbn. lia.
  - cbn. split; [discriminate|lia].
  - fold st' sent in Hc, Hle, Hfin, Hp. cbn in Hc, Hp.
    split; [exact Hc|]. split; [lia|]. split; [|exact Hp].
    rewrite Hfin. lia.
Qed.

(** ** The server while a client plays *)

Lemma checkAllFinished_createdAt room c :
  createdAt (fst (checkAllFinished room c)) = createdAt room.
Proof.
  destruct (checkAllFinished_cases room c) as [-> | ->]; [|reflexivity].
  rewrite endRace_eq. now destruct (phase_eqb (phase room) Finished).
Qed.

(** How [on_track] survives the replacement of a room. *)
Lemma on_track_update rooms c sid created n t k r r' :
  on_track rooms c sid created n t ->
  JsMap.get k rooms = Some r ->
  (k = c ->
   forall p,
     JsMap.get sid (players r) = Some p ->
     phase r <> Lobby ->
     disconnected p = false ->
     (n < 100 -> phase r = Racing /\ truthy_time (finishedAt p) = false) ->
     createdAt r' = createdAt r
     /\ phase r' <> Lobby
     /\ (exists rk d,
           JsMap.get sid (players r') = Some (set_dnf (set_rank p rk) d))
     /\ (n < 100 -> phase r' = Racing)) ->
  on_track (JsMap.set k r' rooms) c sid created n t.
Proof.
  intros (room & p & G & Hc & Hnl & Gp & Hcc & Hpr & Hl & Hd & Hf & Hrace) Gk H.
  destruct (string_dec k c) as [->|Hne].
  - assert (r = room) by congruence. subst r.
    destruct (H eq_refl p Gp Hnl Hd) as (Hc' & Hnl' & (rk & d & Gp') & Hrace').
    { intros Hn. split; [auto|].
      destruct (truthy_time (finishedAt p)) eqn:E; [|reflexivity].
      assert (100 <= n) by now apply Hf. lia. }
    exists r', (set_dnf (set_rank p rk) d).
    rewrite JsMapFacts.get_set_eq. repeat split; auto; try congruence;
      apply Hf.
  - exists room, p. rewrite JsMapFacts.get_set_neq by assumption.
    repeat split; auto; apply Hf.
Qed.

Lemma on_track_same rooms c sid created n t k r r' :
  on_track rooms c sid created n t ->
  JsMap.get k rooms = Some r ->
  createdAt r' = createdAt r -> phase r' = phase r ->
  (k = c -> JsMap.get sid (players r') = JsMap.get sid (players r)) ->
  on_track (JsMap.set k r' rooms) c sid created n t.
Proof.
  intros Hon Gk Hc Hph Hget. eapply on_track_update; eauto.
  intros Hk p Gp Hnl Hd Hrace.
  split; [exact Hc|]. split; [congruence|]. split.
  - exists (rank p), (dnf p). rewrite set_rank_dnf_id, (Hget Hk). exact Gp.
  - intros Hn. rewrite Hph. now apply Hrace.
Qed.

(** After an update of another player's record, the all-finished check
    leaves the racing player on the track. *)
Lemma on_track_checkAllFinished rooms c sid created n t r r1 :
  on_track rooms c sid created n t ->
  JsMap.get c rooms = Some r ->
  NoDup (JsMap.keys (players r1)) ->
  createdAt r1 = createdAt r -> phase r1 = Racing ->
  JsMap.get sid (players r1) = JsMap.get sid (players r) ->
  on_track (JsMap.set c (fst (checkAllFinished r1 c)) rooms) c sid created n t.
Proof.
  intros Hon G Hnd Hc Hph Hget. eapply on_track_update; eauto.
  intros _ p Gp Hnl Hd Hrace. rewrite <- Hget in Gp.
  split; [now rewrite checkAllFinished_createdAt|]. split; [|split].
  - destruct (checkAllFinished_racing r1 c Hph) as [-> |[-> _]];
      cbn [fst]; congruence.
  - now apply checkAllFinished_get_player.
  - intros Hn. destruct (Hrace Hn) as [_ Hf].
    rewrite (checkAllFinished_still_racing r1 c sid p); auto.
    now apply JsMapFacts.get_In.
Qed.

Lemma handleDisconnect_on_track rooms s c sid created n t :
  Inv rooms -> on_track rooms c sid created n t -> s <> sid ->
  on_track (fst (handleDisconnect rooms s)) c sid created n t.
Proof.
  intros HI Hon Hs.
  destruct (findRoomBySocket rooms s) as [[k room]|] eqn:F;
    [|unfold handleDisconnect; now rewrite F].
  destruct (findRoomBySocket_get _ _ _ _ HI F) as (G & Hcode & Hnd & q & Gq).
  destruct (string_dec k c) as [->|Hne].
  2:{ destruct Hon as (r & p & Gr & H). exists r, p.
      rewrite (handleDisconnect_frame rooms s k room c HI F) by congruence.
      auto. }
  pose proof Hon as (r & p & Gr & _ & Hnl & Gp & _).
  assert (r = room) by congruence. subst r.
  destruct (phase room) eqn:Hph; [congruence| |].
  - destruct (handleDisconnect_racing rooms s c room q F Hph Gq)
      as (host' & nh & Heq & _).
    cbv zeta in Heq. rewrite Heq, Hcode. cbn [fst].
    eapply on_track_checkAllFinished; eauto.
    + cbn [players set_hostSocketId set_players].
      now apply JsMapFacts.NoDup_keys_set.
    + cbn [players set_hostSocketId set_players].
      now apply JsMapFacts.get_set_neq.
  - rewrite (handleDisconnect_finished rooms s c room HI F Hph). cbn [fst].
    destruct (JsMap.size _ =? 0) eqn:Esz.
    { apply JsMapFacts.size_zero_iff in Esz.
      assert (Hin : In sid (JsMap.keys (JsMap.delete s (players room)))).
      { apply In_keys_delete_neq; [congruence|].
        eapply JsMapFacts.get_keys; eauto. }
      rewrite Esz in Hin. destruct Hin. }
    eapply on_track_same; eauto.
    intros _. cbn [players set_players].
    now apply JsMapFacts.get_delete_neq.
Qed.

Ltac lookup_room rooms room G :=
  cbv zeta;
  match goal with
  | |- context [match JsMap.get ?k rooms with Some _ => _ | None => _ end] =>
      destruct (JsMap.get k rooms) as [room|] eqn:G
  end.

(** A message or timer firing that is neither a click of the racing player
    nor one of [disturbs] leaves the player on the track, with the same
    counter and the same time of the last accepted click. *)
Lemma quiet_step_on_track rooms e c sid created n t :
  Inv rooms -> on_track rooms c sid created n t ->
  is_click_of sid c e = false -> disturbs sid c created e = false ->
  on_track (fst (step rooms e)) c sid created n t.
Proof.
  intros HI Hon Hclick Hquiet.
  pose proof Hon as (r & p & Gr & Hcr & Hnl & Gp & _ & _ & _ & Hd & _).
  destruct e; cbn [step is_click_of disturbs] in *.
  - (* create-room *)
    unfold create_room.
    destruct (generateRoomCode rooms draws) as [c'|] eqn:Eg; [|assumption].
    cbn [fst]. apply generateRoomCode_drawn in Eg as [Hnone _].
    destruct Hon as (r0 & p0 & G0 & H). exists r0, p0.
    rewrite JsMapFacts.get_set_neq by congruence. auto.
  - (* join-room *)
    unfold join_room.
    lookup_room rooms room G; [|assumption].
    destruct (negb (phase_eqb (phase room) Lobby)) eqn:Ep; [assumption|].
    apply negb_false_iff, phase_eqb_eq in Ep.
    destruct (16 <=? _); [assumption|]. cbn [fst].
    eapply on_track_update; eauto. intros Hk. rewrite Hk in G.
    assert (room = r) by congruence. subst room. contradiction.
  - (* rejoin-room *)
    unfold rejoin_room.
    lookup_room rooms room G; [|assumption].
    cbn [fst]. eapply on_track_same; eauto. intros Hk.
    rewrite Hk, String.eqb_refl, andb_true_r in Hquiet.
    apply String.eqb_neq in Hquiet. cbn [players set_players].
    now apply JsMapFacts.get_set_neq.
  - (* start-race *)
    unfold start_race.
    lookup_room rooms room G; [|assumption].
    destruct (negb (String.eqb _ _)); [assumption|].
    destruct (negb (phase_eqb (phase room) Lobby)) eqn:Ep; [assumption|].
    apply negb_false_iff, phase_eqb_eq in Ep.
    destruct (_ <? 1); [assumption|]. cbn [fst].
    eapply on_track_update; eauto. intros Hk. rewrite Hk in G.
    assert (room = r) by congruence. subst room. contradiction.
  - (* click of another connection, or for another room *)
    unfold click.
    destruct (JsMap.get roomCode rooms) as [room|] eqn:G; [|assumption].
    destruct (negb (phase_eqb (phase room) Racing)) eqn:Ep; [assumption|].
    apply negb_false_iff, phase_eqb_eq in Ep.
    destruct (JsMap.get sid0 (players room)) as [q|] eqn:Gq; [|assumption].
    destruct (_ || _)%bool; [assumption|].
    destruct (_ <? 50); [assumption|]. cbv zeta.
    destruct (Inv_get _ _ _ HI G) as (_ & _ & [Hnd _] & _). simpl in Hnd.
    assert (Hother : roomCode = c -> sid0 <> sid).
    { intros ->. rewrite String.eqb_refl, andb_true_r in Hclick.
      now apply String.eqb_neq in Hclick. }
    destruct ((100 <=? clickCount (accept_click q now))
              && negb (truthy_time (finishedAt (accept_click q now))))%bool.
    + destruct (string_dec roomCode c) as [->|Hne].
      * assert (room = r) by congruence. subst room.
        match goal with
        | |- context [checkAllFinished ?r1 c] =>
            pose proof (on_track_checkAllFinished rooms c sid created n t
                          r r1 Hon Gr) as Hcf;
            destruct (checkAllFinished r1 c) as [room2 ems]
        end.
        cbn [fst] in *. apply Hcf.
        -- cbn [players set_players]. now apply JsMapFacts.NoDup_keys_set.
        -- reflexivity.
        -- exact Ep.
        -- cbn [players set_players]. apply JsMapFacts.get_set_neq. auto.
      * destruct (checkAllFinished _ _) as [room2 ems]. cbn [fst].
        destruct Hon as (r0 & p0 & G0 & H). exists r0, p0.
        rewrite JsMapFacts.get_set_neq by assumption. auto.
    + cbn [fst]. eapply on_track_same; eauto. intros Hk.
      cbn [players set_players]. apply JsMapFacts.get_set_neq. auto.
  - (* reset-room of another room *)
    unfold reset_room.
    lookup_room rooms room G; [|assumption].
    destruct (negb _); [assumption|]. cbn [fst].
    apply String.eqb_neq in Hquiet.
    destruct Hon as (r0 & p0 & G0 & H). exists r0, p0.
    rewrite JsMapFacts.get_set_neq by assumption. auto.
  - apply String.eqb_neq in Hquiet. now apply handleDisconnect_on_track.
  - apply String.eqb_neq in Hquiet. now apply handleDisconnect_on_track.
  - (* a tick of the broadcast interval *)
    unfold broadcast_tick.
    lookup_room rooms room G; [|assumption].
    destruct (armed _); [|assumption].
    destruct (negb _); [|assumption]. cbn [fst].
    eapply on_track_same; eauto.
  - (* the race timeout of another room *)
    apply String.eqb_neq in Hquiet.
    assert (Hframe : JsMap.get c (fst (race_timeout rooms roomCode))
                     = JsMap.get c rooms).
    { unfold race_timeout.
      destruct (JsMap.get roomCode rooms) as [room|]; [|reflexivity].
      destruct (armed _); [|reflexivity]. cbv zeta.
      destruct (negb _); [now apply JsMapFacts.get_set_neq|].
      destruct (endRace _ _). now apply JsMapFacts.get_set_neq. }
    destruct Hon as (r0 & p0 & G0 & H). exists r0, p0.
    rewrite Hframe. auto.
  - (* a TTL sweep before the room is two hours old *)
    cbn [fst]. destruct Hon as (r0 & p0 & G0 & Hc0 & H). exists r0, p0.
    split; [|auto]. unfold ttl_sweep.
    apply get_filter_in; [apply HI|exact G0|].
    cbn [snd]. now rewrite Hc0, Hquiet.
Qed.

(** A click of the racing player that passes the throttle is counted. *)
Lemma own_click_on_track rooms c sid created n t now :
  Inv rooms -> on_track rooms c sid created n t ->
  n < 100 -> 50 <= now - t ->
  on_track (fst (click rooms sid c now)) c sid created (n + 1) now.
Proof.
  intros HI (room & p & G & Hc & Hnl & Gp & Hcc & Hpr & Hl & Hd & Hf & Hrace)
         Hn Ht.
  specialize (Hrace Hn).
  assert (Hunf : truthy_time (finishedAt p) = false).
  { destruct (truthy_time (finishedAt p)) eqn:E; [|reflexivity].
    assert (100 <= n) by now apply Hf. lia. }
  destruct (Inv_get _ _ _ HI G) as (_ & _ & [Hnd Hall] & _).
  simpl in Hnd, Hall.
  destruct (players_ok_get _ _ _ (conj Hnd Hall) Gp) as (_ & _ & Hl0 & _).
  rewrite <- Hl in Ht.
  destruct (Z.eq_dec (clickCount p) 99) as [E99|N99].
  - rewrite (click_hundredth rooms sid c now room p) by assumption.
    cbn [fst].
    set (p3 := set_rank (set_finishedAt (accept_click p now) (Some now))
                        (Some (finishedCount room + 1))).
    set (room1 := set_players (set_finishedCount room (finishedCount room + 1))
                              (JsMap.set sid p3 (players room))).
    assert (Hnow : truthy_time (Some now) = true).
    { simpl. destruct (Z.eqb_spec now 0); [lia|reflexivity]. }
    assert (Hnd1 : NoDup (JsMap.keys (players room1)))
      by now apply JsMapFacts.NoDup_keys_set.
    pose proof (checkAllFinished_finished_untouched room1 c sid p3 Hnd1
                  (JsMapFacts.get_set_eq _ _ _) Hnow) as Gp3.
    exists (fst (checkAllFinished room1 c)), p3.
    split; [apply JsMapFacts.get_set_eq|].
    split; [now rewrite checkAllFinished_createdAt|].
    split.
    { destruct (checkAllFinished_racing room1 c Hrace) as [-> |[-> _]];
        cbn [fst]; [cbn [room1 phase set_players set_finishedCount]|];
        congruence. }
    split; [exact Gp3|].
    split; [simpl; lia|]. split; [simpl; lia|]. split; [reflexivity|].
    split; [exact Hd|]. split; [|lia].
    cbn [p3 finishedAt set_rank set_finishedAt]. split; [lia|auto].
  - assert (Hcc99 : clickCount p < 99) by lia.
    rewrite (click_before_finish rooms sid c now room p) by assumption.
    cbn [fst]. eexists _, _.
    split; [apply JsMapFacts.get_set_eq|].
    cbn [players set_players phase createdAt].
    split; [exact Hc|]. split; [exact Hnl|].
    split; [apply JsMapFacts.get_set_eq|].
    split; [simpl; lia|]. split; [simpl; lia|]. split; [reflexivity|].
    split; [exact Hd|]. split; [|auto].
    change (finishedAt (accept_click p now)) with (finishedAt p).
    rewrite Hunf. split; [discriminate|lia].
Qed.

Lemma is_click_of_true sid c e :
  is_click_of sid c e = true -> exists now, e = Click sid c now.
Proof.
  destruct e; cbn [is_click_of]; try discriminate.
  intros H. apply andb_true_iff in H as [Hs Hc].
  apply String.eqb_eq in Hs, Hc. subst. eauto.
Qed.

(** The server handles the clicks a client sent, paced as the client paces
    them, interleaved with any events that do not disturb the race of that
    player: every click is counted. *)
Lemma interleaved_clicks_counted c sid created evs :
  forall rooms sent n prev next,
  Inv rooms -> Forall wf_event evs ->
  on_track rooms c sid created n prev ->
  paced prev next sent ->
  n + Z.of_nat (List.length sent) <= 100 ->
  filter (is_click_of sid c) evs = clicks_of sid c sent ->
  Forall (fun e => is_click_of sid c e = false ->
                   disturbs sid c created e = false) evs ->
  exists t,
    on_track (fst (run rooms evs)) c sid created
             (n + Z.of_nat (List.length sent)) t.
Proof.
  induction evs as [|e evs IH];
    intros rooms sent n prev next HI Hwf Hon Hp Hle Hf Hq.
  - destruct sent; [|discriminate]. exists prev.
    cbn [List.length Z.of_nat run fst]. now rewrite Z.add_0_r.
  - inversion Hwf as [|? ? Hwe Hwf']; subst.
    inversion Hq as [|? ? Hqe Hq']; subst.
    rewrite run_cons. cbn [filter] in Hf.
    destruct (is_click_of sid c e) eqn:Ec.
    + destruct (is_click_of_true _ _ _ Ec) as [now ->].
      destruct sent as [|[k t] sent]; [discriminate|].
      cbn [clicks_of map snd] in Hf. injection Hf as Ht Hf. subst t.
      cbn [paced] in Hp. destruct Hp as (_ & Hgap & Hp).
      cbn [List.length] in Hle. rewrite Nat2Z.inj_succ in Hle.
      destruct (IH (fst (step rooms (Click sid c now))) sent (n + 1) now
                   (other_key k)) as [t Hon']; auto.
      * now apply step_Inv.
      * cbn [step]. apply own_click_on_track with (t := prev); auto. lia.
      * lia.
      * exists t. cbn [List.length]. rewrite Nat2Z.inj_succ.
        replace (n + Z.succ (Z.of_nat (List.length sent)))
          with (n + 1 + Z.of_nat (List.length sent)) by lia.
        exact Hon'.
    + apply (IH (fst (step rooms e)) sent n prev next); auto.
      * now apply step_Inv.
      * apply quiet_step_on_track; auto.
Qed.

(** X22. Client and server count the same clicks.  Take a player of a
    racing room who has not clicked yet and the client of that connection
    at the green light, and let the server handle the clicks of that client
    in the order they were sent, each at the clock reading at which it was
    sent, interleaved with any other messages and timer firings except
    those that break off this player's race: a [rejoin-room] of the
    connection for the room, a [reset-room] for the room, a [leave-room] or
    [disconnect] of the connection, the firing of the room's race timeout
    and a TTL sweep that finds the room older than two hours.  Then,
    whatever keys are pressed and whenever, the server accepts every click
    the client sends: the player's click counter and progress on the server
    equal the client's optimistic count, and the server stamps the player
    as finished exactly when the client stops sending. *)
Theorem X22_client_server_in_step
    rooms c sid room p st startTime presses evs :
  reachable rooms ->
  JsMap.get c rooms = Some room ->
  phase room = Racing ->
  JsMap.get sid (players room) = Some p ->
  clickCount p = 0 -> lastClickTime p = 0 -> disconnected p = false ->
  c_roomCode st = Some c ->
  let st0 := countdown_done (on_race_started st startTime) in
  let st' := fst (press_all st0 presses) in
  let sent := snd (press_all st0 presses) in
  Forall wf_event evs ->
  filter (is_click_of sid c) evs = clicks_of sid c sent ->
  Forall (fun e => is_click_of sid c e = false ->
                   disturbs sid c (createdAt room) e = false) evs ->
  exists room' p',
    JsMap.get c (fst (run rooms evs)) = Some room'
    /\ JsMap.get sid (players room') = Some p'
    /\ clickCount p' = Z.of_nat (List.length sent)
    /\ progress p' = c_clickCount st'
    /\ (truthy_time (finishedAt p') = true <-> c_myFinished st' = true).
Proof.
  intros Hr G Hph Gp Hc0 Hl0 Hd Hrc st0 st' sent Hwf Hf Hq.
  pose proof (reachable_Inv _ Hr) as HI.
  destruct (Inv_get _ _ _ HI G) as (_ & _ & [Hnd Hall] & _).
  simpl in Hnd, Hall.
  destruct (players_ok_get _ _ _ (conj Hnd Hall) Gp) as (Hpc & _ & _ & Hfin).
  assert (H0 : on_track rooms c sid (createdAt room) 0 0).
  { exists room, p. repeat split; auto; try congruence; try lia.
    intros Ht. apply Hfin in Ht. lia. }
  destruct (press_all_paced presses st0)
    as (Hcount & Hle & Hmf & _ & _ & Hpaced).
  { reflexivity. }
  { cbn. lia. }
  { cbn. split; [discriminate|lia]. }
  fold st' sent in Hcount, Hle, Hmf, Hpaced. cbn in Hcount, Hpaced.
  destruct (interleaved_clicks_counted c sid (createdAt room) evs rooms sent
              0 0 KeyA HI Hwf H0 Hpaced) as [t Hon]; auto.
  { lia. }
  destruct Hon as (room' & p' & G' & _ & _ & Gp' & Hcc & Hpr & _ & _ & Htr & _).
  exists room', p'. repeat split; auto; try lia.
  - intros Ht. apply Hmf. apply Htr in Ht. lia.
  - intros Ht. apply Htr. apply Hmf in Ht. lia.
Qed.

Lemma X22_client_server_in_step_witness :
  exists room' p',
    JsMap.get "ABCDEF"
      (fst (run race_of_two
              [ Click "a" "ABCDEF" 4600; Click "b" "ABCDEF" 4650;
                BroadcastTick "ABCDEF"; Click "a" "ABCDEF" 4710;
                Disconnect "b" ]))
    = Some room'
    /\ JsMap.get "a" (players room') = Some p'
    /\ progress p' = 2.
Proof.
  destruct (X22_client_server_in_step race_of_two "ABCDEF" "a" _ _
              (mkClient (Some "ABCDEF") CLobby None 0 0 KeyA false) 4500
              [(KeyA, 4600); (KeyA, 4700); (KeyB, 4710); (KeyB, 4800)]
              [ Click "a" "ABCDEF" 4600; Click "b" "ABCDEF" 4650;
                BroadcastTick "ABCDEF"; Click "a" "ABCDEF" 4710;
                Disconnect "b" ]
              race_of_two_reachable eq_refl eq_refl eq_refl eq_refl eq_refl
              eq_refl eq_refl)
    as (room' & p' & G & Gp & _ & Hpr & _).
  - repeat constructor.
  - reflexivity.
  - repeat constructor; intros; reflexivity.
  - exists room', p'. split; [exact G|]. split; [exact Gp|].
    rewrite Hpr. reflexivity.
Defined.
